(** * ech-wk: verification of the tunnel's session engine and ingress dispatcher

    Shallow embedding of
    - the ingress client (Go, [package core]): the China IP range table
      ([loadChinaIPList], [isChinaIP]) and the routing policy
      ([shouldBypassProxy]) in [RangeTable]; the SOCKS5 UDP relay
      ([handleUDPRelay], [handleDNSQuery]) in [UdpRelay]; the
      WebSocket-to-client copy loop of [handleTunnel] in [Tunnel]; the request
      body of the HTTP forward proxy ([handleHTTP]) in [HttpProxy];
    - the egress worker (JavaScript) in [Egress]: [SessionPool],
      [Message.parse], [TcpWsSession], [parseAddress], [isIpAddress],
      [isCFError] and the upgrade handler [fetch];
    - the egress variant [src/worker.js] in [Worker]: [parseAddress] and the
      CONNECT branch of [ProxySession.handleMessage].

    Unsigned 32-bit values and bytes are integers of [Z]; Go slices and
    JavaScript arrays are lists; JavaScript strings are [string]s of 8-bit
    code units. *)

From Stdlib Require Import ZArith String Ascii List Bool Lia.
From stdpp Require Import base list strings gmap.
From Equations Require Import Equations.
Import ListNotations.

Local Open Scope Z_scope.

(* ===================================================================== *)
(** * Ingress: the IPv4/IPv6 range table                                  *)
(* ===================================================================== *)

Module RangeTable.

(** [type ipRange struct { start, end uint32 }] *)
Record ipRange := mkRange { start : Z; end_ : Z }.

(** [type ipRangeV6 struct { start, end [16]byte }] *)
Record ipRangeV6 := mkRangeV6 { start6 : list Z; end6 : list Z }.

(** A parsed [net.IP]: [V4 b0 b1 b2 b3] stands for every address whose
    [To4()] is not nil, with the four bytes [To4()] returns; [V6 b] for the
    others, with their 16 bytes. *)
Inductive IP :=
| V4 (b0 b1 b2 b3 : Z)
| V6 (b : list Z).

(** [ipToUint32]: 0 when [To4()] is nil, else
    [uint32(ip[0])<<24 | uint32(ip[1])<<16 | uint32(ip[2])<<8 | uint32(ip[3])]. *)
Definition ipToUint32 (ip : IP) : Z :=
  match ip with
  | V4 b0 b1 b2 b3 =>
      Z.lor (Z.lor (Z.lor (Z.shiftl b0 24) (Z.shiftl b1 16)) (Z.shiftl b2 8)) b3
  | V6 _ => 0
  end.

(** The parsing loop of [loadChinaIPList]: one entry per line that has two
    fields which both parse as IP addresses; a range is appended when
    [start > 0 && end > 0 && start <= end]. *)
Fixpoint collect (entries : list (IP * IP)) : list ipRange :=
  match entries with
  | [] => []
  | (startIP, endIP) :: rest =>
      let s := ipToUint32 startIP in
      let e := ipToUint32 endIP in
      if (0 <? s) && (0 <? e) && (s <=? e)
      then mkRange s e :: collect rest
      else collect rest
  end.

(** [ranges[j].start]; every index the loops use is in range. *)
Definition startAt (ranges : list ipRange) (j : nat) : Z :=
  match ranges !! j with
  | Some r => start r
  | None => 0
  end.

(** The inner loop [for j := i + 1; j < len(ranges); j++], with [n] the
    number of iterations left. *)
Fixpoint scanMin (ranges : list ipRange) (minIdx j n : nat) : nat :=
  match n with
  | O => minIdx
  | S n' =>
      scanMin ranges
        (if startAt ranges j <? startAt ranges minIdx then j else minIdx)
        (S j) n'
  end.

(** [ranges[i], ranges[minIdx] = ranges[minIdx], ranges[i]] *)
Definition swap (ranges : list ipRange) (i m : nat) : list ipRange :=
  match ranges !! i, ranges !! m with
  | Some a, Some b => <[i := b]> (<[m := a]> ranges)
  | _, _ => ranges
  end.

(** The outer loop [for i := 0; i < len(ranges)-1; i++], with [n] the
    number of iterations left. *)
Fixpoint sortFrom (ranges : list ipRange) (i n : nat) : list ipRange :=
  match n with
  | O => ranges
  | S n' =>
      let minIdx := scanMin ranges i (S i) (length ranges - S i) in
      let ranges' := if Nat.eqb minIdx i then ranges else swap ranges i minIdx in
      sortFrom ranges' (S i) n'
  end.

Definition sortRanges (ranges : list ipRange) : list ipRange :=
  sortFrom ranges 0 (length ranges - 1).

(** [loadChinaIPList] once the file is open: [None] is the error
    ["IP列表为空"], [Some] the table stored in [ps.chinaIPRanges]. *)
Definition loadChinaIPList (entries : list (IP * IP)) : option (list ipRange) :=
  let ranges := collect entries in
  if Nat.eqb (length ranges) 0 then None else Some (sortRanges ranges).

(** The binary search of [isChinaIP] over the IPv4 table: the loop
    [for left < right] with [lo] for [left], [hi] for [right] and
    [mid := (left + right) / 2]. *)
Equations? searchV4 (ranges : list ipRange) (ipUint32 : Z) (lo hi : nat) : bool
  by wf (hi - lo)%nat lt :=
  searchV4 ranges ipUint32 lo hi with lt_dec lo hi => {
    | right _ => false
    | left _ with ranges !! ((lo + hi) / 2)%nat => {
        | None => false
        | Some r with Z_lt_dec ipUint32 (start r) => {
            | left _ => searchV4 ranges ipUint32 lo ((lo + hi) / 2)%nat
            | right _ with Z_lt_dec (end_ r) ipUint32 => {
                | left _ => searchV4 ranges ipUint32 (S ((lo + hi) / 2)) hi
                | right _ => true } } } }.
Proof.
  all: change (fst (Nat.divmod (lo + hi) 1 0 1)) with ((lo + hi) / 2)%nat.
  all: assert ((lo + hi) / 2 < hi)%nat by (apply Nat.Div0.div_lt_upper_bound; lia).
  all: assert (lo <= (lo + hi) / 2)%nat by (apply Nat.div_le_lower_bound; lia).
  all: lia.
Qed.

(** [compareIPv6]: -1, 0 or 1, byte by byte over the two 16-byte arrays. *)
Fixpoint compareIPv6 (a b : list Z) : Z :=
  match a, b with
  | x :: a', y :: b' =>
      if x <? y then -1 else if y <? x then 1 else compareIPv6 a' b'
  | _, _ => 0
  end.

(** The binary search of [isChinaIP] over the IPv6 table, [cmpStart] and
    [cmpEnd] being the two calls of [compareIPv6]. *)
Equations? searchV6 (ranges : list ipRangeV6) (ipArray : list Z) (lo hi : nat) : bool
  by wf (hi - lo)%nat lt :=
  searchV6 ranges ipArray lo hi with lt_dec lo hi => {
    | right _ => false
    | left _ with ranges !! ((lo + hi) / 2)%nat => {
        | None => false
        | Some r with Z_lt_dec (compareIPv6 ipArray (start6 r)) 0 => {
            | left _ => searchV6 ranges ipArray lo ((lo + hi) / 2)%nat
            | right _ with Z_lt_dec 0 (compareIPv6 ipArray (end6 r)) => {
                | left _ => searchV6 ranges ipArray (S ((lo + hi) / 2)) hi
                | right _ => true } } } }.
Proof.
  all: change (fst (Nat.divmod (lo + hi) 1 0 1)) with ((lo + hi) / 2)%nat.
  all: assert ((lo + hi) / 2 < hi)%nat by (apply Nat.Div0.div_lt_upper_bound; lia).
  all: assert (lo <= (lo + hi) / 2)%nat by (apply Nat.div_le_lower_bound; lia).
  all: lia.
Qed.

(** The fields of [ProxyServer] the routing policy reads. *)
Record ProxyServer := mkProxyServer {
  RoutingMode : string;
  chinaIPRanges : list ipRange;
  chinaIPV6Ranges : list ipRangeV6
}.

(** [isChinaIP] on an address that [net.ParseIP] accepted. *)
Definition isChinaAddr (ps : ProxyServer) (ip : IP) : bool :=
  match ip with
  | V4 _ _ _ _ =>
      let ipUint32 := ipToUint32 ip in
      if ipUint32 =? 0 then false
      else searchV4 (chinaIPRanges ps) ipUint32 0 (length (chinaIPRanges ps))
  | V6 ipArray =>
      searchV6 (chinaIPV6Ranges ps) ipArray 0 (length (chinaIPV6Ranges ps))
  end.

Section Routing.

(** The two library calls the policy makes: [net.ParseIP] ([None] is nil)
    and [net.LookupIP] ([None] is a resolver error). *)
Variable ParseIP : string -> option IP.
Variable LookupIP : string -> option (list IP).

(** [isChinaIP(ipStr)] *)
Definition isChinaIP (ps : ProxyServer) (ipStr : string) : bool :=
  match ParseIP ipStr with
  | None => false
  | Some ip => isChinaAddr ps ip
  end.

(** The loop [for _, ip := range ips] of [shouldBypassProxy]; the address
    printed by [ip.String()] parses back to [ip]. *)
Fixpoint anyChina (ps : ProxyServer) (ips : list IP) : bool :=
  match ips with
  | [] => false
  | ip :: rest => if isChinaAddr ps ip then true else anyChina ps rest
  end.

(** [shouldBypassProxy]: [true] is a direct connection, [false] the tunnel. *)
Definition shouldBypassProxy (ps : ProxyServer) (targetHost : string) : bool :=
  if String.eqb (RoutingMode ps) "none" then true
  else if String.eqb (RoutingMode ps) "global" then false
  else if String.eqb (RoutingMode ps) "bypass_cn" then
    match ParseIP targetHost with
    | Some _ => isChinaIP ps targetHost
    | None =>
        match LookupIP targetHost with
        | None => false
        | Some ips => anyChina ps ips
        end
    end
  else false.

End Routing.

(** Containment of an address in a range, and in a table. *)
Definition inRange (x : Z) (r : ipRange) : Prop := start r <= x <= end_ r.

Definition inTable (x : Z) (ranges : list ipRange) : Prop :=
  exists r, r ∈ ranges /\ inRange x r.

Definition sortedByStart (ranges : list ipRange) : Prop :=
  forall i j ri rj, (i <= j)%nat ->
    ranges !! i = Some ri -> ranges !! j = Some rj -> start ri <= start rj.

(** No two loaded ranges overlap: any two of them are the same range or
    one ends before the other starts. *)
Definition apart (a b : ipRange) : bool :=
  ((start a =? start b) && (end_ a =? end_ b))
  || (end_ a <? start b) || (end_ b <? start a).

Definition nonOverlapping (ranges : list ipRange) : bool :=
  forallb (fun a => forallb (apart a) ranges) ranges.

Example searchV4_hit :
  searchV4 [mkRange 10 20; mkRange 30 40; mkRange 50 60] 35 0 3 = true.
Proof. reflexivity. Qed.

Example searchV4_miss :
  searchV4 [mkRange 10 20; mkRange 30 40; mkRange 50 60] 45 0 3 = false.
Proof. reflexivity. Qed.

Example sortRanges_ex :
  sortRanges [mkRange 50 60; mkRange 10 20; mkRange 30 40; mkRange 10 15]
  = [mkRange 10 20; mkRange 10 15; mkRange 30 40; mkRange 50 60].
Proof. reflexivity. Qed.

(** ** The selection sort of [loadChinaIPList] *)

Lemma startAt_lookup (ranges : list ipRange) i r :
  ranges !! i = Some r -> startAt ranges i = start r.
Proof. unfold startAt. now intros ->. Qed.

Lemma scanMin_spec (ranges : list ipRange) (i : nat) :
  forall n m j,
    (i <= m < j)%nat -> (j + n = length ranges)%nat ->
    (forall k, (i <= k < j)%nat -> startAt ranges m <= startAt ranges k) ->
    (i <= scanMin ranges m j n < length ranges)%nat /\
    (forall k, (i <= k < length ranges)%nat ->
       startAt ranges (scanMin ranges m j n) <= startAt ranges k).
Proof.
  induction n as [|n IH]; intros m j Hm Hlen Hmin; simpl.
  - split; [lia|]. intros k Hk. apply Hmin. lia.
  - destruct (Z.ltb_spec (startAt ranges j) (startAt ranges m)) as [Hlt|Hge].
    + apply IH; [lia|lia|].
      intros k Hk. destruct (Nat.eq_dec k j) as [->|Hne]; [lia|].
      specialize (Hmin k). lia.
    + apply IH; [lia|lia|].
      intros k Hk. destruct (Nat.eq_dec k j) as [->|Hne]; [lia|].
      apply Hmin. lia.
Qed.

Lemma swap_length (ranges : list ipRange) i m :
  length (swap ranges i m) = length ranges.
Proof.
  unfold swap. destruct (ranges !! i), (ranges !! m); auto.
  now rewrite !length_insert.
Qed.

Lemma swap_perm (ranges : list ipRange) i m : swap ranges i m ≡ₚ ranges.
Proof.
  unfold swap.
  destruct (ranges !! i) as [a|] eqn:Hi; [|reflexivity].
  destruct (ranges !! m) as [b|] eqn:Hm; [|reflexivity].
  now apply Permutation_insert_swap.
Qed.

Lemma swap_startAt (ranges : list ipRange) i m k :
  (i < length ranges)%nat -> (m < length ranges)%nat ->
  startAt (swap ranges i m) k =
    startAt ranges (if Nat.eq_dec k i then m
                    else if Nat.eq_dec k m then i else k).
Proof.
  intros Hi Hm. unfold swap.
  destruct (lookup_lt_is_Some_2 ranges i Hi) as [a Ha].
  destruct (lookup_lt_is_Some_2 ranges m Hm) as [b Hb].
  rewrite Ha, Hb. unfold startAt.
  destruct (Nat.eq_dec k i) as [->|Hki].
  - rewrite list_lookup_insert_eq by (rewrite length_insert; lia).
    now rewrite Hb.
  - rewrite list_lookup_insert_ne by congruence.
    destruct (Nat.eq_dec k m) as [->|Hkm].
    + rewrite list_lookup_insert_eq by lia. now rewrite Ha.
    + now rewrite list_lookup_insert_ne by congruence.
Qed.

(** The first [i] positions hold, in order, the [i] smallest starts. *)
Definition prefixSorted (ranges : list ipRange) (i : nat) : Prop :=
  forall a b, (a < i)%nat -> (a <= b < length ranges)%nat ->
    startAt ranges a <= startAt ranges b.

Lemma sortFrom_length : forall n (ranges : list ipRange) i,
  length (sortFrom ranges i n) = length ranges.
Proof.
  induction n as [|n IH]; intros ranges i; simpl; [reflexivity|].
  rewrite IH. destruct (Nat.eqb _ i); [reflexivity|apply swap_length].
Qed.

Lemma sortFrom_perm : forall n (ranges : list ipRange) i,
  sortFrom ranges i n ≡ₚ ranges.
Proof.
  induction n as [|n IH]; intros ranges i; simpl; [reflexivity|].
  rewrite IH. destruct (Nat.eqb _ i); [reflexivity|apply swap_perm].
Qed.

Lemma sortFrom_prefixSorted : forall n (ranges : list ipRange) i,
  (i + n < length ranges)%nat -> prefixSorted ranges i ->
  prefixSorted (sortFrom ranges i n) (i + n).
Proof.
  induction n as [|n IH]; intros ranges i Hlen Hpre; simpl.
  - now rewrite Nat.add_0_r.
  - replace (i + S n)%nat with (S i + n)%nat by lia.
    destruct (scanMin_spec ranges i (length ranges - S i) i (S i))
      as [Hm Hmin]; [lia|lia|intros k Hk; assert (k = i) by lia; subst; lia|].
    set (m := scanMin ranges i (S i) (length ranges - S i)) in *.
    destruct (Nat.eqb_spec m i) as [Heq|Hne].
    + apply IH; [lia|]. intros a b Ha Hb.
      destruct (Nat.eq_dec a i) as [->|Hai].
      * rewrite <- Heq. apply Hmin. lia.
      * apply Hpre; lia.
    + apply IH; [rewrite swap_length; lia|].
      intros a b Ha Hb. rewrite swap_length in Hb.
      rewrite !swap_startAt by lia.
      destruct (Nat.eq_dec a i) as [->|Hai].
      * destruct (Nat.eq_dec b i); [lia|].
        destruct (Nat.eq_dec b m); apply Hmin; lia.
      * destruct (Nat.eq_dec a m); [lia|].
        destruct (Nat.eq_dec b i); [apply Hpre; lia|].
        destruct (Nat.eq_dec b m); apply Hpre; lia.
Qed.

Lemma sortRanges_sorted (ranges : list ipRange) : sortedByStart (sortRanges ranges).
Proof.
  unfold sortRanges. intros i j ri rj Hij Hi Hj.
  pose proof (lookup_lt_Some _ _ _ Hj) as Hlj.
  rewrite sortFrom_length in Hlj.
  rewrite <- (startAt_lookup _ _ _ Hi), <- (startAt_lookup _ _ _ Hj).
  destruct (Nat.eq_dec i j) as [->|Hne]; [lia|].
  pose proof (sortFrom_prefixSorted (length ranges - 1) ranges 0) as H.
  simpl in H. apply H; [lia|intros a b Ha; lia|lia|].
  rewrite sortFrom_length. lia.
Qed.

Lemma sortRanges_perm (ranges : list ipRange) : sortRanges ranges ≡ₚ ranges.
Proof. apply sortFrom_perm. Qed.

Lemma collect_valid entries r :
  r ∈ collect entries -> 0 < start r /\ start r <= end_ r.
Proof.
  induction entries as [|[s e] rest IH]; simpl.
  - intros H. inversion H.
  - destruct (Z.ltb_spec 0 (ipToUint32 s)); simpl; auto.
    destruct (Z.ltb_spec 0 (ipToUint32 e)); simpl; auto.
    destruct (Z.leb_spec (ipToUint32 s) (ipToUint32 e)); simpl; auto.
    intros [->|Hin]%elem_of_cons; simpl; auto.
Qed.

(** ** The binary search of [isChinaIP] *)

Lemma searchV4_sound ranges x lo hi :
  searchV4 ranges x lo hi = true -> inTable x ranges.
Proof.
  funelim (searchV4 ranges x lo hi); try discriminate; auto.
  intros _. exists r. split.
  - eapply list_elem_of_lookup_2; eassumption.
  - unfold inRange. lia.
Qed.

(** Along the table the range ends never decrease. *)
Definition endsMonotone (ranges : list ipRange) : Prop :=
  forall i j ri rj, (i <= j)%nat ->
    ranges !! i = Some ri -> ranges !! j = Some rj -> end_ ri <= end_ rj.

Lemma searchV4_complete ranges x lo hi :
  sortedByStart ranges -> endsMonotone ranges -> (hi <= length ranges)%nat ->
  (exists k r, (lo <= k < hi)%nat /\ ranges !! k = Some r /\ inRange x r) ->
  searchV4 ranges x lo hi = true.
Proof.
  funelim (searchV4 ranges x lo hi); intros Hs He Hhi (k & rk & Hk & Hlk & Hin);
    unfold inRange in Hin.
  - lia.
  - apply lookup_ge_None_1 in Heq.
    assert ((lo + hi) / 2 < hi)%nat by (apply Nat.Div0.div_lt_upper_bound; lia).
    lia.
  - assert ((lo + hi) / 2 < hi)%nat by (apply Nat.Div0.div_lt_upper_bound; lia).
    apply H; auto; [lia|].
    exists k, rk. repeat split; try tauto; try lia.
    destruct (le_lt_dec ((lo + hi) / 2) k) as [Hge|]; [|lia].
    pose proof (Hs _ _ _ _ Hge Heq0 Hlk). lia.
  - apply H; auto.
    exists k, rk. repeat split; try tauto; try lia.
    destruct (le_lt_dec k ((lo + hi) / 2)) as [Hle|]; [|lia].
    pose proof (He _ _ _ _ Hle Hlk Heq1). lia.
  - reflexivity.
Qed.

Lemma apart_spec a b :
  apart a b = true ->
  (start a = start b /\ end_ a = end_ b) \/ end_ a < start b \/ end_ b < start a.
Proof.
  unfold apart. rewrite !orb_true_iff, andb_true_iff.
  rewrite !Z.eqb_eq, !Z.ltb_lt. tauto.
Qed.

Lemma nonOverlapping_endsMonotone ranges :
  (forall r, r ∈ ranges -> start r <= end_ r) ->
  sortedByStart ranges -> nonOverlapping ranges = true -> endsMonotone ranges.
Proof.
  intros Hvalid Hs Hno i j ri rj Hij Hi Hj.
  unfold nonOverlapping in Hno. rewrite forallb_forall in Hno.
  assert (Hri : ri ∈ ranges) by (eapply list_elem_of_lookup_2; eassumption).
  assert (Hrj : rj ∈ ranges) by (eapply list_elem_of_lookup_2; eassumption).
  specialize (Hno ri (proj1 (list_elem_of_In _ _) Hri)).
  rewrite forallb_forall in Hno.
  specialize (Hno rj (proj1 (list_elem_of_In _ _) Hrj)).
  pose proof (Hs _ _ _ _ Hij Hi Hj).
  pose proof (Hvalid _ Hri). pose proof (Hvalid _ Hrj).
  destruct (apart_spec _ _ Hno) as [[_ ?]|[?|?]]; lia.
Qed.

(** ** Claim C1 *)

(** Three ranges as a list file may hold them, the first containing the
    other two. *)
Definition overlapEntries : list (IP * IP) :=
  [ (V4 1 0 1 0, V4 1 0 1 255);
    (V4 1 0 0 0, V4 1 255 255 255);
    (V4 1 0 8 0, V4 1 0 15 255) ].

(** The range from [s] to [e]. *)
Definition rangeOf (s e : IP) : ipRange := mkRange (ipToUint32 s) (ipToUint32 e).

Definition overlapTable : list ipRange :=
  [ rangeOf (V4 1 0 0 0) (V4 1 255 255 255);
    rangeOf (V4 1 0 1 0) (V4 1 0 1 255);
    rangeOf (V4 1 0 8 0) (V4 1 0 15 255) ].

(** C1, as stated, fails: the table loaded from [overlapEntries] is sorted
    by start and 1.1.0.1 lies within its first range, yet the binary search of
    [isChinaIP] answers false. *)
Lemma isChinaIP_overlap_miss :
  loadChinaIPList overlapEntries = Some overlapTable /\
  inTable (ipToUint32 (V4 1 1 0 1)) overlapTable /\
  isChinaAddr (mkProxyServer "bypass_cn" overlapTable []) (V4 1 1 0 1) = false.
Proof.
  split; [reflexivity|]. split; [|reflexivity].
  exists (rangeOf (V4 1 0 0 0) (V4 1 255 255 255)).
  split; [apply list_elem_of_here|]. vm_compute. split; discriminate.
Qed.

(** C1 (amended): after a successful [loadChinaIPList] the IPv4 table holds
    exactly the accepted ranges, sorted ascending by start; whenever
    [isChinaIP] answers true the address lies within a loaded range; and when
    no two loaded ranges overlap, [isChinaIP] answers true if and only if the
    address lies within a loaded range. *)
Theorem loadChinaIPList_isChinaIP
    (ps : ProxyServer) (entries : list (IP * IP)) (b0 b1 b2 b3 : Z) :
  loadChinaIPList entries = Some (chinaIPRanges ps) ->
  let ip := V4 b0 b1 b2 b3 in
  sortedByStart (chinaIPRanges ps) /\
  chinaIPRanges ps ≡ₚ collect entries /\
  (isChinaAddr ps ip = true -> inTable (ipToUint32 ip) (chinaIPRanges ps)) /\
  (nonOverlapping (chinaIPRanges ps) = true ->
     (isChinaAddr ps ip = true <-> inTable (ipToUint32 ip) (chinaIPRanges ps))).
Proof.
  intros Hload0 ip. set (x := ipToUint32 ip).
  assert (Hchina : isChinaAddr ps ip =
            if x =? 0 then false
            else searchV4 (chinaIPRanges ps) x 0 (length (chinaIPRanges ps)))
    by reflexivity.
  rewrite Hchina. clearbody x. clear Hchina ip. revert Hload0.
  unfold loadChinaIPList. destruct (Nat.eqb _ 0); [discriminate|].
  intros [= Hload].
  assert (Hsorted : sortedByStart (chinaIPRanges ps))
    by (rewrite <- Hload; apply sortRanges_sorted).
  assert (Hperm : chinaIPRanges ps ≡ₚ collect entries)
    by (rewrite <- Hload; apply sortRanges_perm).
  assert (Hvalid : forall r, r ∈ chinaIPRanges ps -> 0 < start r /\ start r <= end_ r).
  { intros r Hr. apply (collect_valid entries). now rewrite <- Hperm. }
  assert (Hsound : (if x =? 0 then false
                    else searchV4 (chinaIPRanges ps) x 0 (length (chinaIPRanges ps))) = true
                   -> inTable x (chinaIPRanges ps)).
  { destruct (x =? 0); [discriminate|]. apply searchV4_sound. }
  repeat split; auto.
  intros (r & Hr & Hin).
  destruct (Z.eqb_spec x 0) as [->|_].
  - destruct (Hvalid r Hr). unfold inRange in Hin. lia.
  - apply searchV4_complete; auto.
    + apply nonOverlapping_endsMonotone; auto. intros r' Hr'. now apply Hvalid.
    + apply list_elem_of_lookup_1 in Hr as [k Hk].
      exists k, r. repeat split; auto; try apply Hin; try lia.
      eapply lookup_lt_Some; eassumption.
Qed.

Definition sampleEntries : list (IP * IP) :=
  [ (V4 1 0 8 0, V4 1 0 15 255);
    (V6 [32; 1; 13; 184; 0; 0; 0; 0; 0; 0; 0; 0; 0; 0; 0; 1], V4 1 0 0 1);
    (V4 1 0 1 0, V4 1 0 1 255) ].

Definition sampleTable : list ipRange :=
  [ rangeOf (V4 1 0 1 0) (V4 1 0 1 255);
    rangeOf (V4 1 0 8 0) (V4 1 0 15 255) ].

Lemma loadChinaIPList_isChinaIP_witness :
  loadChinaIPList sampleEntries = Some sampleTable /\
  nonOverlapping sampleTable = true /\
  isChinaAddr (mkProxyServer "bypass_cn" sampleTable []) (V4 1 0 1 1) = true /\
  inTable (ipToUint32 (V4 1 0 1 1)) sampleTable.
Proof.
  split; [reflexivity|]. split; [reflexivity|]. split; [reflexivity|].
  destruct (loadChinaIPList_isChinaIP
              (mkProxyServer "bypass_cn" sampleTable []) sampleEntries
              1 0 1 1 eq_refl) as (_ & _ & _ & Hiff).
  apply (Hiff eq_refl). reflexivity.
Defined.

(** ** The routing decision and the membership test *)

(** The routing decision of [shouldBypassProxy] in terms of the table's own
    membership test: it is direct exactly when the mode is "none", or the mode
    is "bypass_cn" and either the host is an IP literal that [isChinaIP]
    accepts, or the host is a name whose resolution succeeds with at least one
    address accepted by that test.  Hence "global", an unrecognised mode and a
    failed resolution all yield the tunnel. *)
Lemma shouldBypassProxy_decision
    (ParseIP : string -> option IP) (LookupIP : string -> option (list IP))
    (ps : ProxyServer) (targetHost : string) :
  shouldBypassProxy ParseIP LookupIP ps targetHost = true <->
  RoutingMode ps = "none"%string \/
  (RoutingMode ps = "bypass_cn"%string /\
   ((exists ip, ParseIP targetHost = Some ip /\ isChinaAddr ps ip = true) \/
    (ParseIP targetHost = None /\
     exists ips ip, LookupIP targetHost = Some ips /\ ip ∈ ips /\
                    isChinaAddr ps ip = true))).
Proof.
  assert (Hany : forall ips, anyChina ps ips = true <->
                   exists ip, ip ∈ ips /\ isChinaAddr ps ip = true).
  { induction ips as [|ip ips IH]; simpl.
    - split; [discriminate|]. intros (ip & Hin & _). inversion Hin.
    - destruct (isChinaAddr ps ip) eqn:Hip.
      + split; auto. intros _. exists ip. split; [apply list_elem_of_here|auto].
      + rewrite IH. split.
        * intros (ip' & Hin & H). exists ip'. split; [now apply list_elem_of_further|auto].
        * intros (ip' & [->|Hin]%elem_of_cons & H); [congruence|eauto]. }
  unfold shouldBypassProxy, isChinaIP.
  destruct (String.eqb_spec (RoutingMode ps) "none") as [Hn|Hn]; [tauto|].
  destruct (String.eqb_spec (RoutingMode ps) "global") as [Hg|Hg].
  { split; [discriminate|]. rewrite Hg. intros [?|[? _]]; discriminate. }
  destruct (String.eqb_spec (RoutingMode ps) "bypass_cn") as [Hb|Hb].
  - destruct (ParseIP targetHost) as [ip|].
    + split.
      * intros H. right. split; auto. left. eauto.
      * intros [?|[_ [(ip' & [= <-] & H)|[? _]]]]; try congruence.
    + destruct (LookupIP targetHost) as [ips|].
      * rewrite Hany. split.
        -- intros (ip & Hin & H). right. split; auto. right. split; eauto.
        -- intros [?|[_ [(ip' & ? & _)|[_ (ips' & ip & [= <-] & Hin & H)]]]];
             try congruence; eauto.
      * split; [discriminate|].
        intros [?|[_ [(ip' & ? & _)|[_ (ips' & ip & ? & _)]]]]; congruence.
  - split; [discriminate|]. intros [?|[? _]]; congruence.
Qed.

End RangeTable.

(* ===================================================================== *)
(** * JavaScript string operations used by the egress workers             *)
(* ===================================================================== *)

Module Js.

Definition isEmpty (s : string) : bool :=
  match s with
  | EmptyString => true
  | String _ _ => false
  end.

Definition len (s : string) : Z := Z.of_nat (String.length s).

(** [s.startsWith(p)] *)
Definition startsWith (s p : string) : bool := String.prefix p s.

(** [s.indexOf(c)] for a one-character search string: -1 when absent. *)
Fixpoint indexOfAt (c : ascii) (s : string) (i : Z) : Z :=
  match s with
  | EmptyString => -1
  | String a s' => if Ascii.eqb a c then i else indexOfAt c s' (i + 1)
  end.

Definition indexOf (s : string) (c : ascii) : Z := indexOfAt c s 0.

(** [s.lastIndexOf(c)] *)
Fixpoint lastIndexOfAt (c : ascii) (s : string) (i acc : Z) : Z :=
  match s with
  | EmptyString => acc
  | String a s' => lastIndexOfAt c s' (i + 1) (if Ascii.eqb a c then i else acc)
  end.

Definition lastIndexOf (s : string) (c : ascii) : Z := lastIndexOfAt c s 0 (-1).

(** [s.includes(c)] *)
Definition includes (s : string) (c : ascii) : bool := 0 <=? indexOf s c.

(** [s.slice(a, b)]: a negative index counts from the end, both are clamped
    to the string. *)
Definition sliceIndex (n i : Z) : Z :=
  if i <? 0 then Z.max (n + i) 0 else Z.min i n.

Definition slice (s : string) (a b : Z) : string :=
  let from := sliceIndex (len s) a in
  let to := sliceIndex (len s) b in
  String.substring (Z.to_nat from) (Z.to_nat (to - from)) s.

(** [s.slice(a)] *)
Definition sliceFrom (s : string) (a : Z) : string := slice s a (len s).

(** [s.substring(a, b)]: both indices are clamped to [0, length] and
    swapped when the first is the larger. *)
Definition substring (s : string) (a b : Z) : string :=
  let a' := Z.min (Z.max a 0) (len s) in
  let b' := Z.min (Z.max b 0) (len s) in
  String.substring (Z.to_nat (Z.min a' b')) (Z.to_nat (Z.max a' b' - Z.min a' b')) s.

(** [s.substring(a)] *)
Definition substringFrom (s : string) (a : Z) : string := substring s a (len s).

(** [s.indexOf(c, from)] *)
Definition indexOfFrom (s : string) (c : ascii) (from : Z) : Z :=
  let k := Z.min (Z.max from 0) (len s) in
  let r := indexOf (substringFrom s k) c in
  if r <? 0 then -1 else k + r.

(** White space of ASCII text: TAB, LF, VT, FF, CR and SP. *)
Definition isWhiteSpace (c : ascii) : bool :=
  let n := nat_of_ascii c in
  ((9 <=? n)%nat && (n <=? 13)%nat) || (n =? 32)%nat.

Fixpoint trimStart (s : string) : string :=
  match s with
  | EmptyString => EmptyString
  | String c s' => if isWhiteSpace c then trimStart s' else s
  end.

Fixpoint trimEnd (s : string) : string :=
  match s with
  | EmptyString => EmptyString
  | String c s' =>
      let t := trimEnd s' in
      if isWhiteSpace c && isEmpty t then EmptyString else String c t
  end.

(** [s.trim()] *)
Definition trim (s : string) : string := trimEnd (trimStart s).

Definition isDigit (c : ascii) : bool :=
  let n := nat_of_ascii c in (48 <=? n)%nat && (n <=? 57)%nat.

Definition isHexLetter (c : ascii) : bool :=
  let n := nat_of_ascii c in
  ((65 <=? n)%nat && (n <=? 70)%nat) || ((97 <=? n)%nat && (n <=? 102)%nat).

Definition digitValue (c : ascii) : Z := Z.of_nat (nat_of_ascii c) - 48.

(** The leading decimal digits of [s], read as a number; [None] when [s]
    does not start with a digit. *)
Fixpoint digitsPrefix (s : string) (acc : option Z) : option Z :=
  match s with
  | EmptyString => acc
  | String c s' =>
      if isDigit c
      then digitsPrefix s' (Some (10 * (match acc with Some v => v | None => 0 end)
                                  + digitValue c))
      else acc
  end.

(** [parseInt(s, 10)]: leading white space is skipped, then an optional sign
    and the longest run of decimal digits are read; [None] is NaN. *)
Definition parseInt (s : string) : option Z :=
  match trimStart s with
  | String "-"%char s' => option_map Z.opp (digitsPrefix s' None)
  | String "+"%char s' => digitsPrefix s' None
  | s' => digitsPrefix s' None
  end.

(** Upper case of an ASCII letter, as the [i] flag of a regular expression
    compares characters. *)
Definition upper (c : ascii) : ascii :=
  let n := nat_of_ascii c in
  if (97 <=? n)%nat && (n <=? 122)%nat then ascii_of_nat (n - 32) else c.

Fixpoint upperCase (s : string) : string :=
  match s with
  | EmptyString => EmptyString
  | String c s' => String (upper c) (upperCase s')
  end.

(** [s] has [p] as a substring. *)
Fixpoint contains (p s : string) : bool :=
  String.prefix p s ||
  match s with
  | EmptyString => false
  | String _ s' => contains p s'
  end.

(** [/p/i.test(s)] for a pattern [p] of letters and spaces. *)
Definition testI (p s : string) : bool := contains (upperCase p) (upperCase s).

Fixpoint all (f : ascii -> bool) (s : string) : bool :=
  match s with
  | EmptyString => true
  | String c s' => f c && all f s'
  end.

Example slice_ex : slice "example.com:443|GET" 0 15 = "example.com:443"%string.
Proof. reflexivity. Qed.

Example substring_swaps : substring "CONNECT:a:1" 8 (-1) = "CONNECT:"%string.
Proof. reflexivity. Qed.

Example indexOfFrom_ex : indexOfFrom "CONNECT:a|b" "|" 8 = 9.
Proof. reflexivity. Qed.

Example parseInt_ex : parseInt " 443x" = Some 443 /\ parseInt "" = None /\ parseInt "-0" = Some 0.
Proof. repeat split. Qed.

Example testI_ex : testI "cannot connect" "Error: Cannot CONNECT to peer" = true.
Proof. reflexivity. Qed.

End Js.

(* ===================================================================== *)
(** * Egress worker: [SessionPool], [Message], [TcpWsSession], [fetch]     *)
(* ===================================================================== *)

Module Egress.

Import Js.

(** A thrown value: [err.message] and [err.name]. *)
Record JsError := mkError { message : string; name : string }.

(** [new Error(msg)] *)
Definition Error (msg : string) : JsError := mkError msg "Error".

Inductive result (A : Type) :=
| Ok (a : A)
| Throw (e : JsError).
Arguments Ok {A} a.
Arguments Throw {A} e.

Definition bind {A B} (r : result A) (k : A -> result B) : result B :=
  match r with
  | Ok a => k a
  | Throw e => Throw e
  end.

Notation "'let*' x ':=' r 'in' k" := (bind r (fun x => k))
  (at level 10, x name, r at level 100, k at level 200).

(** What the guards of [_connectRemote] observe of a JavaScript number:
    an integer, or a value for which [Number.isInteger] is false (NaN, an
    infinity, a fraction). *)
Inductive number :=
| Integer (z : Z)
| NotInteger.

(** The [port] of a dial attempt: the number [Number(rawPort)] for the
    target and for a fallback without port, the text after the colon for a
    fallback that [parseAddress] split. *)
Inductive PortVal :=
| NumPort (p : Z)
| StrPort (s : string).

Record Attempt := mkAttempt { host : string; port : PortVal }.

(** The configuration fields the session reads. *)
Record Config := mkConfig {
  TOKEN : string;
  FALLBACK_IPS : list string;
  ALLOWED_HOSTS : list string;
  MAX_SESSIONS : Z
}.




(** The [data] of a WebSocket message event: a string, or binary data
    (ArrayBuffer, typed array or Blob) with its bytes. *)
Inductive WsData :=
| WsText (s : string)
| WsBinary (b : list Z).

Inductive MsgType := CONNECT | DATA | ERROR | PING | PONG | CLOSE | RAW.

(** A message payload: text, bytes or [null]. *)
Inductive Payload :=
| TextPayload (s : string)
| BytesPayload (b : list Z)
| Null.

Record Parsed := mkParsed { type : MsgType; payload : Payload }.

(** [Message.parse] *)
Definition parse (data : WsData) : Parsed :=
  match data with
  | WsText data =>
      if startsWith data "CONNECT:" then mkParsed CONNECT (TextPayload (sliceFrom data 8))
      else if startsWith data "DATA:" then mkParsed DATA (TextPayload (sliceFrom data 5))
      else if startsWith data "ERROR:" then mkParsed ERROR (TextPayload (sliceFrom data 6))
      else if String.eqb data "PING" then mkParsed PING Null
      else if String.eqb data "PONG" then mkParsed PONG Null
      else if String.eqb data "CLOSE" then mkParsed CLOSE Null
      else mkParsed RAW (TextPayload data)
  | WsBinary b => mkParsed DATA (BytesPayload b)
  end.

(** [parseAddress] of the egress worker: [(host, port)], the port as text. *)
Definition parseAddress (addr : string) : result (string * string) :=
  if isEmpty addr then Throw (Error "Invalid address")
  else
    let addr := trim addr in
    if startsWith addr "[" && includes addr "]" then
      let closeIdx := indexOf addr "]" in
      let host := slice addr 1 closeIdx in
      let rest := sliceFrom addr (closeIdx + 1) in
      let colonIdx := indexOf rest ":" in
      let port := if 0 <=? colonIdx then sliceFrom rest (colonIdx + 1) else ""%string in
      Ok (host, port)
    else
      let colonIndex := lastIndexOf addr ":" in
      if colonIndex <=? 0 then Throw (Error "Address must include port")
      else Ok (slice addr 0 colonIndex, sliceFrom addr (colonIndex + 1)).

(** The character class [[0-9.]]. *)
Definition isDotDigit (c : ascii) : bool := isDigit c || Ascii.eqb c ".".

(** The character class [[0-9a-fA-F:.]]. *)
Definition isAddrChar (c : ascii) : bool :=
  isDigit c || isHexLetter c || Ascii.eqb c ":" || Ascii.eqb c ".".

Definition dropOpen (s : string) : string :=
  match s with
  | String "["%char s' => s'
  | _ => s
  end.

Fixpoint dropClose (s : string) : string :=
  match s with
  | EmptyString => EmptyString
  | String "]"%char EmptyString => EmptyString
  | String c s' => String c (dropClose s')
  end.

(** [isIpAddress]: the host is not empty and matches [/^[0-9.]+$/] or
    [/^\[?[0-9a-fA-F:.]+\]?$/]. *)
Definition isIpAddress (host : string) : bool :=
  if isEmpty host then false
  else if all isDotDigit host then true
  else
    let body := dropClose (dropOpen host) in
    negb (isEmpty body) && all isAddrChar body.

Definition CF_ERROR_PATTERNS : list string :=
  ["proxy request"; "cannot connect"; "cloudflare"]%string.

(** [isCFError] *)
Definition isCFError (err : JsError) : bool :=
  existsb (fun pattern => testI pattern (message err)) CF_ERROR_PATTERNS.

(** [_fallbackAttempts]: [Array.map] stops at the first item whose
    [parseAddress] throws. *)
Fixpoint fallbackAttempts (items : list string) (defaultPort : Z)
  : result (list Attempt) :=
  match items with
  | [] => Ok []
  | item :: rest =>
      let* a := (if includes item ":"
                 then let* hp := parseAddress item in
                      Ok (mkAttempt (fst hp) (StrPort (snd hp)))
                 else Ok (mkAttempt item (NumPort defaultPort))) in
      let* others := fallbackAttempts rest defaultPort in
      Ok (a :: others)
  end.

(** What the session does to its WebSocket, its upstream socket and the
    pool, in order.  The WebSocket is open and the upstream takes what is
    written to it: [ws.send] and [writer.write] return without throwing. *)
Inductive Event :=
| Connect (a : Attempt)
| RemoteWrite (data : Payload)
| RemoteClose
| WsSend (text : string)
| WsSendError (e : JsError)
| WsClose
| Release.

(** The outcome of one dial: the socket opened, or the attempt failed (the
    rejection of [socket.opened], or ["connect timeout"]). *)
Inductive Outcome :=
| Opened
| Failed (e : JsError).

(** [TcpWsSession]: the [closed] latch and the upstream connection
    ([remote] is [null] until a dial succeeds). *)
Record Session := mkSession { closed : bool; remote : option Attempt }.

(** A session as its constructor leaves it: no CONNECT handled yet. *)
Definition INIT : Session := mkSession false None.

(** [_closeRemote]: closes the upstream when there is one and sets
    [this.remote] to [null]. *)
Definition closeRemote (remote : option Attempt) : list Event :=
  match remote with
  | Some _ => [RemoteClose]
  | None => []
  end.

(** [_dispose]: a no-op once [closed]; otherwise sets the latch, closes the
    upstream, closes the WebSocket and releases the pool slot. *)
Definition dispose (s : Session) : Session * list Event :=
  if closed s then (s, [])
  else (mkSession true None, closeRemote (remote s) ++ [WsClose; Release]).

(** [sendError(ws, err)]: sends the text frame
    ["ERROR:" + JSON.stringify({msg, name})]. *)
Definition sendError (e : JsError) : Event := WsSendError e.

(** A payload is written when it is truthy: not [null] and not [""]. *)
Definition truthy (p : Payload) : bool :=
  match p with
  | TextPayload s => negb (isEmpty s)
  | BytesPayload _ => true
  | Null => false
  end.

Section Session.

(** [Number(rawPort)] and the dial [connect({hostname, port})] raced
    against the connect timeout. *)
Variable Number : string -> number.
Variable dial : Attempt -> Outcome.

(** What [_connectRemote] leaves behind: its events in order, the value of
    [this.remote] and the error it threw, if any. *)
Record Connected := mkConnected {
  events : list Event;
  remoteAfter : option Attempt;
  thrown : option JsError
}.

(** The loop [for (let i = 0; i < attempts.length; i++)] of
    [_connectRemote], entered with [this.remote = remote]. *)
Fixpoint tryAttempts (remote : option Attempt) (attempts : list Attempt)
    (firstPayload : Payload) : Connected :=
  match attempts with
  | [] => mkConnected [] remote None
  | a :: rest =>
      match dial a with
      | Opened =>
          mkConnected
            (Connect a
               :: (if truthy firstPayload then [RemoteWrite firstPayload] else [])
               ++ [WsSend "CONNECTED"])
            (Some a) None
      | Failed e =>
          if negb (isCFError e) || Nat.eqb (length rest) 0
          then mkConnected (Connect a :: closeRemote remote) None (Some e)
          else
            let r := tryAttempts None rest firstPayload in
            mkConnected (Connect a :: closeRemote remote ++ events r)
                        (remoteAfter r) (thrown r)
      end
  end.

(** The attempt list of [_connectRemote]. *)
Definition buildAttempts (cfg : Config) (rawHost : string) (port : Z)
  : result (list Attempt) :=
  if isIpAddress rawHost then Ok [mkAttempt rawHost (NumPort port)]
  else
    let* fallbacks := fallbackAttempts (FALLBACK_IPS cfg) port in
    Ok (mkAttempt rawHost (NumPort port) :: fallbacks).

(** The guards of [_connectRemote] before the attempt list is built. *)
Definition checkTarget (cfg : Config) (target : string) : result (string * Z) :=
  let* hp := parseAddress target in
  let rawHost := fst hp in
  let rawPort := snd hp in
  match Number rawPort with
  | Integer port =>
      if (port <=? 0) || (65535 <? port)
      then Throw (Error ("Invalid port: " ++ rawPort))
      else if negb (Nat.eqb (length (ALLOWED_HOSTS cfg)) 0)
              && negb (existsb (String.eqb rawHost) (ALLOWED_HOSTS cfg))
      then Throw (Error ("Host " ++ rawHost ++ " is not allowed"))
      else Ok (rawHost, port)
  | NotInteger => Throw (Error ("Invalid port: " ++ rawPort))
  end.

(** [_connectRemote(target, firstPayload)], entered with
    [this.remote = remote]. *)
Definition connectRemote (cfg : Config) (remote : option Attempt)
    (target : string) (firstPayload : Payload) : Connected :=
  match checkTarget cfg target with
  | Throw e => mkConnected [] remote (Some e)
  | Ok (rawHost, port) =>
      match buildAttempts cfg rawHost port with
      | Throw e => mkConnected [] remote (Some e)
      | Ok attempts => tryAttempts remote attempts firstPayload
      end
  end.

(** The [CONNECT] case of [_onWsMessage]: the target and the first payload
    cut out of the frame's payload. *)
Definition connectTarget (payload : string) : string :=
  let sepIndex := indexOf payload "|" in
  if 0 <=? sepIndex then slice payload 0 sepIndex else payload.

Definition connectFirstPayload (payload : string) : Payload :=
  let sepIndex := indexOf payload "|" in
  if 0 <=? sepIndex then TextPayload (sliceFrom payload (sepIndex + 1)) else Null.

(** [_onWsMessage]: the session after the message and what it did.  An
    exception of the [switch] is reported with [sendError] and disposes the
    session. *)
Definition onWsMessage (cfg : Config) (s : Session) (data : WsData)
  : Session * list Event :=
  if closed s then (s, [])
  else
    let parsed := parse data in
    match type parsed with
    | PING => (s, [WsSend "PONG"])
    | PONG => (s, [])
    | CLOSE => dispose s
    | CONNECT =>
        let text := match payload parsed with TextPayload t => t | _ => ""%string end in
        let r := connectRemote cfg (remote s) (connectTarget text)
                               (connectFirstPayload text) in
        match thrown r with
        | None => (mkSession (closed s) (remoteAfter r), events r)
        | Some e =>
            let (s', evs) := dispose (mkSession (closed s) (remoteAfter r)) in
            (s', events r ++ sendError e :: evs)
        end
    | DATA =>
        match remote s with
        | Some _ => (s, [RemoteWrite (payload parsed)])
        | None => (s, [])
        end
    | ERROR => (s, [])
    | RAW => (s, [])
    end.

End Session.

(** ** The upgrade handler and the session pool *)

(** What [fetch] reads of a request: whether the [Upgrade] header is
    "websocket", the path, and the protocols offered in
    [Sec-WebSocket-Protocol]. *)
Record Request := mkRequest {
  upgrade : bool;
  pathname : string;
  clientProtocols : list string
}.













Example parseAddress_ex :
  parseAddress "example.com:443" = Ok ("example.com", "443")%string /\
  parseAddress " [2001:db8::1]:8080 " = Ok ("2001:db8::1", "8080")%string /\
  parseAddress "example.com" = Throw (Error "Address must include port").
Proof. repeat split. Qed.

Example isIpAddress_ex :
  isIpAddress "1.2.3.4" = true /\ isIpAddress "2001:db8::1" = true /\
  isIpAddress "example.com" = false /\ isIpAddress "" = false.
Proof. repeat split. Qed.

Example isCFError_ex :
  isCFError (Error "Proxy Request failed") = true /\
  isCFError (Error "connect timeout") = false.
Proof. repeat split. Qed.

Example parse_ex :
  parse (WsText "CONNECT:example.com:443|GET") =
    mkParsed CONNECT (TextPayload "example.com:443|GET") /\
  parse (WsText "CLOSED") = mkParsed RAW (TextPayload "CLOSED") /\
  parse (WsBinary [1; 2]) = mkParsed DATA (BytesPayload [1; 2]).
Proof. repeat split. Qed.

(** ** Sample environment for the concrete runs below *)

(** [Number] on the port texts of the runs below, which are runs of
    decimal digits or empty: the digits' value, and 0 for the empty string. *)
Definition decimalNumber (s : string) : number :=
  if isEmpty s then Integer 0
  else if all isDigit s
       then match digitsPrefix s None with
            | Some v => Integer v
            | None => NotInteger
            end
       else NotInteger.

(** Every dial is refused with a transient Cloudflare error. *)
Definition refuse (a : Attempt) : Outcome :=
  Failed (mkError "proxy request failed: cannot connect to the specified address" "Error").

(** Only the fallback 1.2.3.4 accepts connections. *)
Definition onlyFallback (a : Attempt) : Outcome :=
  if String.eqb (host a) "1.2.3.4" then Opened else refuse a.

Definition sampleConfig : Config :=
  mkConfig "" ["1.2.3.4:21415"; "proxy.example.net"]%string [] 100.

(** ** Claim C2 *)

(** C2, as stated, fails: in the INIT state a binary frame and a DATA: text
    frame are both discarded; the session sends nothing (no ERROR frame) and
    stays open in the INIT state. *)
Lemma init_data_silently_discarded :
  onWsMessage decimalNumber refuse sampleConfig INIT (WsBinary [22; 3; 1]) = (INIT, []) /\
  onWsMessage decimalNumber refuse sampleConfig INIT (WsText "DATA:hello") = (INIT, []).
Proof. split; reflexivity. Qed.

(** C2 (amended): in the INIT state a frame other than CONNECT never makes
    the session send ERROR.  A binary frame, a DATA: text frame, PONG, an
    ERROR: frame and any unrecognised text are discarded, the session staying
    open and unchanged; PING is answered with PONG; CLOSE disposes the session
    (WebSocket closed, pool slot released) without an ERROR frame. *)
Theorem init_non_connect_frames
    (Number : string -> number) (dial : Attempt -> Outcome)
    (cfg : Config) (data : WsData) :
  type (parse data) <> CONNECT ->
  (forall e, WsSendError e ∉ snd (onWsMessage Number dial cfg INIT data)) /\
  onWsMessage Number dial cfg INIT data =
    match type (parse data) with
    | PING => (INIT, [WsSend "PONG"])
    | CLOSE => (mkSession true None, [WsClose; Release])
    | _ => (INIT, [])
    end.
Proof.
  intros Hty.
  assert (Heq : onWsMessage Number dial cfg INIT data =
    match type (parse data) with
    | PING => (INIT, [WsSend "PONG"])
    | CLOSE => (mkSession true None, [WsClose; Release])
    | _ => (INIT, [])
    end).
  { unfold onWsMessage. simpl. destruct (type (parse data)); try reflexivity; congruence. }
  split; [|exact Heq].
  intros e. rewrite Heq.
  destruct (type (parse data)); simpl; intros Hin;
    repeat (apply elem_of_cons in Hin as [Hin|Hin]; [discriminate|]);
    inversion Hin.
Qed.

Lemma init_non_connect_frames_witness :
  type (parse (WsBinary [22; 3; 1])) <> CONNECT /\
  onWsMessage decimalNumber refuse sampleConfig INIT (WsBinary [22; 3; 1]) = (INIT, []).
Proof.
  assert (H : type (parse (WsBinary [22; 3; 1])) <> CONNECT) by discriminate.
  split; [exact H|].
  exact (proj2 (init_non_connect_frames decimalNumber refuse sampleConfig
                  (WsBinary [22; 3; 1]) H)).
Defined.

(** ** Claim C3 *)

(** How [_fallbackAttempts] turns one configured item into an attempt: an
    item without a colon dials the item itself on the target's port; an item
    with a colon is split by [parseAddress] and keeps the port text found
    there. *)
Definition itemAttempt (defaultPort : Z) (item : string) (a : Attempt) : Prop :=
  if includes item ":"
  then exists h p, parseAddress item = Ok (h, p) /\ a = mkAttempt h (StrPort p)
  else a = mkAttempt item (NumPort defaultPort).

(** The dial failed with a transient Cloudflare-like error. *)
Definition transient (dial : Attempt -> Outcome) (a : Attempt) : Prop :=
  exists e, dial a = Failed e /\ isCFError e = true.

Lemma fallbackAttempts_items items defaultPort fallbacks :
  fallbackAttempts items defaultPort = Ok fallbacks ->
  Forall2 (itemAttempt defaultPort) items fallbacks.
Proof.
  revert fallbacks. induction items as [|item rest IH]; simpl; intros fallbacks H.
  - injection H as <-. constructor.
  - unfold itemAttempt at 1.
    destruct (includes item ":") eqn:Hc; simpl in H.
    + destruct (parseAddress item) as [[h p]|e] eqn:Hp; simpl in H; [|discriminate].
      destruct (fallbackAttempts rest defaultPort) as [others|e]; simpl in H; [|discriminate].
      injection H as <-. constructor; [|now apply IH].
      unfold itemAttempt. rewrite Hc. eauto.
    + destruct (fallbackAttempts rest defaultPort) as [others|e]; simpl in H; [|discriminate].
      injection H as <-. constructor; [|now apply IH].
      unfold itemAttempt. now rewrite Hc.
Qed.

Lemma tryAttempts_cascade (dial : Attempt -> Outcome) firstPayload pre a post :
  Forall (transient dial) pre ->
  (dial a = Opened ->
   tryAttempts dial None (pre ++ a :: post) firstPayload =
     mkConnected
       (map Connect pre ++ Connect a
          :: (if truthy firstPayload then [RemoteWrite firstPayload] else [])
          ++ [WsSend "CONNECTED"])
       (Some a) None) /\
  (forall e, dial a = Failed e -> isCFError e = false \/ post = [] ->
   tryAttempts dial None (pre ++ a :: post) firstPayload =
     mkConnected (map Connect pre ++ [Connect a]) None (Some e)).
Proof.
  induction 1 as [|b pre (eb & Hb & Hcf) Hpre [IHo IHf]]; simpl.
  - split.
    + intros ->. reflexivity.
    + intros e -> Hstop.
      destruct Hstop as [->| ->]; simpl; [reflexivity|].
      now rewrite orb_true_r.
  - rewrite Hb, Hcf. simpl.
    assert (Hlen : Nat.eqb (length (pre ++ a :: post)) 0 = false).
    { apply Nat.eqb_neq. rewrite length_app. simpl. lia. }
    rewrite Hlen. split.
    + intros Ho. now rewrite (IHo Ho).
    + intros e He Hstop. now rewrite (IHf e He Hstop).
Qed.

(** A host that is neither made of digits and dots only (as an IPv4 literal
    is) nor holds a colon (as every IPv6 literal does) is not an IP literal. *)
Definition notIpLiteral (host : string) : bool :=
  negb (all isDotDigit host) && negb (includes host ":").

Definition cascadeConfig : Config :=
  mkConfig "" ["1.2.3.4"; "[2001:db8::1]"]%string [] 100.

(** C3 at its failing inputs.  The host cafe.de is a DNS name, not an IP
    literal, yet [isIpAddress] takes it for an address, so that the attempt
    list is the target alone: after a transient failure of its dial the
    configured fallbacks are not tried and the session reports the error and
    closes.  And the fallback [[2001:db8::1]], configured without a port,
    does not inherit the target's port 443: its port is the empty text. *)
Theorem connect_attempts_not_as_stated :
  notIpLiteral "cafe.de" = true /\
  isIpAddress "cafe.de" = true /\
  onWsMessage decimalNumber refuse cascadeConfig INIT (WsText "CONNECT:cafe.de:443|") =
    (mkSession true None,
     [Connect (mkAttempt "cafe.de" (NumPort 443));
      WsSendError (mkError "proxy request failed: cannot connect to the specified address" "Error");
      WsClose; Release]) /\
  buildAttempts cascadeConfig "example.com" 443 =
    Ok [mkAttempt "example.com" (NumPort 443);
        mkAttempt "1.2.3.4" (NumPort 443);
        mkAttempt "2001:db8::1" (StrPort "")].
Proof. repeat split. Qed.

(** The cascade of [_connectRemote], given what [isIpAddress] and
    [isCFError] answer: on a CONNECT frame whose target passed the port and
    allow-list checks, the attempt list is the target alone when
    [isIpAddress] accepts the host, and the target followed by the configured
    fallbacks otherwise, where a fallback item without a colon gets the
    target's port and an item with a colon is split by [parseAddress] and
    keeps its own port text; if an item cannot be split the session reports
    the error and closes without dialling.  The attempts are dialled in order;
    the session moves on to the next attempt only after a failure that
    [isCFError] accepts; the first dial that opens connects the session (first
    payload, then CONNECTED); on any other failure, or when the last attempt
    fails, it sends ERROR with that failure and closes. *)
Lemma connect_fallback_cascade
    (Number : string -> number) (dial : Attempt -> Outcome) (cfg : Config)
    (data : WsData) (text rawHost : string) (port : Z) :
  parse data = mkParsed CONNECT (TextPayload text) ->
  checkTarget Number cfg (connectTarget text) = Ok (rawHost, port) ->
  let target := mkAttempt rawHost (NumPort port) in
  let firstPayload := connectFirstPayload text in
  (isIpAddress rawHost = true -> buildAttempts cfg rawHost port = Ok [target]) /\
  (isIpAddress rawHost = false ->
     forall fallbacks, fallbackAttempts (FALLBACK_IPS cfg) port = Ok fallbacks ->
       buildAttempts cfg rawHost port = Ok (target :: fallbacks) /\
       Forall2 (itemAttempt port) (FALLBACK_IPS cfg) fallbacks) /\
  (forall e, buildAttempts cfg rawHost port = Throw e ->
     onWsMessage Number dial cfg INIT data =
       (mkSession true None, [WsSendError e; WsClose; Release])) /\
  (forall pre a post,
     buildAttempts cfg rawHost port = Ok (pre ++ a :: post) ->
     Forall (transient dial) pre ->
     (dial a = Opened ->
      onWsMessage Number dial cfg INIT data =
        (mkSession false (Some a),
         map Connect pre ++ Connect a
           :: (if truthy firstPayload then [RemoteWrite firstPayload] else [])
           ++ [WsSend "CONNECTED"])) /\
     (forall e, dial a = Failed e -> isCFError e = false \/ post = [] ->
      onWsMessage Number dial cfg INIT data =
        (mkSession true None,
         map Connect pre ++ [Connect a; WsSendError e; WsClose; Release]))).
Proof.
  intros Hparse Hcheck target firstPayload.
  assert (Hon : onWsMessage Number dial cfg INIT data =
    let r := connectRemote Number dial cfg None (connectTarget text) firstPayload in
    match thrown r with
    | None => (mkSession false (remoteAfter r), events r)
    | Some e =>
        (mkSession true None,
         events r ++ WsSendError e :: closeRemote (remoteAfter r) ++ [WsClose; Release])
    end).
  { unfold onWsMessage. rewrite Hparse. simpl.
    destruct (thrown _); reflexivity. }
  unfold connectRemote in Hon. rewrite Hcheck in Hon.
  split; [|split; [|split]].
  - intros Hip. unfold buildAttempts. now rewrite Hip.
  - intros Hip fallbacks Hfb. split.
    + unfold buildAttempts. rewrite Hip. now rewrite Hfb.
    + now apply fallbackAttempts_items.
  - intros e He. rewrite Hon, He. reflexivity.
  - intros pre a post Hlist Hpre.
    destruct (tryAttempts_cascade dial firstPayload pre a post Hpre) as [Hopen Hfail].
    split.
    + intros Ho. rewrite Hon, Hlist, (Hopen Ho). reflexivity.
    + intros e He Hstop. rewrite Hon, Hlist, (Hfail e He Hstop). simpl.
      now rewrite <- app_assoc.
Qed.

Lemma connect_fallback_cascade_witness :
  parse (WsText "CONNECT:cloudflare.com:443|") = mkParsed CONNECT (TextPayload "cloudflare.com:443|") /\
  checkTarget decimalNumber sampleConfig (connectTarget "cloudflare.com:443|")
    = Ok ("cloudflare.com"%string, 443) /\
  onWsMessage decimalNumber onlyFallback sampleConfig INIT (WsText "CONNECT:cloudflare.com:443|") =
    (mkSession false (Some (mkAttempt "1.2.3.4" (StrPort "21415"))),
     [Connect (mkAttempt "cloudflare.com" (NumPort 443));
      Connect (mkAttempt "1.2.3.4" (StrPort "21415"));
      WsSend "CONNECTED"]).
Proof.
  split; [reflexivity|]. split; [reflexivity|].
  destruct (connect_fallback_cascade decimalNumber onlyFallback sampleConfig
              (WsText "CONNECT:cloudflare.com:443|") "cloudflare.com:443|"
              "cloudflare.com" 443 eq_refl eq_refl) as (_ & _ & _ & Hrun).
  destruct (Hrun [mkAttempt "cloudflare.com" (NumPort 443)]
                 (mkAttempt "1.2.3.4" (StrPort "21415"))
                 [mkAttempt "proxy.example.net" (NumPort 443)] eq_refl) as [Hopen _].
  - constructor; [|constructor]. eexists. split; reflexivity.
  - exact (Hopen eq_refl).
Defined.

(** ** Claims C4 and C5 on [TcpWsSession] *)

(** [_connectRemote] refuses a port outside 1..65535 before any dial: the
    session sends ERROR "Invalid port" and closes. *)
Lemma connect_invalid_port_rejected
    (Number : string -> number) (dial : Attempt -> Outcome) (cfg : Config)
    (data : WsData) (text rawHost rawPort : string) :
  parse data = mkParsed CONNECT (TextPayload text) ->
  parseAddress (connectTarget text) = Ok (rawHost, rawPort) ->
  (forall p, Number rawPort = Integer p -> p <= 0 \/ 65535 < p) ->
  onWsMessage Number dial cfg INIT data =
    (mkSession true None,
     [WsSendError (Error ("Invalid port: " ++ rawPort)); WsClose; Release]).
Proof.
  intros Hparse Haddr Hport.
  unfold onWsMessage. rewrite Hparse. simpl.
  unfold connectRemote, checkTarget. rewrite Haddr. simpl.
  destruct (Number rawPort) as [p|] eqn:Hn; [|reflexivity].
  destruct (Hport p eq_refl) as [Hlo|Hhi].
  - destruct (Z.leb_spec p 0); [reflexivity|lia].
  - destruct (Z.ltb_spec 65535 p); [|lia]. now rewrite orb_true_r.
Qed.

Lemma indexOfAt_absent c s i :
  0 <= i -> indexOfAt c s i < 0 -> indexOfAt c s i = -1.
Proof.
  revert i. induction s as [|a s IH]; simpl; intros i Hi H; [reflexivity|].
  destruct (Ascii.eqb a c); [lia|]. apply IH; lia.
Qed.

(** A CONNECT payload without a separator is the target as a whole, and
    the first payload is [null]: nothing is written upstream before
    CONNECTED. *)
Lemma connect_without_separator (payload : string) :
  includes payload "|" = false ->
  connectTarget payload = payload /\ connectFirstPayload payload = Null /\
  truthy (connectFirstPayload payload) = false.
Proof.
  unfold includes, connectTarget, connectFirstPayload. intros H.
  rewrite H. repeat split.
Qed.

(** ** Claim C9 *)











End Egress.

(* ===================================================================== *)
(** * Egress worker, variant [src/worker.js]: [ProxySession]              *)
(* ===================================================================== *)

Module Worker.

Import Js.

(** [parseInt(..., 10) || 443]: NaN and 0 are falsy. *)
Definition portOr443 (text : string) : Z :=
  match parseInt text with
  | Some 0 => 443
  | Some p => p
  | None => 443
  end.

(** [parseAddress] of [worker.js]: [None] is a thrown error. *)
Definition parseAddress (addr : string) : option (string * Z) :=
  match addr with
  | String "["%char _ =>
      let end_ := indexOf addr "]" in
      if end_ =? -1 then None
      else Some (substring addr 1 end_, portOr443 (substringFrom addr (end_ + 2)))
  | _ =>
      let sep := lastIndexOf addr ":" in
      if sep =? -1 then None
      else Some (substring addr 0 sep, portOr443 (substringFrom addr (sep + 1)))
  end.

(** The first call [connect({hostname, port})] of [connectToRemote], and
    the first frame it is to write. *)
Record Dial := mkDial { hostname : string; port : Z; firstFrame : string }.

(** [handleMessage] on a text frame that starts with "CONNECT:": the target
    and first frame cut out of the frame, then [connectToRemote] up to its first
    attempt (the [null] entry of [attempts], which dials the parsed target).
    [None] is the error path [_handleError]. *)
Definition handleConnect (data : string) : option Dial :=
  let cmdEnd := 8 in
  let sepIndex := indexOfFrom data "|" cmdEnd in
  let targetAddr := substring data cmdEnd sepIndex in
  let firstFrame := substringFrom data (sepIndex + 1) in
  match parseAddress targetAddr with
  | Some (host, port) => Some (mkDial host port firstFrame)
  | None => None
  end.

Example handleConnect_ex :
  handleConnect "CONNECT:example.com:8443|hello"
  = Some (mkDial "example.com" 8443 "hello").
Proof. reflexivity. Qed.

(** ** Claim C4 *)

(** C4 at its failing inputs: [worker.js] takes the CONNECT target
    example.com:0 to port 443, its default, and dials it; the port 65536 is
    passed on to [connect] unchecked.  Neither frame is rejected by a port
    check. *)
Theorem port_zero_dials_default :
  startsWith "CONNECT:example.com:0|" "CONNECT:" = true /\
  handleConnect "CONNECT:example.com:0|" = Some (mkDial "example.com" 443 "") /\
  handleConnect "CONNECT:example.com:65536|" = Some (mkDial "example.com" 65536 "").
Proof. repeat split. Qed.

(** ** Claim C5 *)

(** C5 at its failing input: for the frame CONNECT:example.com:443, which
    has no separator, [worker.js] takes "CONNECT:" for the target, so that it
    dials the host CONNECT on port 443, and takes the frame as a whole for the
    first frame to write upstream. *)
Theorem connect_without_separator_misparsed :
  startsWith "CONNECT:example.com:443" "CONNECT:" = true /\
  indexOfFrom "CONNECT:example.com:443" "|" 8 = -1 /\
  handleConnect "CONNECT:example.com:443"
  = Some (mkDial "CONNECT" 443 "CONNECT:example.com:443").
Proof. repeat split. Qed.

End Worker.

(* ===================================================================== *)
(** * Ingress: the SOCKS5 UDP relay                                       *)
(* ===================================================================== *)

Module UdpRelay.

(** [data[i]]; every index the relay reads is below [n]. *)
Definition byteAt (data : list Z) (i : Z) : Z := nth (Z.to_nat i) data 0.

(** [data[a:b]] *)
Definition sub (data : list Z) (a b : Z) : list Z :=
  take (Z.to_nat (b - a)) (drop (Z.to_nat a) data).

(** [int(data[i])<<8 | int(data[i+1])] *)
Definition portAt (data : list Z) (i : Z) : Z :=
  Z.lor (Z.shiftl (byteAt data i) 8) (byteAt data (i + 1)).

(** What [handleUDPRelay] does with one datagram: it goes on to the next one
    without a word; it logs the destination as not supported and goes on; or it
    starts [handleDNSQuery] with the payload and the header bytes. *)
Inductive Action :=
| Drop
| Unsupported (atyp : Z) (dst : list Z) (dstPort : Z)
| DNSQuery (udpData socks5Header : list Z).

(** The end of the loop body, once [dstPort] and [headerLen] are known. *)
Definition dispatch (data : list Z) (atyp : Z) (dst : list Z)
    (dstPort headerLen : Z) : Action :=
  if dstPort =? 53
  then DNSQuery (drop (Z.to_nat headerLen) data) (take (Z.to_nat headerLen) data)
  else Unsupported atyp dst dstPort.

(** The body of the loop of [handleUDPRelay] for the [n] bytes [data] that
    [ReadFromUDP] stored. *)
Definition relayDatagram (data : list Z) : Action :=
  let n := Z.of_nat (length data) in
  if n <? 10 then Drop
  else if negb (byteAt data 2 =? 0) then Drop
  else
    let atyp := byteAt data 3 in
    if atyp =? 1 then
      if n <? 10 then Drop
      else dispatch data atyp (sub data 4 8) (portAt data 8) 10
    else if atyp =? 3 then
      if n <? 5 then Drop
      else
        let domainLen := byteAt data 4 in
        if n <? 7 + domainLen then Drop
        else dispatch data atyp (sub data 5 (5 + domainLen))
                      (portAt data (5 + domainLen)) (7 + domainLen)
    else if atyp =? 4 then
      if n <? 22 then Drop
      else dispatch data atyp (sub data 4 20) (portAt data 20) 22
    else Drop.

(** [handleDNSQuery]: the datagram written back to the client, if any.
    [queryDoHForProxy] answers [None] for an error. *)
Definition handleDNSQuery (isRunning : bool)
    (queryDoHForProxy : list Z -> option (list Z))
    (dnsQuery socks5Header : list Z) : option (list Z) :=
  if negb isRunning then None
  else
    match queryDoHForProxy dnsQuery with
    | None => None
    | Some dnsResponse => Some (socks5Header ++ dnsResponse)
    end.

(** [udpData] and [data[:headerLen]] are slices of [buf], the one buffer
    that the loop reads every datagram into, and [handleDNSQuery] runs as a
    goroutine while the loop goes on.  [overwrite region later] is what the
    bytes [buf[:n]] of a datagram have become once the datagram [later] has
    been read into [buf]. *)
Definition overwrite (region later : list Z) : list Z :=
  take (length region) (later ++ drop (length later) region).

(** One datagram through the relay: the reply sent to the client, if any.
    The datagrams [early] are read into the buffer before the goroutine sends
    the DoH query, the datagrams [late] between the query and the reply. *)
Definition relay (isRunning : bool) (queryDoHForProxy : list Z -> option (list Z))
    (data : list Z) (early late : list (list Z)) : option (list Z) :=
  match relayDatagram data with
  | DNSQuery udpData socks5Header =>
      let headerLen := length socks5Header in
      let atQuery := fold_left overwrite early data in
      let atReply := fold_left overwrite late atQuery in
      handleDNSQuery isRunning queryDoHForProxy
        (drop headerLen atQuery) (take headerLen atReply)
  | _ => None
  end.

(** ** The SOCKS5 UDP request of RFC 1928, as the spec names it *)

(** [RSV(2) FRAG(1) ATYP(1) DST.ADDR DST.PORT(2) DATA]: the fields of a
    request. *)
Record Request := mkRequest {
  rsv : Z * Z;
  frag : Z;
  atyp : Z;
  dstAddr : list Z;
  dstPort : Z * Z;
  payload : list Z
}.

(** The address field: four bytes for ATYP 1, a length byte and the name for
    ATYP 3, sixteen bytes for ATYP 4. *)
Definition addrField (r : Request) : list Z :=
  if atyp r =? 3 then Z.of_nat (length (dstAddr r)) :: dstAddr r else dstAddr r.

Definition header (r : Request) : list Z :=
  [fst (rsv r); snd (rsv r); frag r; atyp r] ++ addrField r
    ++ [fst (dstPort r); snd (dstPort r)].

Definition encode (r : Request) : list Z := header r ++ payload r.

Definition isByte (b : Z) : Prop := 0 <= b < 256.

(** The request conforms to the header layout. *)
Definition wellFormed (r : Request) : Prop :=
  isByte (frag r) /\ isByte (fst (dstPort r)) /\ isByte (snd (dstPort r)) /\
  ((atyp r = 1 /\ length (dstAddr r) = 4%nat) \/
   (atyp r = 3 /\ (length (dstAddr r) < 256)%nat) \/
   (atyp r = 4 /\ length (dstAddr r) = 16%nat)).

Definition port (r : Request) : Z := 256 * fst (dstPort r) + snd (dstPort r).

Example relay_dns :
  relayDatagram [0; 0; 0; 1; 8; 8; 8; 8; 0; 53; 171; 205; 1; 0]
  = DNSQuery [171; 205; 1; 0] [0; 0; 0; 1; 8; 8; 8; 8; 0; 53].
Proof. reflexivity. Qed.

Example relay_other_port :
  relayDatagram [0; 0; 0; 1; 8; 8; 8; 8; 1; 187; 171; 205]
  = Unsupported 1 [8; 8; 8; 8] 443.
Proof. reflexivity. Qed.

(** ** Claim C7 *)

Lemma byteAt_app (pre rest : list Z) (x : Z) (i : Z) :
  i = Z.of_nat (length pre) -> byteAt (pre ++ x :: rest) i = x.
Proof.
  intros ->. unfold byteAt. rewrite Nat2Z.id.
  rewrite app_nth2 by lia. now rewrite Nat.sub_diag.
Qed.

Lemma sub_app (pre mid rest : list Z) (a b : Z) :
  a = Z.of_nat (length pre) -> b = a + Z.of_nat (length mid) ->
  sub (pre ++ mid ++ rest) a b = mid.
Proof.
  intros -> ->. unfold sub. rewrite Nat2Z.id.
  replace (Z.to_nat (_ + _ - _)) with (length mid) by lia.
  rewrite drop_app_length. apply take_app_length.
Qed.

Lemma lor_port (hi lo : Z) :
  0 <= lo < 256 -> Z.lor (Z.shiftl hi 8) lo = 256 * hi + lo.
Proof.
  intros Hlo. rewrite Z.shiftl_mul_pow2 by lia.
  change (2 ^ 8) with 256. rewrite (Z.mul_comm hi).
  rewrite <- (Z.add_0_r (Z.lor _ _)).
  replace 0 with (Z.land (256 * hi) lo) at 1; [apply Z.add_lor_land|].
  apply Z.bits_inj'. intros n Hn. rewrite Z.land_spec, Z.bits_0.
  destruct (Z_lt_dec n 8) as [Hlt|Hge].
  - change 256 with (2 ^ 8). rewrite (Z.mul_comm (2 ^ 8)).
    rewrite Z.mul_pow2_bits_low by lia. reflexivity.
  - destruct (Z.eq_dec lo 0) as [->|Hne]; [now rewrite Z.bits_0, andb_false_r|].
    rewrite (Z.bits_above_log2 lo n); [apply andb_false_r|lia|].
    assert (Z.log2 lo < 8) by (apply Z.log2_lt_pow2; lia). lia.
Qed.

Lemma portAt_app (pre rest : list Z) (hi lo : Z) (i : Z) :
  i = Z.of_nat (length pre) -> 0 <= lo < 256 ->
  portAt (pre ++ hi :: lo :: rest) i = 256 * hi + lo.
Proof.
  intros Hi Hlo. unfold portAt.
  rewrite (byteAt_app pre (lo :: rest) hi i Hi).
  replace (pre ++ hi :: lo :: rest) with ((pre ++ [hi]) ++ lo :: rest)
    by now rewrite <- app_assoc.
  rewrite (byteAt_app (pre ++ [hi]) rest lo)
    by (rewrite length_app; simpl; lia).
  now apply lor_port.
Qed.

(** The relay on a datagram laid out with a fixed-size address (ATYP 1 with
    four bytes, ATYP 4 with sixteen). *)
Lemma relay_layout_fixed (r1 r2 t : Z) (a : list Z) (hi lo : Z) (p : list Z) :
  (t = 1 /\ length a = 4%nat) \/ (t = 4 /\ length a = 16%nat) ->
  0 <= lo < 256 ->
  relayDatagram (([r1; r2; 0; t] ++ (if t =? 3 then Z.of_nat (length a) :: a else a)
                    ++ [hi; lo]) ++ p) =
    (if 256 * hi + lo =? 53
     then DNSQuery p ([r1; r2; 0; t] ++ (if t =? 3 then Z.of_nat (length a) :: a else a)
                        ++ [hi; lo])
     else Unsupported t a (256 * hi + lo)).
Proof.
  intros Ht Hlo.
  assert (Hne : (t =? 3) = false) by (destruct Ht as [[-> _]|[-> _]]; reflexivity).
  rewrite Hne.
  set (hdr := [r1; r2; 0; t] ++ a ++ [hi; lo]).
  set (data := hdr ++ p).
  assert (Hhdr : Z.of_nat (length hdr) = 6 + Z.of_nat (length a)).
  { unfold hdr. rewrite !length_app. simpl. lia. }
  assert (Hn : Z.of_nat (length data) = 6 + Z.of_nat (length a) + Z.of_nat (length p)).
  { unfold data. rewrite length_app. lia. }
  assert (Hsub : sub data 4 (4 + Z.of_nat (length a)) = a).
  { unfold data, hdr. rewrite <- !app_assoc.
    apply (sub_app [r1; r2; 0; t] a); simpl; lia. }
  assert (Hport : portAt data (4 + Z.of_nat (length a)) = 256 * hi + lo).
  { unfold data, hdr.
    replace (([r1; r2; 0; t] ++ a ++ [hi; lo]) ++ p)
      with (([r1; r2; 0; t] ++ a) ++ hi :: lo :: p)
      by (rewrite <- !app_assoc; reflexivity).
    apply portAt_app; [rewrite length_app; simpl; lia|exact Hlo]. }
  assert (Hsplit : drop (length hdr) data = p /\ take (length hdr) data = hdr).
  { unfold data. now rewrite drop_app_length, take_app_length. }
  destruct Hsplit as [Hdrop Htake].
  unfold relayDatagram. rewrite Hn.
  change (byteAt data 2) with 0. change (byteAt data 3) with t.
  change (negb (0 =? 0)) with false. cbv iota.
  unfold dispatch.
  destruct Ht as [[-> Ha]|[-> Ha]]; rewrite Ha in *.
  - destruct (Z.ltb_spec (6 + Z.of_nat 4 + Z.of_nat (length p)) 10); [lia|].
    change (1 =? 1) with true. cbv iota.
    change 8 with (4 + Z.of_nat 4). rewrite Hsub, Hport.
    replace (Z.to_nat 10) with (length hdr) by lia.
    now rewrite Hdrop, Htake.
  - destruct (Z.ltb_spec (6 + Z.of_nat 16 + Z.of_nat (length p)) 10); [lia|].
    change (4 =? 1) with false. change (4 =? 3) with false. change (4 =? 4) with true.
    cbv iota.
    destruct (Z.ltb_spec (6 + Z.of_nat 16 + Z.of_nat (length p)) 22); [lia|].
    change 20 with (4 + Z.of_nat 16). rewrite Hsub, Hport.
    replace (Z.to_nat 22) with (length hdr) by lia.
    now rewrite Hdrop, Htake.
Qed.

(** The relay on a datagram laid out with a domain name (ATYP 3). *)
Lemma relay_layout_name (r1 r2 : Z) (a : list Z) (hi lo : Z) (p : list Z) :
  (length a < 256)%nat -> 0 <= lo < 256 ->
  (3 <= length a + length p)%nat ->
  relayDatagram (([r1; r2; 0; 3] ++ (Z.of_nat (length a) :: a) ++ [hi; lo]) ++ p) =
    (if 256 * hi + lo =? 53
     then DNSQuery p ([r1; r2; 0; 3] ++ (Z.of_nat (length a) :: a) ++ [hi; lo])
     else Unsupported 3 a (256 * hi + lo)).
Proof.
  intros Ha Hlo Hlen.
  set (L := Z.of_nat (length a)).
  set (hdr := [r1; r2; 0; 3] ++ (L :: a) ++ [hi; lo]).
  set (data := hdr ++ p).
  assert (Hhdr : Z.of_nat (length hdr) = 7 + L).
  { unfold hdr, L. rewrite !length_app. simpl. lia. }
  assert (Hn : Z.of_nat (length data) = 7 + L + Z.of_nat (length p)).
  { unfold data. rewrite length_app. lia. }
  assert (Hsub : sub data 5 (5 + L) = a).
  { unfold data, hdr.
    replace (([r1; r2; 0; 3] ++ (L :: a) ++ [hi; lo]) ++ p)
      with ([r1; r2; 0; 3; L] ++ a ++ ([hi; lo] ++ p))
      by (simpl; rewrite <- !app_assoc; reflexivity).
    apply (sub_app [r1; r2; 0; 3; L] a); simpl; lia. }
  assert (Hport : portAt data (5 + L) = 256 * hi + lo).
  { unfold data, hdr.
    replace (([r1; r2; 0; 3] ++ (L :: a) ++ [hi; lo]) ++ p)
      with (([r1; r2; 0; 3; L] ++ a) ++ hi :: lo :: p)
      by (simpl; rewrite <- !app_assoc; reflexivity).
    apply portAt_app; [rewrite length_app; simpl; lia|exact Hlo]. }
  assert (Hsplit : drop (length hdr) data = p /\ take (length hdr) data = hdr).
  { unfold data. now rewrite drop_app_length, take_app_length. }
  destruct Hsplit as [Hdrop Htake].
  unfold relayDatagram. rewrite Hn.
  change (byteAt data 2) with 0. change (byteAt data 3) with 3.
  change (byteAt data 4) with L.
  change (negb (0 =? 0)) with false. cbv iota.
  change (3 =? 1) with false. change (3 =? 3) with true. cbv iota.
  destruct (Z.ltb_spec (7 + L + Z.of_nat (length p)) 10); [lia|].
  destruct (Z.ltb_spec (7 + L + Z.of_nat (length p)) 5); [lia|].
  destruct (Z.ltb_spec (7 + L + Z.of_nat (length p)) (7 + L)); [lia|].
  unfold dispatch. rewrite Hsub, Hport.
  replace (Z.to_nat (7 + L)) with (length hdr) by lia.
  now rewrite Hdrop, Htake.
Qed.

(** A request to port 53 that conforms to the header layout: the name "a",
    one byte of payload, nine bytes in all. *)
Definition shortRequest : Request := mkRequest (0, 0) 0 3 [97] (0, 53) [7].

(** C7, as stated, fails: [shortRequest] is well formed, its FRAG byte is 0
    and its destination port is 53, yet the relay drops it, without a log
    line and without a DoH query, because it is shorter than 10 bytes. *)
Lemma short_dns_request_dropped :
  wellFormed shortRequest /\ frag shortRequest = 0 /\ port shortRequest = 53 /\
  encode shortRequest = [0; 0; 0; 3; 1; 97; 0; 53; 7] /\
  relayDatagram (encode shortRequest) = Drop /\
  relay true (fun query => Some query) (encode shortRequest) [] [] = None.
Proof.
  repeat split; try (vm_compute; congruence). right. left. split; [reflexivity|simpl; lia].
Qed.

(** C7 (amended): the relay silently drops every datagram whose FRAG byte
    is not zero, and every datagram shorter than 10 bytes.  Of the well-formed
    datagrams of at least 10 bytes with FRAG 0, exactly those whose destination
    port is 53 are forwarded: [handleDNSQuery] is started with their payload
    and their SOCKS5 header bytes, and when no other datagram is read into the
    buffer meanwhile, the payload is sent as a DoH query and, while the server
    runs and the query succeeds, the response is sent back prefixed with the
    datagram's own header bytes; every datagram to another port is logged and
    dropped, nothing being forwarded or sent back. *)
Theorem relay_forwards_dns_only
    (isRunning : bool) (queryDoHForProxy : list Z -> option (list Z))
    (r : Request) :
  wellFormed r ->
  (forall data, byteAt data 2 <> 0 -> relayDatagram data = Drop) /\
  (forall data, (length data < 10)%nat -> relayDatagram data = Drop) /\
  (frag r <> 0 -> relayDatagram (encode r) = Drop) /\
  (frag r = 0 -> (10 <= length (encode r))%nat ->
     relayDatagram (encode r) =
       (if port r =? 53 then DNSQuery (payload r) (header r)
        else Unsupported (atyp r) (dstAddr r) (port r)) /\
     relay isRunning queryDoHForProxy (encode r) [] [] =
       (if port r =? 53
        then if isRunning
             then option_map (app (header r)) (queryDoHForProxy (payload r))
             else None
        else None)).
Proof.
  intros (Hfrag & Hhi & Hlo & Hatyp).
  assert (Hdrop : forall data, byteAt data 2 <> 0 -> relayDatagram data = Drop).
  { intros data H. unfold relayDatagram.
    destruct (Z.of_nat (length data) <? 10); [reflexivity|].
    destruct (Z.eqb_spec (byteAt data 2) 0); [contradiction|reflexivity]. }
  assert (Hshort : forall data, (length data < 10)%nat -> relayDatagram data = Drop).
  { intros data H. unfold relayDatagram.
    destruct (Z.ltb_spec (Z.of_nat (length data)) 10); [reflexivity|lia]. }
  split; [exact Hdrop|]. split; [exact Hshort|]. split.
  { intros H. apply Hdrop. destruct r as [[r1 r2] f t a [hi lo] p]. exact H. }
  intros Hf Hlen.
  assert (Hrelay : relayDatagram (encode r) =
            (if port r =? 53 then DNSQuery (payload r) (header r)
             else Unsupported (atyp r) (dstAddr r) (port r))).
  { destruct r as [[r1 r2] f t a [hi lo] p].
    unfold port, encode, header, addrField, isByte in *.
    cbn [rsv frag atyp dstAddr dstPort payload fst snd] in *. subst f.
    destruct Hatyp as [[-> Ha]|[[-> Ha]|[-> Ha]]].
    - apply relay_layout_fixed; auto; lia.
    - change (3 =? 3) with true. cbv iota.
      rewrite !length_app in Hlen. simpl in Hlen.
      apply relay_layout_name; auto; lia.
    - apply relay_layout_fixed; auto; lia. }
  split; [exact Hrelay|].
  unfold relay. rewrite Hrelay.
  destruct (port r =? 53); [|reflexivity].
  cbn [fold_left]. unfold encode.
  rewrite drop_app_length, take_app_length.
  unfold handleDNSQuery. destruct isRunning; simpl; [|reflexivity].
  destruct (queryDoHForProxy (payload r)); reflexivity.
Qed.

(** Two DNS requests, to 8.8.8.8 and to 1.1.1.1. *)
Definition firstQuery : list Z := [0; 0; 0; 1; 8; 8; 8; 8; 0; 53; 10; 11; 12; 13].
Definition secondQuery : list Z := [0; 0; 0; 1; 1; 1; 1; 1; 0; 53; 20; 21; 22; 23].

(** The slices given to [handleDNSQuery] do not keep the datagram: when the
    second request is read into the buffer before the first one is answered,
    the reply to the first request is prefixed with the header of the second. *)
Lemma reply_prefix_overwritten :
  relay true (fun query => Some [99]) firstQuery [] []
    = Some [0; 0; 0; 1; 8; 8; 8; 8; 0; 53; 99] /\
  relay true (fun query => Some [99]) firstQuery [] [secondQuery]
    = Some [0; 0; 0; 1; 1; 1; 1; 1; 0; 53; 99].
Proof. split; reflexivity. Qed.

Definition dnsRequest : Request :=
  mkRequest (0, 0) 0 1 [8; 8; 8; 8] (0, 53) [171; 205; 1; 0; 0; 1; 0; 0; 0; 0; 0; 0].

Lemma relay_forwards_dns_only_witness :
  wellFormed dnsRequest /\
  relay true (fun query => Some [171; 205; 129; 128]) (encode dnsRequest) [] []
  = Some [0; 0; 0; 1; 8; 8; 8; 8; 0; 53; 171; 205; 129; 128].
Proof.
  assert (H : wellFormed dnsRequest).
  { repeat split; try (vm_compute; congruence). left. split; reflexivity. }
  split; [exact H|].
  destruct (relay_forwards_dns_only true (fun query => Some [171; 205; 129; 128])
              dnsRequest H) as (_ & _ & _ & Hfwd).
  destruct (Hfwd eq_refl) as [_ Hrelay]; [simpl; lia|].
  exact Hrelay.
Defined.

End UdpRelay.

(* ===================================================================== *)
(** * Ingress: the WebSocket-to-client loop of [handleTunnel]             *)
(* ===================================================================== *)

Module Tunnel.

(** [websocket.TextMessage] and [websocket.BinaryMessage] *)
Definition TextMessage : Z := 1.
Definition BinaryMessage : Z := 2.

(** The bytes of an ASCII string. *)
Fixpoint bytesOf (s : string) : list Z :=
  match s with
  | EmptyString => []
  | String c s' => Z.of_nat (nat_of_ascii c) :: bytesOf s'
  end.

Fixpoint bytesEqb (a b : list Z) : bool :=
  match a, b with
  | [], [] => true
  | x :: a', y :: b' => (x =? y) && bytesEqb a' b'
  | _, _ => false
  end.

(** What the loop meets next: [wsConn.ReadMessage()] fails, or returns a
    message of type [mt] with the bytes [msg]; [writeOk] tells whether the
    [conn.Write(msg)] that may follow succeeds. *)
Inductive Incoming :=
| ReadError
| Frame (mt : Z) (msg : list Z) (writeOk : bool).

(** [mt == websocket.TextMessage && string(msg) == "CLOSE"] *)
Definition isClose (mt : Z) (msg : list Z) : bool :=
  (mt =? TextMessage) && bytesEqb msg (bytesOf "CLOSE").

(** The goroutine "Server -> Client": the byte slices handed to
    [conn.Write], in order, until the loop returns. *)
Fixpoint serverToClient (incoming : list Incoming) : list (list Z) :=
  match incoming with
  | [] => []
  | ReadError :: _ => []
  | Frame mt msg writeOk :: rest =>
      if isClose mt msg then []
      else msg :: (if writeOk then serverToClient rest else [])
  end.

Example serverToClient_ex :
  serverToClient [Frame BinaryMessage [1; 2] true;
                  Frame TextMessage (bytesOf "PONG") true;
                  Frame TextMessage (bytesOf "CLOSE") true;
                  Frame BinaryMessage [3] true]
  = [[1; 2]; bytesOf "PONG"].
Proof. reflexivity. Qed.

(** ** Claim C10 *)

Lemma bytesEqb_eq (a b : list Z) : bytesEqb a b = true <-> a = b.
Proof.
  revert b. induction a as [|x a IH]; intros [|y b]; simpl; split;
    try discriminate; try reflexivity.
  - intros [Hxy Hab]%andb_true_iff. apply Z.eqb_eq in Hxy. apply IH in Hab. congruence.
  - intros [= -> ->]. rewrite Z.eqb_refl. now apply IH.
Qed.

Lemma isClose_spec (mt : Z) (msg : list Z) :
  isClose mt msg = true <-> mt = TextMessage /\ msg = bytesOf "CLOSE".
Proof.
  unfold isClose. rewrite andb_true_iff, Z.eqb_eq, bytesEqb_eq. tauto.
Qed.

(** C10: as long as reads and writes succeed, the loop hands the bytes of
    every received message to [conn.Write] unchanged and in order, whatever
    its type and content, except for the text message that is exactly CLOSE,
    at which it returns.  So the text of an ERROR:, PONG or DATA: frame from
    the server is written into the client's byte stream. *)
Theorem serverToClient_writes_verbatim
    (before : list (Z * list Z)) (mt : Z) (msg : list Z) (writeOk : bool)
    (rest : list Incoming) :
  Forall (fun f => ~ (fst f = TextMessage /\ snd f = bytesOf "CLOSE")) before ->
  ~ (mt = TextMessage /\ msg = bytesOf "CLOSE") ->
  serverToClient (map (fun f => Frame (fst f) (snd f) true) before
                    ++ Frame mt msg writeOk :: rest)
  = map snd before ++ msg :: (if writeOk then serverToClient rest else []).
Proof.
  intros Hbefore Hmsg.
  assert (Hnc : forall t m, ~ (t = TextMessage /\ m = bytesOf "CLOSE") -> isClose t m = false).
  { intros t m H. destruct (isClose t m) eqn:E; [|reflexivity].
    apply isClose_spec in E. contradiction. }
  induction Hbefore as [|[t m] before Hf _ IH]; simpl.
  - now rewrite (Hnc _ _ Hmsg).
  - simpl in Hf. rewrite (Hnc t m Hf). now rewrite IH.
Qed.

Lemma serverToClient_writes_verbatim_witness :
  serverToClient [Frame BinaryMessage [22; 3; 1] true;
                  Frame TextMessage (bytesOf "ERROR:boom") true;
                  Frame TextMessage (bytesOf "CLOSE") true]
  = [[22; 3; 1]; bytesOf "ERROR:boom"].
Proof.
  apply (serverToClient_writes_verbatim
           [(BinaryMessage, [22; 3; 1])] TextMessage (bytesOf "ERROR:boom") true
           [Frame TextMessage (bytesOf "CLOSE") true]).
  - constructor; [|constructor]. simpl. intros [H _]. discriminate H.
  - intros [_ H]. discriminate H.
Defined.

End Tunnel.

(* ===================================================================== *)
(** * Ingress: the request body of the HTTP forward proxy                 *)
(* ===================================================================== *)

Module HttpProxy.

Import Js.

(** The bound of an [int]. *)
Definition maxInt : Z := 2 ^ 63 - 1.

(** [fmt.Sscanf(contentLength, "%d", &length)] on a header value, which
    [handleHTTP] stored trimmed: an optional sign and the decimal digits that
    follow are read.  The result is the value of [length] afterwards; it stays 0
    when there is no digit or the number does not fit an [int]. *)
Definition Sscanf (contentLength : string) : Z :=
  let value :=
    match contentLength with
    | String "-"%char s' => option_map Z.opp (digitsPrefix s' None)
    | String "+"%char s' => digitsPrefix s' None
    | _ => digitsPrefix contentLength None
    end in
  match value with
  | Some v => if (- maxInt - 1 <=? v) && (v <=? maxInt) then v else 0
  | None => 0
  end.

(** The lines of [handleHTTP] that read the request body: [reader] holds
    the bytes the client sends after the header block, up to the end of the
    stream.  [io.ReadFull] fails when fewer than [length] bytes come, and
    the body is then left out. *)
Definition readBody (contentLength : string) (reader : list Z) : list Z :=
  if isEmpty contentLength then []
  else
    let length := Sscanf contentLength in
    if (0 <? length) && (length <? 10 * 1024 * 1024)
    then
      if length <=? Z.of_nat (List.length reader)
      then take (Z.to_nat length) reader
      else []
    else [].

(** [firstFrame]: the rebuilt request line and headers, [head], followed by
    the body.  A missing key of the Go map [headers] reads as "". *)
Definition firstFrame (head : list Z) (headers : gmap string string)
    (reader : list Z) : list Z :=
  head ++ readBody (default ""%string (headers !! "content-length"%string)) reader.

Example Sscanf_ex :
  Sscanf "42" = 42 /\ Sscanf "12abc" = 12 /\ Sscanf "abc" = 0 /\ Sscanf "-7" = -7
  /\ Sscanf "99999999999999999999" = 0.
Proof. repeat split. Qed.

Example readBody_ex : readBody "3" [104; 101; 108; 108; 111] = [104; 101; 108].
Proof. reflexivity. Qed.

(** ** Claim C8 *)

Definition tenMiB : Z := 10 * 1024 * 1024.

(** C8, as stated, fails: with Content-Length: 10485760, that is 10 MiB,
    and all of the 10485760 body bytes sent by the client, the rebuilt request
    holds no body byte. *)
Lemma body_of_ten_MiB_left_out :
  Sscanf "10485760" = tenMiB /\
  Z.of_nat (length (replicate (Z.to_nat tenMiB) 0)) = tenMiB /\
  firstFrame (Tunnel.bytesOf "POST / HTTP/1.1")
             {[ "content-length"%string := "10485760"%string ]}
             (replicate (Z.to_nat tenMiB) 0)
  = Tunnel.bytesOf "POST / HTTP/1.1".
Proof.
  assert (Hscan : Sscanf "10485760" = tenMiB) by (vm_compute; reflexivity).
  split; [exact Hscan|]. split.
  - rewrite length_replicate. apply Z2Nat.id. unfold tenMiB. lia.
  - unfold firstFrame. rewrite lookup_singleton_eq. cbn [from_option id].
    unfold readBody. change (isEmpty "10485760") with false. cbv iota.
    rewrite Hscan. change (tenMiB <? 10 * 1024 * 1024) with false.
    rewrite andb_false_r. apply app_nil_r.
Qed.

(** C8 (amended): when a Content-Length header is present with the value L,
    the rebuilt request ends with exactly the next L body bytes whenever
    0 < L < 10 MiB (10 MiB itself excluded) and the client sends at least L
    bytes; in every other case it holds no body byte. *)
Theorem forward_proxy_body
    (head : list Z) (headers : gmap string string) (reader : list Z)
    (contentLength : string) (L : Z) :
  headers !! "content-length"%string = Some contentLength ->
  contentLength <> ""%string ->
  Sscanf contentLength = L ->
  (0 < L < 10 * 1024 * 1024 -> L <= Z.of_nat (length reader) ->
     firstFrame head headers reader = head ++ take (Z.to_nat L) reader /\
     Z.of_nat (length (take (Z.to_nat L) reader)) = L) /\
  (~ (0 < L < 10 * 1024 * 1024 /\ L <= Z.of_nat (length reader)) ->
     firstFrame head headers reader = head).
Proof.
  intros Hget Hne Hscan. unfold firstFrame. rewrite Hget. cbn [from_option id].
  unfold readBody.
  assert (He : isEmpty contentLength = false) by (destruct contentLength; [contradiction|reflexivity]).
  rewrite He, Hscan. split.
  - intros [Hlo Hhi] Hav.
    destruct (Z.ltb_spec 0 L); [|lia].
    destruct (Z.ltb_spec L (10 * 1024 * 1024)); [|lia].
    destruct (Z.leb_spec L (Z.of_nat (length reader))); [|lia]. simpl.
    split; [reflexivity|]. rewrite length_take. lia.
  - intros Hnot.
    destruct (Z.ltb_spec 0 L); simpl; [|apply app_nil_r].
    destruct (Z.ltb_spec L (10 * 1024 * 1024)); simpl; [|apply app_nil_r].
    destruct (Z.leb_spec L (Z.of_nat (length reader))); [lia|apply app_nil_r].
Qed.

Lemma forward_proxy_body_witness :
  firstFrame [80; 79; 83; 84] {[ "content-length"%string := "3"%string ]}
             [104; 101; 108; 108; 111]
  = [80; 79; 83; 84; 104; 101; 108].
Proof.
  destruct (forward_proxy_body [80; 79; 83; 84]
              {[ "content-length"%string := "3"%string ]}
              [104; 101; 108; 108; 111] "3" 3) as [Hbody _].
  - apply lookup_singleton_eq.
  - discriminate.
  - reflexivity.
  - destruct Hbody as [Hframe _]; [lia|simpl; lia|]. exact Hframe.
Defined.

End HttpProxy.

(* ===================================================================== *)
(** * Ingress: the IPv6 range table                                       *)
(* ===================================================================== *)

Module RangeTable6.

Import RangeTable.

(** [ip.To16()] *)
Definition To16 (ip : IP) : list Z :=
  match ip with
  | V4 b0 b1 b2 b3 => [0; 0; 0; 0; 0; 0; 0; 0; 0; 0; 255; 255; b0; b1; b2; b3]
  | V6 b => b
  end.

(** [var a [16]byte; copy(a[:], bytes)]: the first 16 bytes, zeros after a
    shorter slice. *)
Definition array16 (bytes : list Z) : list Z := take 16 (bytes ++ replicate 16 0).

(** The parsing loop of [loadChinaIPV6List]: a range is appended when
    [compareIPv6(start, end) <= 0]. *)
Fixpoint collectV6 (entries : list (IP * IP)) : list ipRangeV6 :=
  match entries with
  | [] => []
  | (startIP, endIP) :: rest =>
      let s := array16 (To16 startIP) in
      let e := array16 (To16 endIP) in
      if compareIPv6 s e <=? 0
      then mkRangeV6 s e :: collectV6 rest
      else collectV6 rest
  end.

(** [ranges[j].start] *)
Definition start6At (ranges : list ipRangeV6) (j : nat) : list Z :=
  match ranges !! j with
  | Some r => start6 r
  | None => []
  end.

(** The inner loop of the sort, with [n] the number of iterations left. *)
Fixpoint scanMinV6 (ranges : list ipRangeV6) (minIdx j n : nat) : nat :=
  match n with
  | O => minIdx
  | S n' =>
      scanMinV6 ranges
        (if compareIPv6 (start6At ranges j) (start6At ranges minIdx) <? 0
         then j else minIdx)
        (S j) n'
  end.

Definition swapV6 (ranges : list ipRangeV6) (i m : nat) : list ipRangeV6 :=
  match ranges !! i, ranges !! m with
  | Some a, Some b => <[i := b]> (<[m := a]> ranges)
  | _, _ => ranges
  end.

(** The outer loop of the sort, with [n] the number of iterations left. *)
Fixpoint sortFromV6 (ranges : list ipRangeV6) (i n : nat) : list ipRangeV6 :=
  match n with
  | O => ranges
  | S n' =>
      let minIdx := scanMinV6 ranges i (S i) (length ranges - S i) in
      let ranges' := if Nat.eqb minIdx i then ranges else swapV6 ranges i minIdx in
      sortFromV6 ranges' (S i) n'
  end.

Definition sortRangesV6 (ranges : list ipRangeV6) : list ipRangeV6 :=
  sortFromV6 ranges 0 (length ranges - 1).

(** [loadChinaIPV6List] once the file is open: the value of
    [ps.chinaIPV6Ranges] afterwards.  With no range accepted the function
    returns nil and leaves the table as it was, [old]. *)
Definition loadChinaIPV6List (old : list ipRangeV6) (entries : list (IP * IP))
  : list ipRangeV6 :=
  let ranges := collectV6 entries in
  if Nat.eqb (length ranges) 0 then old else sortRangesV6 ranges.

(** Containment of a 16-byte address in a range and in a table, by
    [compareIPv6]. *)
Definition inRange6 (x : list Z) (r : ipRangeV6) : Prop :=
  compareIPv6 (start6 r) x <= 0 /\ compareIPv6 x (end6 r) <= 0.

Definition inTable6 (x : list Z) (ranges : list ipRangeV6) : Prop :=
  exists r, r ∈ ranges /\ inRange6 x r.

Definition sortedByStart6 (ranges : list ipRangeV6) : Prop :=
  forall i j ri rj, (i <= j)%nat ->
    ranges !! i = Some ri -> ranges !! j = Some rj ->
    compareIPv6 (start6 ri) (start6 rj) <= 0.

(** Two ranges are the same or one ends before the other starts. *)
Definition apart6 (a b : ipRangeV6) : bool :=
  ((compareIPv6 (start6 a) (start6 b) =? 0) && (compareIPv6 (end6 a) (end6 b) =? 0))
  || (compareIPv6 (end6 a) (start6 b) <? 0) || (compareIPv6 (end6 b) (start6 a) <? 0).

Definition nonOverlapping6 (ranges : list ipRangeV6) : bool :=
  forallb (fun a => forallb (apart6 a) ranges) ranges.

(** ** [compareIPv6] is the lexicographic order *)

Lemma compareIPv6_refl a : compareIPv6 a a = 0.
Proof.
  induction a as [|x a IH]; simpl; [reflexivity|].
  destruct (Z.ltb_spec x x); [lia|exact IH].
Qed.

Lemma compareIPv6_sym a b : compareIPv6 b a = - compareIPv6 a b.
Proof.
  revert b. induction a as [|x a IH]; intros [|y b]; simpl; try reflexivity.
  destruct (Z.ltb_spec x y), (Z.ltb_spec y x); try lia; try reflexivity.
  apply IH.
Qed.

Lemma compareIPv6_values a b :
  compareIPv6 a b = -1 \/ compareIPv6 a b = 0 \/ compareIPv6 a b = 1.
Proof.
  revert b. induction a as [|x a IH]; intros [|y b]; simpl; auto.
  destruct (x <? y); auto. destruct (y <? x); auto.
Qed.

Lemma compareIPv6_eq a b :
  length a = length b -> compareIPv6 a b = 0 -> a = b.
Proof.
  revert b. induction a as [|x a IH]; intros [|y b]; simpl; try discriminate; auto.
  intros [= Hlen].
  destruct (Z.ltb_spec x y) as [|Hxy]; [discriminate|].
  destruct (Z.ltb_spec y x) as [|Hyx]; [discriminate|].
  intros Hcmp. f_equal; [lia|now apply IH].
Qed.

Lemma compareIPv6_trans a b c :
  length a = length b -> length b = length c ->
  compareIPv6 a b <= 0 -> compareIPv6 b c <= 0 ->
  compareIPv6 a c <= 0 /\
  (compareIPv6 a b < 0 \/ compareIPv6 b c < 0 -> compareIPv6 a c < 0).
Proof.
  revert b c. induction a as [|x a IH]; intros [|y b] [|z c]; simpl;
    try discriminate; try lia.
  intros [= Hab] [= Hbc].
  destruct (Z.ltb_spec x y), (Z.ltb_spec y x), (Z.ltb_spec y z), (Z.ltb_spec z y),
           (Z.ltb_spec x z), (Z.ltb_spec z x); try lia.
  assert (x = y) by lia. assert (y = z) by lia. subst.
  apply IH; assumption.
Qed.

(** If [a] is below [b], nothing that is not below [b] is below [a]; this
    holds for slices of any length. *)
Lemma compareIPv6_below a b c :
  compareIPv6 a b < 0 -> 0 <= compareIPv6 c b -> 0 <= compareIPv6 c a.
Proof.
  revert b c. induction a as [|x a IH]; intros [|y b] [|z c]; simpl; try lia.
  destruct (Z.ltb_spec x y), (Z.ltb_spec y x), (Z.ltb_spec z y), (Z.ltb_spec y z),
           (Z.ltb_spec z x), (Z.ltb_spec x z); try lia.
  apply IH.
Qed.

(** ** The selection sort of [loadChinaIPV6List] *)

Lemma start6At_lookup (ranges : list ipRangeV6) i r :
  ranges !! i = Some r -> start6At ranges i = start6 r.
Proof. unfold start6At. now intros ->. Qed.

Lemma scanMinV6_spec (ranges : list ipRangeV6) (i : nat) :
  forall n m j,
    (i <= m < j)%nat -> (j + n = length ranges)%nat ->
    (forall k, (i <= k < j)%nat ->
       0 <= compareIPv6 (start6At ranges k) (start6At ranges m)) ->
    (i <= scanMinV6 ranges m j n < length ranges)%nat /\
    (forall k, (i <= k < length ranges)%nat ->
       0 <= compareIPv6 (start6At ranges k)
                        (start6At ranges (scanMinV6 ranges m j n))).
Proof.
  induction n as [|n IH]; intros m j Hm Hlen Hmin; simpl.
  - split; [lia|]. intros k Hk. apply Hmin. lia.
  - destruct (Z.ltb_spec (compareIPv6 (start6At ranges j) (start6At ranges m)) 0)
      as [Hlt|Hge].
    + apply IH; [lia|lia|].
      intros k Hk. destruct (Nat.eq_dec k j) as [->|Hne];
        [rewrite compareIPv6_refl; lia|].
      eapply compareIPv6_below; [exact Hlt|]. apply Hmin. lia.
    + apply IH; [lia|lia|].
      intros k Hk. destruct (Nat.eq_dec k j) as [->|Hne]; [lia|].
      apply Hmin. lia.
Qed.

Lemma swapV6_length (ranges : list ipRangeV6) i m :
  length (swapV6 ranges i m) = length ranges.
Proof.
  unfold swapV6. destruct (ranges !! i), (ranges !! m); auto.
  now rewrite !length_insert.
Qed.

Lemma swapV6_perm (ranges : list ipRangeV6) i m : swapV6 ranges i m ≡ₚ ranges.
Proof.
  unfold swapV6.
  destruct (ranges !! i) as [a|] eqn:Hi; [|reflexivity].
  destruct (ranges !! m) as [b|] eqn:Hm; [|reflexivity].
  now apply Permutation_insert_swap.
Qed.

Lemma swapV6_start6At (ranges : list ipRangeV6) i m k :
  (i < length ranges)%nat -> (m < length ranges)%nat ->
  start6At (swapV6 ranges i m) k =
    start6At ranges (if Nat.eq_dec k i then m
                     else if Nat.eq_dec k m then i else k).
Proof.
  intros Hi Hm. unfold swapV6.
  destruct (lookup_lt_is_Some_2 ranges i Hi) as [a Ha].
  destruct (lookup_lt_is_Some_2 ranges m Hm) as [b Hb].
  rewrite Ha, Hb. unfold start6At.
  destruct (Nat.eq_dec k i) as [->|Hki].
  - rewrite list_lookup_insert_eq by (rewrite length_insert; lia).
    now rewrite Hb.
  - rewrite list_lookup_insert_ne by congruence.
    destruct (Nat.eq_dec k m) as [->|Hkm].
    + rewrite list_lookup_insert_eq by lia. now rewrite Ha.
    + now rewrite list_lookup_insert_ne by congruence.
Qed.

Definition prefixSorted6 (ranges : list ipRangeV6) (i : nat) : Prop :=
  forall a b, (a < i)%nat -> (a <= b < length ranges)%nat ->
    0 <= compareIPv6 (start6At ranges b) (start6At ranges a).

Lemma sortFromV6_length : forall n (ranges : list ipRangeV6) i,
  length (sortFromV6 ranges i n) = length ranges.
Proof.
  induction n as [|n IH]; intros ranges i; simpl; [reflexivity|].
  rewrite IH. destruct (Nat.eqb _ i); [reflexivity|apply swapV6_length].
Qed.

Lemma sortFromV6_perm : forall n (ranges : list ipRangeV6) i,
  sortFromV6 ranges i n ≡ₚ ranges.
Proof.
  induction n as [|n IH]; intros ranges i; simpl; [reflexivity|].
  rewrite IH. destruct (Nat.eqb _ i); [reflexivity|apply swapV6_perm].
Qed.

Lemma sortFromV6_prefixSorted : forall n (ranges : list ipRangeV6) i,
  (i + n < length ranges)%nat -> prefixSorted6 ranges i ->
  prefixSorted6 (sortFromV6 ranges i n) (i + n).
Proof.
  induction n as [|n IH]; intros ranges i Hlen Hpre; simpl.
  - now rewrite Nat.add_0_r.
  - replace (i + S n)%nat with (S i + n)%nat by lia.
    destruct (scanMinV6_spec ranges i (length ranges - S i) i (S i))
      as [Hm Hmin];
      [lia|lia|
       intros k Hk; assert (k = i) by lia; subst; rewrite compareIPv6_refl; lia|].
    set (m := scanMinV6 ranges i (S i) (length ranges - S i)) in *.
    destruct (Nat.eqb_spec m i) as [Heq|Hne].
    + apply IH; [lia|]. intros a b Ha Hb.
      destruct (Nat.eq_dec a i) as [->|Hai].
      * rewrite <- Heq. apply Hmin. lia.
      * apply Hpre; lia.
    + apply IH; [rewrite swapV6_length; lia|].
      intros a b Ha Hb. rewrite swapV6_length in Hb.
      rewrite !swapV6_start6At by lia.
      destruct (Nat.eq_dec a i) as [->|Hai].
      * destruct (Nat.eq_dec b i); [rewrite compareIPv6_refl; lia|].
        destruct (Nat.eq_dec b m); apply Hmin; lia.
      * destruct (Nat.eq_dec a m); [lia|].
        destruct (Nat.eq_dec b i); [apply Hpre; lia|].
        destruct (Nat.eq_dec b m); apply Hpre; lia.
Qed.

Lemma sortRangesV6_sorted (ranges : list ipRangeV6) :
  sortedByStart6 (sortRangesV6 ranges).
Proof.
  unfold sortRangesV6. intros i j ri rj Hij Hi Hj.
  pose proof (lookup_lt_Some _ _ _ Hj) as Hlj.
  rewrite sortFromV6_length in Hlj.
  rewrite <- (start6At_lookup _ _ _ Hi), <- (start6At_lookup _ _ _ Hj).
  destruct (Nat.eq_dec i j) as [->|Hne]; [rewrite compareIPv6_refl; lia|].
  pose proof (sortFromV6_prefixSorted (length ranges - 1) ranges 0) as H.
  simpl in H.
  rewrite (compareIPv6_sym (start6At _ j) (start6At _ i)).
  assert (0 <= compareIPv6 (start6At (sortFromV6 ranges 0 (length ranges - 1)) j)
                           (start6At (sortFromV6 ranges 0 (length ranges - 1)) i));
    [|lia].
  apply H; [lia|intros a b Ha; lia|lia|].
  rewrite sortFromV6_length. lia.
Qed.

Lemma sortRangesV6_perm (ranges : list ipRangeV6) : sortRangesV6 ranges ≡ₚ ranges.
Proof. apply sortFromV6_perm. Qed.

Lemma array16_length bytes : length (array16 bytes) = 16%nat.
Proof.
  unfold array16. rewrite length_take, length_app, length_replicate. lia.
Qed.

Lemma array16_id bytes : length bytes = 16%nat -> array16 bytes = bytes.
Proof.
  intros H. unfold array16. rewrite take_app_le by lia. apply take_ge. lia.
Qed.

(** Every range of the table has 16-byte bounds, in order. *)
Definition valid6 (r : ipRangeV6) : Prop :=
  length (start6 r) = 16%nat /\ length (end6 r) = 16%nat /\
  compareIPv6 (start6 r) (end6 r) <= 0.

Lemma collectV6_valid entries r : r ∈ collectV6 entries -> valid6 r.
Proof.
  induction entries as [|[s e] rest IH]; simpl.
  - intros H. inversion H.
  - destruct (Z.leb_spec (compareIPv6 (array16 (To16 s)) (array16 (To16 e))) 0);
      auto.
    intros [->|Hin]%elem_of_cons; auto.
    repeat split; simpl; auto using array16_length.
Qed.

(** ** The binary search of [isChinaIP] over the IPv6 table *)

Lemma searchV6_sound ranges x lo hi :
  searchV6 ranges x lo hi = true -> inTable6 x ranges.
Proof.
  funelim (searchV6 ranges x lo hi); try discriminate; auto.
  intros _. exists r. split.
  - eapply list_elem_of_lookup_2; eassumption.
  - unfold inRange6. rewrite (compareIPv6_sym ipArray (start6 r)). lia.
Qed.

Definition endsMonotone6 (ranges : list ipRangeV6) : Prop :=
  forall i j ri rj, (i <= j)%nat ->
    ranges !! i = Some ri -> ranges !! j = Some rj ->
    compareIPv6 (end6 ri) (end6 rj) <= 0.

Lemma searchV6_complete ranges x lo hi :
  (forall r, r ∈ ranges -> valid6 r) -> length x = 16%nat ->
  sortedByStart6 ranges -> endsMonotone6 ranges -> (hi <= length ranges)%nat ->
  (exists k r, (lo <= k < hi)%nat /\ ranges !! k = Some r /\ inRange6 x r) ->
  searchV6 ranges x lo hi = true.
Proof.
  funelim (searchV6 ranges x lo hi);
    intros Hv Hx Hs He Hhi (k & rk & Hk & Hlk & Hin); unfold inRange6 in Hin.
  - lia.
  - apply lookup_ge_None_1 in Heq.
    assert ((lo + hi) / 2 < hi)%nat by (apply Nat.Div0.div_lt_upper_bound; lia).
    lia.
  - assert ((lo + hi) / 2 < hi)%nat by (apply Nat.Div0.div_lt_upper_bound; lia).
    apply H; auto; [lia|].
    exists k, rk. repeat split; try tauto; try lia.
    destruct (le_lt_dec ((lo + hi) / 2) k) as [Hge|]; [|lia].
    pose proof (Hs _ _ _ _ Hge Heq0 Hlk) as Hss.
    destruct (Hv r (list_elem_of_lookup_2 _ _ _ Heq0)) as (Hr1 & _ & _).
    destruct (Hv rk (list_elem_of_lookup_2 _ _ _ Hlk)) as (Hk1 & _ & _).
    destruct (compareIPv6_trans (start6 r) (start6 rk) ipArray) as [Hle _];
      try lia; try tauto.
    pose proof (compareIPv6_sym ipArray (start6 r)). lia.
  - apply H; auto.
    exists k, rk. repeat split; try tauto; try lia.
    destruct (le_lt_dec k ((lo + hi) / 2)) as [Hle|]; [|lia].
    pose proof (He _ _ _ _ Hle Hlk Heq1) as Hee.
    destruct (Hv r (list_elem_of_lookup_2 _ _ _ Heq1)) as (_ & Hr2 & _).
    destruct (Hv rk (list_elem_of_lookup_2 _ _ _ Hlk)) as (_ & Hk2 & _).
    destruct (compareIPv6_trans ipArray (end6 rk) (end6 r)) as [Hle' _];
      try lia; try tauto.
  - reflexivity.
Qed.

Lemma apart6_spec a b :
  apart6 a b = true ->
  (compareIPv6 (start6 a) (start6 b) = 0 /\ compareIPv6 (end6 a) (end6 b) = 0)
  \/ compareIPv6 (end6 a) (start6 b) < 0 \/ compareIPv6 (end6 b) (start6 a) < 0.
Proof.
  unfold apart6. rewrite !orb_true_iff, andb_true_iff.
  rewrite !Z.eqb_eq, !Z.ltb_lt. tauto.
Qed.

Lemma nonOverlapping6_endsMonotone ranges :
  (forall r, r ∈ ranges -> valid6 r) ->
  sortedByStart6 ranges -> nonOverlapping6 ranges = true -> endsMonotone6 ranges.
Proof.
  intros Hvalid Hs Hno i j ri rj Hij Hi Hj.
  unfold nonOverlapping6 in Hno. rewrite forallb_forall in Hno.
  assert (Hri : ri ∈ ranges) by (eapply list_elem_of_lookup_2; eassumption).
  assert (Hrj : rj ∈ ranges) by (eapply list_elem_of_lookup_2; eassumption).
  specialize (Hno ri (proj1 (list_elem_of_In _ _) Hri)).
  rewrite forallb_forall in Hno.
  specialize (Hno rj (proj1 (list_elem_of_In _ _) Hrj)).
  pose proof (Hs _ _ _ _ Hij Hi Hj) as Hss.
  destruct (Hvalid _ Hri) as (Hi1 & Hi2 & Hi3).
  destruct (Hvalid _ Hrj) as (Hj1 & Hj2 & Hj3).
  destruct (apart6_spec _ _ Hno) as [[_ He]|[Hlt|Hlt]].
  - lia.
  - destruct (compareIPv6_trans (end6 ri) (start6 rj) (end6 rj)) as [Hle _]; lia.
  - destruct (compareIPv6_trans (start6 rj) (end6 rj) (start6 ri)) as [_ Hstrict];
      try lia.
    rewrite (compareIPv6_sym (start6 rj) (start6 ri)) in Hss.
    assert (compareIPv6 (start6 rj) (start6 ri) < 0) by (apply Hstrict; lia). lia.
Qed.

(** ** Properties *)

(** X1: on byte arrays of one length, [compareIPv6] is a total order given
    as -1, 0 or 1: it answers 0 exactly for equal arrays, swapping the
    arguments negates the answer, and "not above" is transitive. *)
Theorem compareIPv6_total_order (a b c : list Z) :
  length a = length b -> length b = length c ->
  (compareIPv6 a b = -1 \/ compareIPv6 a b = 0 \/ compareIPv6 a b = 1) /\
  (compareIPv6 a b = 0 <-> a = b) /\
  compareIPv6 b a = - compareIPv6 a b /\
  (compareIPv6 a b <= 0 -> compareIPv6 b c <= 0 -> compareIPv6 a c <= 0).
Proof.
  intros Hab Hbc. split; [apply compareIPv6_values|]. split; [|split].
  - split; [now apply compareIPv6_eq|]. intros ->. apply compareIPv6_refl.
  - apply compareIPv6_sym.
  - intros H1 H2. now destruct (compareIPv6_trans a b c Hab Hbc H1 H2).
Qed.

Lemma compareIPv6_total_order_witness :
  compareIPv6 [32; 1; 13; 184] [32; 1; 13; 185] = -1 /\
  compareIPv6 [32; 1; 13; 185] [32; 1; 13; 184] = 1.
Proof.
  destruct (compareIPv6_total_order [32; 1; 13; 184] [32; 1; 13; 185] [32; 1; 13; 185]
              eq_refl eq_refl) as (_ & _ & Hsym & _).
  split; [reflexivity|]. rewrite Hsym. reflexivity.
Defined.

(** X2: when [loadChinaIPV6List] accepts no range it leaves the IPv6 table
    as it was; otherwise the new table holds exactly the accepted ranges,
    sorted ascending by start, each with 16-byte bounds and start not above
    end. *)
Theorem loadChinaIPV6List_sorted (old : list ipRangeV6) (entries : list (IP * IP)) :
  (collectV6 entries = [] -> loadChinaIPV6List old entries = old) /\
  (collectV6 entries <> [] ->
     sortedByStart6 (loadChinaIPV6List old entries) /\
     loadChinaIPV6List old entries ≡ₚ collectV6 entries /\
     (forall r, r ∈ loadChinaIPV6List old entries -> valid6 r)).
Proof.
  unfold loadChinaIPV6List. split.
  - intros ->. reflexivity.
  - intros Hne. destruct (collectV6 entries) as [|r0 rest] eqn:Hc; [congruence|].
    simpl Nat.eqb. cbv iota. rewrite <- Hc. split; [apply sortRangesV6_sorted|].
    split; [apply sortRangesV6_perm|].
    intros r Hr. apply (collectV6_valid entries). now rewrite <- sortRangesV6_perm.
Qed.

Definition sampleEntries6 : list (IP * IP) :=
  [ (V6 [36; 8; 0; 0; 0; 0; 0; 0; 0; 0; 0; 0; 0; 0; 0; 0],
     V6 [36; 8; 255; 255; 255; 255; 255; 255; 255; 255; 255; 255; 255; 255; 255; 255]);
    (V6 [36; 9; 0; 0; 0; 0; 0; 0; 0; 0; 0; 0; 0; 0; 0; 0],
     V6 [36; 1; 0; 0; 0; 0; 0; 0; 0; 0; 0; 0; 0; 0; 0; 0]);
    (V6 [36; 0; 0; 0; 0; 0; 0; 0; 0; 0; 0; 0; 0; 0; 0; 0],
     V6 [36; 0; 255; 255; 255; 255; 255; 255; 255; 255; 255; 255; 255; 255; 255; 255]) ].

Definition sampleTable6 : list ipRangeV6 :=
  [ mkRangeV6 [36; 0; 0; 0; 0; 0; 0; 0; 0; 0; 0; 0; 0; 0; 0; 0]
              [36; 0; 255; 255; 255; 255; 255; 255; 255; 255; 255; 255; 255; 255; 255; 255];
    mkRangeV6 [36; 8; 0; 0; 0; 0; 0; 0; 0; 0; 0; 0; 0; 0; 0; 0]
              [36; 8; 255; 255; 255; 255; 255; 255; 255; 255; 255; 255; 255; 255; 255; 255] ].

Lemma loadChinaIPV6List_sorted_witness :
  loadChinaIPV6List [] sampleEntries6 = sampleTable6 /\
  sortedByStart6 (loadChinaIPV6List [] sampleEntries6).
Proof.
  split; [reflexivity|].
  destruct (loadChinaIPV6List_sorted [] sampleEntries6) as [_ H].
  apply H. discriminate.
Defined.

(** X3: on the IPv6 table that [loadChinaIPV6List] stored, a true answer
    of [isChinaIP] for a 16-byte address means that the address lies within a
    loaded range, and when no two loaded ranges overlap the answer is true if
    and only if it does. *)
Theorem isChinaIP_v6_lookup
    (ps : ProxyServer) (old : list ipRangeV6) (entries : list (IP * IP))
    (ipArray : list Z) :
  chinaIPV6Ranges ps = loadChinaIPV6List old entries ->
  collectV6 entries <> [] ->
  length ipArray = 16%nat ->
  (isChinaAddr ps (V6 ipArray) = true -> inTable6 ipArray (chinaIPV6Ranges ps)) /\
  (nonOverlapping6 (chinaIPV6Ranges ps) = true ->
     (isChinaAddr ps (V6 ipArray) = true <-> inTable6 ipArray (chinaIPV6Ranges ps))).
Proof.
  intros Htable Hne Hlen.
  destruct (loadChinaIPV6List_sorted old entries) as [_ Hload].
  destruct (Hload Hne) as (Hsorted & _ & Hvalid).
  rewrite <- Htable in Hsorted, Hvalid. simpl.
  split; [apply searchV6_sound|].
  intros Hno. split; [apply searchV6_sound|].
  intros (r & Hr & Hin).
  apply searchV6_complete; auto.
  - now apply nonOverlapping6_endsMonotone.
  - apply list_elem_of_lookup_1 in Hr as [k Hk].
    exists k, r. repeat split; auto; try apply Hin; try lia.
    eapply lookup_lt_Some; eassumption.
Qed.

Lemma isChinaIP_v6_lookup_witness :
  isChinaAddr (mkProxyServer "bypass_cn" [] sampleTable6)
              (V6 [36; 8; 0; 0; 0; 0; 0; 0; 0; 0; 0; 0; 0; 0; 0; 1]) = true /\
  inTable6 [36; 8; 0; 0; 0; 0; 0; 0; 0; 0; 0; 0; 0; 0; 0; 1] sampleTable6.
Proof.
  split; [reflexivity|].
  destruct (isChinaIP_v6_lookup (mkProxyServer "bypass_cn" [] sampleTable6) []
              sampleEntries6 [36; 8; 0; 0; 0; 0; 0; 0; 0; 0; 0; 0; 0; 0; 0; 1])
    as [Hsound _]; [reflexivity|discriminate|reflexivity|].
  apply Hsound. reflexivity.
Defined.

End RangeTable6.

(* ===================================================================== *)
(** * Ingress: the routing decision and the loaded ranges                  *)
(* ===================================================================== *)

Module Routing.

Import RangeTable RangeTable6.

(** The address lies within a loaded range of the table of its family. *)
Definition inRangeTable (ps : ProxyServer) (ip : IP) : Prop :=
  match ip with
  | V4 _ _ _ _ => inTable (ipToUint32 ip) (chinaIPRanges ps)
  | V6 ipArray => inTable6 ipArray (chinaIPV6Ranges ps)
  end.

(** An address as [net.ParseIP] and [net.LookupIP] return it: an IPv6
    address has sixteen bytes. *)
Definition wellFormedIP (ip : IP) : Prop :=
  match ip with
  | V4 _ _ _ _ => True
  | V6 ipArray => length ipArray = 16%nat
  end.

(** The tables as the two loaders leave them on a server that starts with
    empty tables: the IPv4 table stays empty when [loadChinaIPList] fails. *)
Definition loaded (ps : ProxyServer) (entries4 entries6 : list (IP * IP)) : Prop :=
  chinaIPRanges ps = default [] (loadChinaIPList entries4) /\
  chinaIPV6Ranges ps = loadChinaIPV6List [] entries6.

(** What the statement of the routing policy says about a host: direct in
    mode "none", and in mode "bypass_cn" for an IP literal within a loaded
    range and for a name that resolves to at least one such address. *)
Definition statedDirect (ParseIP : string -> option IP)
    (LookupIP : string -> option (list IP)) (ps : ProxyServer) (targetHost : string)
  : Prop :=
  RoutingMode ps = "none"%string \/
  (RoutingMode ps = "bypass_cn"%string /\
   ((exists ip, ParseIP targetHost = Some ip /\ inRangeTable ps ip) \/
    (ParseIP targetHost = None /\
     exists ips ip, LookupIP targetHost = Some ips /\ ip ∈ ips /\ inRangeTable ps ip))).

(** The resolver of the examples: 1.1.0.1 and 1.0.1.1 are IP literals,
    example.cn resolves to 1.1.0.1 and nothing else resolves. *)
Definition sampleParseIP (s : string) : option IP :=
  if String.eqb s "1.1.0.1" then Some (V4 1 1 0 1)
  else if String.eqb s "1.0.1.1" then Some (V4 1 0 1 1)
  else None.

Definition sampleLookupIP (s : string) : option (list IP) :=
  if String.eqb s "example.cn" then Some [V4 8 8 8 8; V4 1 1 0 1] else None.

Lemma table4_ok (entries : list (IP * IP)) :
  let t := default [] (loadChinaIPList entries) in
  sortedByStart t /\ (forall r, r ∈ t -> 0 < start r /\ start r <= end_ r).
Proof.
  unfold loadChinaIPList. destruct (Nat.eqb (length (collect entries)) 0); cbn.
  - split.
    + intros i j ri rj _ Hi. rewrite lookup_nil in Hi. discriminate.
    + intros r Hr. inversion Hr.
  - split; [apply sortRanges_sorted|].
    intros r Hr. apply (collect_valid entries). now rewrite <- sortRanges_perm.
Qed.

Lemma table6_ok (entries : list (IP * IP)) :
  let t := loadChinaIPV6List [] entries in
  sortedByStart6 t /\ (forall r, r ∈ t -> valid6 r).
Proof.
  unfold loadChinaIPV6List. destruct (Nat.eqb (length (collectV6 entries)) 0); cbn.
  - split.
    + intros i j ri rj _ Hi. rewrite lookup_nil in Hi. discriminate.
    + intros r Hr. inversion Hr.
  - split; [apply sortRangesV6_sorted|].
    intros r Hr. apply (collectV6_valid entries). now rewrite <- sortRangesV6_perm.
Qed.

(** A hit of the binary search is an address within a loaded range. *)
Lemma isChinaAddr_sound (ps : ProxyServer) (ip : IP) :
  isChinaAddr ps ip = true -> inRangeTable ps ip.
Proof.
  destruct ip as [b0 b1 b2 b3|ipArray]; unfold isChinaAddr, inRangeTable.
  - destruct (ipToUint32 (V4 b0 b1 b2 b3) =? 0); [discriminate|]. apply searchV4_sound.
  - apply searchV6_sound.
Qed.

(** On loaded tables without overlaps the binary search finds every
    address that lies within a loaded range. *)
Lemma isChinaAddr_complete (ps : ProxyServer) (entries4 entries6 : list (IP * IP))
    (ip : IP) :
  loaded ps entries4 entries6 ->
  nonOverlapping (chinaIPRanges ps) = true ->
  nonOverlapping6 (chinaIPV6Ranges ps) = true ->
  wellFormedIP ip ->
  inRangeTable ps ip -> isChinaAddr ps ip = true.
Proof.
  intros [H4 H6] Hno4 Hno6 Hwf Hin.
  destruct (table4_ok entries4) as [Hs4 Hv4]. rewrite <- H4 in Hs4, Hv4.
  destruct (table6_ok entries6) as [Hs6 Hv6]. rewrite <- H6 in Hs6, Hv6.
  destruct ip as [b0 b1 b2 b3|ipArray]; unfold isChinaAddr, inRangeTable in *.
  - set (x := ipToUint32 (V4 b0 b1 b2 b3)) in *. clearbody x.
    destruct Hin as (r & Hr & Hx).
    destruct (Z.eqb_spec x 0) as [->|_].
    { destruct (Hv4 r Hr). unfold inRange in Hx. lia. }
    apply searchV4_complete; auto.
    + apply nonOverlapping_endsMonotone; auto. intros r' Hr'. now apply Hv4.
    + apply list_elem_of_lookup_1 in Hr as [k Hk].
      exists k, r. repeat split; auto; try apply Hx; try lia.
      eapply lookup_lt_Some; eassumption.
  - destruct Hin as (r & Hr & Hx). cbn in Hwf.
    apply searchV6_complete; auto.
    + now apply nonOverlapping6_endsMonotone.
    + apply list_elem_of_lookup_1 in Hr as [k Hk].
      exists k, r. repeat split; auto; try apply Hx; try lia.
      eapply lookup_lt_Some; eassumption.
Qed.

(** ** Claim C6 *)

(** C6, as stated, fails: with the table loaded from [overlapEntries], the
    IP literal 1.1.0.1 lies within a loaded range and the name example.cn
    resolves to it, yet in mode "bypass_cn" [shouldBypassProxy] sends both
    through the tunnel. *)
Lemma shouldBypassProxy_overlap_miss :
  let ps := mkProxyServer "bypass_cn" overlapTable [] in
  loaded ps overlapEntries [] /\
  inRangeTable ps (V4 1 1 0 1) /\
  statedDirect sampleParseIP sampleLookupIP ps "1.1.0.1" /\
  shouldBypassProxy sampleParseIP sampleLookupIP ps "1.1.0.1" = false /\
  statedDirect sampleParseIP sampleLookupIP ps "example.cn" /\
  shouldBypassProxy sampleParseIP sampleLookupIP ps "example.cn" = false.
Proof.
  intros ps.
  assert (Hin : inRangeTable ps (V4 1 1 0 1)).
  { exists (rangeOf (V4 1 0 0 0) (V4 1 255 255 255)).
    split; [apply list_elem_of_here|]. vm_compute. split; discriminate. }
  split; [split; reflexivity|]. split; [exact Hin|].
  split; [|split; [reflexivity|split; [|reflexivity]]].
  - right. split; [reflexivity|]. left. exists (V4 1 1 0 1). split; [reflexivity|exact Hin].
  - right. split; [reflexivity|]. right. split; [reflexivity|].
    exists [V4 8 8 8 8; V4 1 1 0 1], (V4 1 1 0 1).
    split; [reflexivity|]. split; [|exact Hin].
    apply list_elem_of_further, list_elem_of_here.
Qed.

(** C6 (amended): with the range tables as [loadChinaIPList] and
    [loadChinaIPV6List] leave them, mode "none" is always direct and mode
    "global", an unrecognised mode and a failed resolution always give the
    tunnel; in mode "bypass_cn" a direct decision is only made for an IP
    literal that lies within a loaded range of its family's table, or for a
    name that resolves to at least one such address; and when no two loaded
    ranges overlap, the decision is direct exactly in these cases. *)
Theorem shouldBypassProxy_ranges
    (ParseIP : string -> option IP) (LookupIP : string -> option (list IP))
    (ps : ProxyServer) (entries4 entries6 : list (IP * IP)) (targetHost : string) :
  loaded ps entries4 entries6 ->
  (forall s ip, ParseIP s = Some ip -> wellFormedIP ip) ->
  (forall s ips ip, LookupIP s = Some ips -> ip ∈ ips -> wellFormedIP ip) ->
  let direct := shouldBypassProxy ParseIP LookupIP ps targetHost = true in
  (RoutingMode ps = "none"%string -> direct) /\
  (RoutingMode ps <> "none"%string -> RoutingMode ps <> "bypass_cn"%string -> ~ direct) /\
  (ParseIP targetHost = None -> LookupIP targetHost = None ->
     RoutingMode ps <> "none"%string -> ~ direct) /\
  (direct -> statedDirect ParseIP LookupIP ps targetHost) /\
  (nonOverlapping (chinaIPRanges ps) = true ->
   nonOverlapping6 (chinaIPV6Ranges ps) = true ->
     (direct <-> statedDirect ParseIP LookupIP ps targetHost)).
Proof.
  intros Hload Hparse Hlookup direct.
  pose proof (shouldBypassProxy_decision ParseIP LookupIP ps targetHost) as Hdec.
  fold direct in Hdec.
  assert (Hsound : direct -> statedDirect ParseIP LookupIP ps targetHost).
  { intros Hd. apply Hdec in Hd as [Hn|[Hb [(ip & Hp & Hc)|(Hp & ips & ip & Hl & Hi & Hc)]]].
    - now left.
    - right. split; [exact Hb|]. left. exists ip. split; [exact Hp|].
      now apply isChinaAddr_sound.
    - right. split; [exact Hb|]. right. split; [exact Hp|].
      exists ips, ip. repeat split; auto. now apply isChinaAddr_sound. }
  split; [|split; [|split; [|split]]].
  - intros Hn. apply Hdec. now left.
  - intros Hn Hb Hd. apply Hdec in Hd as [?|[? _]]; contradiction.
  - intros Hp Hl Hn Hd.
    apply Hdec in Hd as [?|[_ [(ip & Hp' & _)|(_ & ips & ip & Hl' & _)]]];
      [contradiction|congruence|congruence].
  - exact Hsound.
  - intros Hno4 Hno6. split; [exact Hsound|].
    intros [Hn|[Hb [(ip & Hp & Hin)|(Hp & ips & ip & Hl & Hi & Hin)]]]; apply Hdec.
    + now left.
    + right. split; [exact Hb|]. left. exists ip. split; [exact Hp|].
      apply (isChinaAddr_complete ps entries4 entries6); auto.
      exact (Hparse _ _ Hp).
    + right. split; [exact Hb|]. right. split; [exact Hp|].
      exists ips, ip. repeat split; auto.
      apply (isChinaAddr_complete ps entries4 entries6); auto.
      exact (Hlookup _ _ _ Hl Hi).
Qed.

Lemma shouldBypassProxy_ranges_witness :
  let ps := mkProxyServer "bypass_cn" sampleTable sampleTable6 in
  loaded ps sampleEntries sampleEntries6 /\
  nonOverlapping (chinaIPRanges ps) = true /\
  nonOverlapping6 (chinaIPV6Ranges ps) = true /\
  inRangeTable ps (V4 1 0 1 1) /\
  shouldBypassProxy sampleParseIP sampleLookupIP ps "1.0.1.1" = true.
Proof.
  intros ps.
  assert (Hload : loaded ps sampleEntries sampleEntries6) by (split; reflexivity).
  assert (Hin : inRangeTable ps (V4 1 0 1 1)).
  { exists (rangeOf (V4 1 0 1 0) (V4 1 0 1 255)).
    split; [apply list_elem_of_here|]. vm_compute. split; discriminate. }
  split; [exact Hload|]. split; [reflexivity|]. split; [reflexivity|].
  split; [exact Hin|].
  destruct (shouldBypassProxy_ranges sampleParseIP sampleLookupIP ps
              sampleEntries sampleEntries6 "1.0.1.1" Hload) as (_ & _ & _ & _ & Hiff).
  - intros s ip. unfold sampleParseIP.
    destruct (String.eqb s "1.1.0.1"); [intros [= <-]; exact I|].
    destruct (String.eqb s "1.0.1.1"); [intros [= <-]; exact I|discriminate].
  - intros s ips ip. unfold sampleLookupIP.
    destruct (String.eqb s "example.cn"); [|discriminate].
    intros [= <-] Hi. apply elem_of_cons in Hi as [->|Hi]; [exact I|].
    apply elem_of_cons in Hi as [->|Hi]; [exact I|inversion Hi].
  - apply (Hiff eq_refl eq_refl). right. split; [reflexivity|]. left.
    exists (V4 1 0 1 1). split; [reflexivity|exact Hin].
Defined.

End Routing.

(* ===================================================================== *)
(** * Facts about the string operations                                    *)
(* ===================================================================== *)

Module JsFacts.

Import Js.

Lemma len_nonneg s : 0 <= len s.
Proof. unfold len. lia. Qed.

Lemma len_cons c s : len (String c s) = 1 + len s.
Proof. unfold len. simpl String.length. lia. Qed.

Lemma append_nil b : String.append EmptyString b = b.
Proof. reflexivity. Qed.

Lemma append_cons c a b :
  String.append (String c a) b = String c (String.append a b).
Proof. reflexivity. Qed.

Lemma len_append a b : len (String.append a b) = len a + len b.
Proof.
  induction a as [|c a IH].
  - rewrite append_nil. unfold len. simpl. lia.
  - rewrite append_cons, !len_cons, IH. lia.
Qed.

Lemma substring_all s : String.substring 0 (String.length s) s = s.
Proof. induction s as [|c s IH]; simpl; [reflexivity|now rewrite IH]. Qed.

Lemma substring_prefix a b :
  String.substring 0 (String.length a) (String.append a b) = a.
Proof.
  induction a as [|c a IH].
  - rewrite append_nil. destruct b; reflexivity.
  - rewrite append_cons. simpl. now rewrite IH.
Qed.

Lemma substring_skip a b n :
  String.substring (String.length a) n (String.append a b) = String.substring 0 n b.
Proof.
  induction a as [|c a IH]; [reflexivity|].
  rewrite append_cons. simpl. exact IH.
Qed.

Lemma length_append a b :
  String.length (String.append a b) = (String.length a + String.length b)%nat.
Proof.
  induction a as [|c a IH]; [reflexivity|].
  rewrite append_cons. simpl. now rewrite IH.
Qed.

(** [slice] and [sliceFrom] cut a concatenation at the seam. *)
Lemma slice_prefix a b : slice (String.append a b) 0 (len a) = a.
Proof.
  unfold slice, sliceIndex. rewrite len_append.
  pose proof (len_nonneg a). pose proof (len_nonneg b).
  destruct (Z.ltb_spec 0 0); [lia|].
  destruct (Z.ltb_spec (len a) 0); [lia|].
  rewrite Z.min_l by lia. rewrite Z.min_l by lia.
  replace (Z.to_nat (len a - 0)) with (String.length a) by (unfold len; lia).
  apply substring_prefix.
Qed.

Lemma sliceFrom_suffix a b : sliceFrom (String.append a b) (len a) = b.
Proof.
  unfold sliceFrom, slice, sliceIndex. rewrite len_append.
  pose proof (len_nonneg a). pose proof (len_nonneg b).
  destruct (Z.ltb_spec (len a) 0); [lia|].
  destruct (Z.ltb_spec (len a + len b) 0); [lia|].
  rewrite Z.min_l by lia. rewrite Z.min_l by lia.
  replace (Z.to_nat (len a)) with (String.length a) by (unfold len; lia).
  replace (Z.to_nat (len a + len b - len a)) with (String.length b)
    by (unfold len; lia).
  rewrite substring_skip. apply substring_all.
Qed.

Lemma startsWith_append p s : startsWith (String.append p s) p = true.
Proof.
  unfold startsWith. induction p as [|c p IH].
  - rewrite append_nil. destruct s; reflexivity.
  - rewrite append_cons. simpl.
    destruct (ascii_dec c c); [exact IH|congruence].
Qed.

(** Searching a character that the first part does not hold. *)
Lemma indexOfAt_skip c a b i :
  includes a c = false ->
  indexOfAt c (String.append a b) i = indexOfAt c b (i + len a).
Proof.
  unfold includes, indexOf. revert i.
  assert (Hmono : forall s j, 0 <= j -> 0 <= indexOfAt c s j -> j <= indexOfAt c s j).
  { induction s as [|x s IHs]; simpl; intros j Hj H; [lia|].
    destruct (Ascii.eqb x c); [lia|]. specialize (IHs (j + 1)). lia. }
  assert (Hshift : forall s j k, 0 <= j -> 0 <= k ->
            (0 <=? indexOfAt c s j) = (0 <=? indexOfAt c s k)).
  { induction s as [|x s IHs]; simpl; intros j k Hj Hk; [reflexivity|].
    destruct (Ascii.eqb x c).
    - destruct (Z.leb_spec 0 j), (Z.leb_spec 0 k); try lia; reflexivity.
    - apply IHs; lia. }
  induction a as [|x a IH]; intros i Ha.
  - rewrite append_nil. f_equal. unfold len. simpl. lia.
  - rewrite append_cons. simpl in *.
    destruct (Ascii.eqb x c) eqn:E; [discriminate|].
    rewrite IH.
    + f_equal. rewrite len_cons. lia.
    + rewrite <- Ha. apply Hshift; lia.
Qed.

Lemma indexOf_seam c a b :
  includes a c = false -> indexOf (String.append a (String c b)) c = len a.
Proof.
  intros Ha. unfold indexOf. rewrite (indexOfAt_skip c a (String c b) 0 Ha).
  simpl. now rewrite Ascii.eqb_refl.
Qed.

Lemma includes_false_cons c x s :
  includes (String x s) c = false ->
  Ascii.eqb x c = false /\ includes s c = false.
Proof.
  unfold includes, indexOf. simpl.
  destruct (Ascii.eqb x c); [discriminate|]. intros H. split; [reflexivity|].
  rewrite <- H.
  assert (Hshift : forall t j k, 0 <= j -> 0 <= k ->
            (0 <=? indexOfAt c t j) = (0 <=? indexOfAt c t k)).
  { induction t as [|y t IHt]; simpl; intros j k Hj Hk; [reflexivity|].
    destruct (Ascii.eqb y c).
    - destruct (Z.leb_spec 0 j), (Z.leb_spec 0 k); try lia; reflexivity.
    - apply IHt; lia. }
  apply Hshift; lia.
Qed.

Lemma lastIndexOfAt_absent c s i acc :
  includes s c = false -> lastIndexOfAt c s i acc = acc.
Proof.
  revert i acc. induction s as [|x s IH]; simpl; intros i acc H; [reflexivity|].
  apply includes_false_cons in H as [Hx Hs]. rewrite Hx. now apply IH.
Qed.

Lemma lastIndexOfAt_seam c a b i acc :
  includes b c = false ->
  lastIndexOfAt c (String.append a (String c b)) i acc = i + len a.
Proof.
  intros Hb. revert i acc. induction a as [|x a IH]; intros i acc.
  - rewrite append_nil. simpl.
    rewrite Ascii.eqb_refl. rewrite lastIndexOfAt_absent by exact Hb.
    unfold len. simpl. lia.
  - rewrite append_cons. simpl. rewrite IH. rewrite len_cons. lia.
Qed.

Lemma lastIndexOf_seam c a b :
  includes b c = false -> lastIndexOf (String.append a (String c b)) c = len a.
Proof. intros Hb. unfold lastIndexOf. now rewrite lastIndexOfAt_seam. Qed.

Lemma all_excludes (f : ascii -> bool) s c :
  all f s = true -> f c = false -> includes s c = false.
Proof.
  intros Hall Hc. unfold includes, indexOf. generalize 0 at 2 as i.
  induction s as [|x s IH]; simpl; intros i.
  - reflexivity.
  - simpl in Hall. apply andb_true_iff in Hall as [Hx Hs].
    destruct (Ascii.eqb_spec x c) as [->|_]; [congruence|]. now apply IH.
Qed.


(** Text without white space is left alone by [trim]. *)
Definition noSpace (s : string) : bool := all (fun c => negb (isWhiteSpace c)) s.

Lemma trimEnd_noSpace s : noSpace s = true -> trimEnd s = s.
Proof.
  unfold noSpace. induction s as [|c s IH]; simpl; [reflexivity|].
  intros H. apply andb_true_iff in H as [Hc Hs].
  rewrite (IH Hs). apply negb_true_iff in Hc. now rewrite Hc.
Qed.

Lemma trimStart_noSpace s : noSpace s = true -> trimStart s = s.
Proof.
  unfold noSpace. destruct s as [|c s]; simpl; [reflexivity|].
  intros H. apply andb_true_iff in H as [Hc _].
  apply negb_true_iff in Hc. now rewrite Hc.
Qed.

Lemma trim_noSpace s : noSpace s = true -> trim s = s.
Proof.
  intros H. unfold trim. rewrite (trimStart_noSpace s H). now apply trimEnd_noSpace.
Qed.

Lemma all_append f a b : all f (String.append a b) = all f a && all f b.
Proof.
  induction a as [|c a IH]; [reflexivity|].
  rewrite append_cons. simpl. now rewrite IH, andb_assoc.
Qed.

Lemma indexOfAt_sign c t j k :
  0 <= j -> 0 <= k -> (0 <=? indexOfAt c t j) = (0 <=? indexOfAt c t k).
Proof.
  revert j k. induction t as [|y t IHt]; simpl; intros j k Hj Hk; [reflexivity|].
  destruct (Ascii.eqb y c).
  - destruct (Z.leb_spec 0 j), (Z.leb_spec 0 k); try lia; reflexivity.
  - apply IHt; lia.
Qed.

Lemma includes_cons c x s :
  includes (String x s) c = Ascii.eqb x c || includes s c.
Proof.
  unfold includes, indexOf. simpl. destruct (Ascii.eqb x c); [reflexivity|].
  simpl. apply indexOfAt_sign; lia.
Qed.

Lemma includes_append c a b :
  includes (String.append a b) c = includes a c || includes b c.
Proof.
  induction a as [|x a IH].
  - rewrite append_nil. reflexivity.
  - rewrite append_cons, !includes_cons, IH. now rewrite orb_assoc.
Qed.

End JsFacts.

(* ===================================================================== *)
(** * The egress worker: message codec, addresses, session life cycle     *)
(* ===================================================================== *)

Module EgressFacts.

Import Js JsFacts Egress.

(** [textEncoder.encode(s)]: UTF-8 of a string whose code units are below
    U+0100. *)
Definition encodeChar (c : ascii) : list Z :=
  let n := Z.of_nat (nat_of_ascii c) in
  if n <? 128 then [n]
  else [Z.lor 192 (Z.shiftr n 6); Z.lor 128 (Z.land n 63)].

Fixpoint textEncoder_encode (s : string) : list Z :=
  match s with
  | EmptyString => []
  | String c s' => encodeChar c ++ textEncoder_encode s'
  end.

(** [String(payload)] for a string, an ArrayBuffer and [null]. *)
Definition toString (payload : Payload) : string :=
  match payload with
  | TextPayload s => s
  | BytesPayload _ => "[object ArrayBuffer]"
  | Null => "null"
  end.

(** [Message.encode(type, payload)] *)
Definition encode (type : string) (payload : Payload) : WsData :=
  if String.eqb type "DATA" then
    match payload with
    | BytesPayload b => WsBinary b
    | _ => WsBinary (textEncoder_encode (toString payload))
    end
  else
    match payload with
    | Null => WsText type
    | _ => WsText (type +:+ ":" +:+ toString payload)
    end.

(** The frame [sendError] puts on the WebSocket, given the JSON text of
    [{msg, name}]. *)
Definition errorFrame (json : string) : WsData := encode "ERROR" (TextPayload json).

(** Messages handled one after the other, each to its end. *)
Section Run.

Variable Number : string -> number.
Variable dial : Attempt -> Outcome.
Variable cfg : Config.

Fixpoint runSession (s : Session) (msgs : list WsData) : Session * list Event :=
  match msgs with
  | [] => (s, [])
  | m :: rest =>
      let (s1, e1) := onWsMessage Number dial cfg s m in
      let (s2, e2) := runSession s1 rest in
      (s2, e1 ++ e2)
  end.

End Run.



Example encode_ex :
  encode "ERROR" (TextPayload "{}") = WsText "ERROR:{}" /\
  encode "PING" Null = WsText "PING" /\
  encode "DATA" (TextPayload "hi") = WsBinary [104; 105] /\
  encode "DATA" Null = WsBinary [110; 117; 108; 108].
Proof. repeat split. Qed.

Lemma parse_prefixed (pre p : string) (t : MsgType) :
  (forall data, startsWith data pre = true ->
     parse (WsText data) = mkParsed t (TextPayload (sliceFrom data (len pre)))) ->
  parse (WsText (pre +:+ p)) = mkParsed t (TextPayload p).
Proof.
  intros H. rewrite H by apply startsWith_append.
  now rewrite sliceFrom_suffix.
Qed.

Lemma parse_connect p :
  parse (WsText ("CONNECT:" +:+ p)) = mkParsed CONNECT (TextPayload p).
Proof.
  apply parse_prefixed. intros data H. unfold parse. now rewrite H.
Qed.

Lemma parse_error p :
  parse (WsText ("ERROR:" +:+ p)) = mkParsed ERROR (TextPayload p).
Proof.
  assert (H : startsWith ("ERROR:" +:+ p) "ERROR:" = true) by apply startsWith_append.
  unfold parse. rewrite H.
  change (startsWith ("ERROR:" +:+ p) "CONNECT:") with false.
  change (startsWith ("ERROR:" +:+ p) "DATA:") with false.
  change 6 with (len "ERROR:"). now rewrite sliceFrom_suffix.
Qed.

(** X4: [Message.parse] undoes [Message.encode] for the frames of the
    protocol: a CONNECT or ERROR frame with a text payload and a PING, PONG
    or CLOSE frame without payload come back with the same type and
    payload; DATA comes back as DATA with the payload's bytes (a text
    payload as its UTF-8 bytes).  A RAW message does not come back: its
    encoding [RAW:payload] is parsed as a RAW message whose payload is the
    whole frame. *)
Theorem encode_parse_round_trip (p : string) (b : list Z) :
  parse (encode "CONNECT" (TextPayload p)) = mkParsed CONNECT (TextPayload p) /\
  parse (encode "ERROR" (TextPayload p)) = mkParsed ERROR (TextPayload p) /\
  parse (encode "PING" Null) = mkParsed PING Null /\
  parse (encode "PONG" Null) = mkParsed PONG Null /\
  parse (encode "CLOSE" Null) = mkParsed CLOSE Null /\
  parse (encode "DATA" (BytesPayload b)) = mkParsed DATA (BytesPayload b) /\
  parse (encode "DATA" (TextPayload p)) =
    mkParsed DATA (BytesPayload (textEncoder_encode p)) /\
  parse (encode "RAW" (TextPayload p)) = mkParsed RAW (TextPayload ("RAW:" +:+ p)).
Proof.
  repeat split.
  - apply parse_connect.
  - apply parse_error.
Qed.


Lemma startsWith_cons a p c s :
  startsWith (String c s) (String a p) =
  if ascii_dec a c then startsWith s p else false.
Proof. reflexivity. Qed.

Lemma startsWith_nil s : startsWith s EmptyString = true.
Proof. destruct s; reflexivity. Qed.

Lemma isEmpty_append_cons a c b : isEmpty (a +:+ String c b) = false.
Proof. destruct a; reflexivity. Qed.

Lemma startsWith_bracket_false (h s : string) :
  startsWith h "[" = false -> h <> EmptyString -> startsWith (h +:+ s) "[" = false.
Proof.
  destruct h as [|c h]; [congruence|]. intros H _. rewrite append_cons.
  change "["%string with (String "["%char EmptyString) in *.
  rewrite startsWith_cons in *.
  destruct (ascii_dec "[" c); [|reflexivity].
  rewrite startsWith_nil in H. discriminate.
Qed.

Lemma len_pos_cons s : s <> EmptyString -> 0 < len s.
Proof. destruct s; [congruence|]. intros _. rewrite len_cons. pose proof (len_nonneg s). lia. Qed.

(** X5: [parseAddress] splits [host:port] and [[host]:port] back into
    the parts they were joined from: for text without white space, a
    non-empty host that does not start with a bracket and a port without
    colon give [(host, port)]; a bracketed host without closing bracket
    inside gives [(host, port)] whatever the port text is. *)
Theorem parseAddress_round_trip (h port : string) :
  noSpace h = true -> noSpace port = true ->
  (h <> EmptyString -> startsWith h "[" = false -> includes port ":" = false ->
     parseAddress (h +:+ ":" +:+ port) = Ok (h, port)) /\
  (includes h "]" = false ->
     parseAddress ("[" +:+ h +:+ "]:" +:+ port) = Ok (h, port)).
Proof.
  intros Hh Hp. split.
  - intros Hne Hbr Hcolon. unfold parseAddress.
    change (h +:+ ":" +:+ port) with (h +:+ String ":" port).
    rewrite isEmpty_append_cons.
    rewrite trim_noSpace.
    2:{ unfold noSpace in *. rewrite all_append, Hh. simpl. exact Hp. }
    rewrite startsWith_bracket_false by assumption. simpl andb.
    rewrite lastIndexOf_seam by exact Hcolon.
    pose proof (len_pos_cons h Hne) as Hlen.
    destruct (Z.leb_spec (len h) 0); [lia|].
    rewrite slice_prefix.
    replace (len h + 1) with (len (h +:+ ":")) by (rewrite len_append; reflexivity).
    replace (h +:+ String ":" port) with ((h +:+ ":") +:+ port).
    2:{ clear. induction h as [|c h IH]; [reflexivity|].
        rewrite !append_cons. now rewrite IH. }
    now rewrite sliceFrom_suffix.
  - intros Hclose. unfold parseAddress.
    change ("[" +:+ h +:+ "]:" +:+ port)
      with (String "[" (h +:+ String "]" (String ":" port))).
    cbn [isEmpty].
    rewrite trim_noSpace.
    2:{ unfold noSpace in *. simpl. rewrite all_append, Hh. simpl. exact Hp. }
    set (tail := String "]" (String ":" port)).
    set (addr := String "[" (h +:+ tail)).
    pose proof (len_nonneg h) as Hlh. pose proof (len_nonneg tail) as Hlt.
    assert (Hin : includes addr "]" = true).
    { unfold addr. rewrite includes_cons, includes_append. unfold tail.
      rewrite (includes_cons "]" "]"). simpl. apply orb_true_r. }
    rewrite Hin.
    assert (Hsw : startsWith addr "[" = true).
    { unfold addr. change "["%string with (String "["%char EmptyString).
      rewrite startsWith_cons, startsWith_nil.
      destruct (ascii_dec "[" "[") as [_|Hne]; [reflexivity|congruence]. }
    rewrite Hsw. simpl andb. cbv iota.
    assert (Hidx : indexOf addr "]" = 1 + len h).
    { unfold addr, indexOf. simpl.
      rewrite (indexOfAt_skip "]" h tail _ Hclose). unfold tail. simpl. lia. }
    rewrite Hidx.
    assert (Hhost : slice addr 1 (1 + len h) = h).
    { unfold slice, sliceIndex, addr. rewrite len_cons, len_append.
      destruct (Z.ltb_spec 1 0); [lia|].
      destruct (Z.ltb_spec (1 + len h) 0); [lia|].
      rewrite !Z.min_l by lia.
      replace (Z.to_nat 1) with 1%nat by lia.
      replace (Z.to_nat (1 + len h - 1)) with (String.length h) by (unfold len; lia).
      simpl. apply substring_prefix. }
    rewrite Hhost.
    assert (Hrest : sliceFrom addr (1 + len h + 1) = String ":" port).
    { replace addr with ((String "[" (h +:+ "]")) +:+ String ":" port).
      2:{ unfold addr, tail. rewrite append_cons. f_equal. clear.
          induction h as [|c h IH]; [reflexivity|].
          rewrite !append_cons. now rewrite IH. }
      replace (1 + len h + 1) with (len (String "[" (h +:+ "]")))
        by (rewrite len_cons, len_append; change (len "]") with 1; lia).
      apply sliceFrom_suffix. }
    rewrite Hrest.
    change (indexOf (String ":" port) ":") with 0. simpl Z.leb. cbv iota.
    change (String ":" port) with (":" +:+ port).
    change (0 + 1) with (len ":"). now rewrite sliceFrom_suffix.
Qed.

Lemma parseAddress_round_trip_witness :
  parseAddress "example.com:443" = Ok ("example.com", "443")%string /\
  parseAddress "[2001:db8::1]:8443" = Ok ("2001:db8::1", "8443")%string.
Proof.
  destruct (parseAddress_round_trip "example.com" "443" eq_refl eq_refl) as [H1 _].
  destruct (parseAddress_round_trip "2001:db8::1" "8443" eq_refl eq_refl) as [_ H2].
  split.
  - apply H1; [discriminate|reflexivity|reflexivity].
  - apply H2. reflexivity.
Defined.


Section Life.

Variable Number : string -> number.
Variable dial : Attempt -> Outcome.
Variable cfg : Config.








End Life.






(** The bracketed branch of [parseAddress]: the host is what stands between
    the opening bracket and the first closing one, the port what follows the
    first colon after it. *)
Lemma parseAddress_bracketed (h rest : string) :
  noSpace h = true -> noSpace rest = true -> includes h "]" = false ->
  parseAddress ("[" +:+ h +:+ "]" +:+ rest) =
    Ok (h, if 0 <=? indexOf rest ":"
           then sliceFrom rest (indexOf rest ":" + 1) else ""%string).
Proof.
  intros Hh Hr Hclose. unfold parseAddress.
  change ("[" +:+ h +:+ "]" +:+ rest) with (String "[" (h +:+ String "]" rest)).
  cbn [isEmpty].
  rewrite trim_noSpace.
  2:{ unfold noSpace in *. simpl. rewrite all_append, Hh. simpl. exact Hr. }
  set (tail := String "]" rest).
  set (addr := String "[" (h +:+ tail)).
  pose proof (len_nonneg h) as Hlh. pose proof (len_nonneg tail) as Hlt.
  assert (Hin : includes addr "]" = true).
  { unfold addr. rewrite includes_cons, includes_append. unfold tail.
    rewrite (includes_cons "]" "]"). simpl. apply orb_true_r. }
  rewrite Hin.
  assert (Hsw : startsWith addr "[" = true).
  { unfold addr. change "["%string with (String "["%char EmptyString).
    rewrite startsWith_cons, startsWith_nil.
    destruct (ascii_dec "[" "[") as [_|Hne]; [reflexivity|congruence]. }
  rewrite Hsw. simpl andb. cbv iota.
  assert (Hidx : indexOf addr "]" = 1 + len h).
  { unfold addr, indexOf. simpl.
    rewrite (indexOfAt_skip "]" h tail _ Hclose). unfold tail. simpl. lia. }
  rewrite Hidx.
  assert (Hhost : slice addr 1 (1 + len h) = h).
  { unfold slice, sliceIndex, addr. rewrite len_cons, len_append.
    destruct (Z.ltb_spec 1 0); [lia|].
    destruct (Z.ltb_spec (1 + len h) 0); [lia|].
    rewrite !Z.min_l by lia.
    replace (Z.to_nat 1) with 1%nat by lia.
    replace (Z.to_nat (1 + len h - 1)) with (String.length h) by (unfold len; lia).
    simpl. apply substring_prefix. }
  rewrite Hhost.
  assert (Hrest : sliceFrom addr (1 + len h + 1) = rest).
  { replace addr with ((String "[" (h +:+ "]")) +:+ rest).
    2:{ unfold addr, tail. rewrite append_cons. f_equal. clear.
        induction h as [|c h IH]; [reflexivity|].
        rewrite !append_cons. now rewrite IH. }
    replace (1 + len h + 1) with (len (String "[" (h +:+ "]")))
      by (rewrite len_cons, len_append; change (len "]") with 1; lia).
    apply sliceFrom_suffix. }
  now rewrite Hrest.
Qed.

End EgressFacts.

(* ===================================================================== *)
(** * Ingress: the tunnel handshake with the egress                        *)
(* ===================================================================== *)

Module Handshake.

Import Js JsFacts Tunnel.

Definition modeSOCKS5 : Z := 1.
Definition modeHTTPConnect : Z := 2.
Definition modeHTTPProxy : Z := 3.

Definition CRLF : string := String (ascii_of_nat 13) (String (ascii_of_nat 10) EmptyString).

(** [sendErrorResponse]: the [conn.Write] calls it makes. *)
Definition sendErrorResponse (mode : Z) : list (list Z) :=
  if mode =? modeSOCKS5 then [[5; 4; 0; 1; 0; 0; 0; 0; 0; 0]]
  else if (mode =? modeHTTPConnect) || (mode =? modeHTTPProxy)
  then [bytesOf ("HTTP/1.1 502 Bad Gateway" +:+ CRLF +:+ CRLF)]
  else [].

(** [sendSuccessResponse]: the bytes it hands to [conn.Write], if any. *)
Definition sendSuccessResponse (mode : Z) : list (list Z) :=
  if mode =? modeSOCKS5 then [[5; 0; 0; 1; 0; 0; 0; 0; 0; 0]]
  else if mode =? modeHTTPConnect
  then [bytesOf ("HTTP/1.1 200 Connection Established" +:+ CRLF +:+ CRLF)]
  else [].

(** What [handleTunnel] meets on its way to the relay loops. *)
Record Env := mkEnv {
  isRunning : bool;           (* [ps.isRunning] *)
  bypass : bool;              (* [ps.shouldBypassProxy(targetHost)] *)
  dialed : bool;              (* [dialWebSocketWithECH(2)] returned a connection *)
  firstRead : string;         (* what [conn.Read] returns within 100 ms *)
  wsWriteOk : bool;           (* [WriteMessage] of the CONNECT frame succeeds *)
  response : option string;   (* [ReadMessage]: the message, or an error *)
  clientWriteOk : bool        (* [conn.Write] of the success response succeeds *)
}.

Inductive Ev :=
| ClientWrite (bytes : list Z)          (* [conn.Write] was called *)
| WsWrite (mt : Z) (msg : string)       (* a frame went out *)
| WsClosed.                             (* the deferred [wsConn.Close()] *)

Inductive Result :=
| Stopping
| Direct (target firstFrame : string)   (* handed to [handleDirectConnection] *)
| Failure
| Relaying.                             (* the two forwarding loops start *)

(** [fmt.Sprintf("CONNECT:%s|%s", target, firstFrame)] *)
Definition connectMsg (target firstFrame : string) : string :=
  "CONNECT:" +:+ target +:+ "|" +:+ firstFrame.

(** [handleTunnel] up to the forwarding loops. *)
Definition handleTunnel (env : Env) (target : string) (mode : Z) (firstFrame : string)
  : list Ev * Result :=
  if negb (isRunning env) then ([], Stopping)
  else if bypass env then ([], Direct target firstFrame)
  else if negb (dialed env) then (map ClientWrite (sendErrorResponse mode), Failure)
  else
    let firstFrame :=
      if isEmpty firstFrame && (mode =? modeSOCKS5) then firstRead env else firstFrame in
    if negb (wsWriteOk env)
    then (map ClientWrite (sendErrorResponse mode) ++ [WsClosed], Failure)
    else
      let sent := WsWrite TextMessage (connectMsg target firstFrame) in
      match response env with
      | None => (sent :: map ClientWrite (sendErrorResponse mode) ++ [WsClosed], Failure)
      | Some response =>
          if startsWith response "ERROR:" || negb (String.eqb response "CONNECTED")
          then (sent :: map ClientWrite (sendErrorResponse mode) ++ [WsClosed], Failure)
          else if negb (Nat.eqb (length (sendSuccessResponse mode)) 0)
                  && negb (clientWriteOk env)
          then (sent :: map ClientWrite (sendSuccessResponse mode) ++ [WsClosed], Failure)
          else (sent :: map ClientWrite (sendSuccessResponse mode), Relaying)
      end.

Definition clientWrites (evs : list Ev) : list (list Z) :=
  omap (fun e => match e with ClientWrite b => Some b | _ => None end) evs.

Definition framesSent (evs : list Ev) : list (Z * string) :=
  omap (fun e => match e with WsWrite mt m => Some (mt, m) | _ => None end) evs.


(** ** The handshake against the egress session *)

Definition isAscii (c : ascii) : bool := (nat_of_ascii c <? 128)%nat.

(** Text that a Go byte string and a JavaScript string hold alike. *)
Definition asciiText (s : string) : bool := all isAscii s.

Section EndToEnd.

(** [JSON.stringify({msg, name})] of [sendError]. *)
Variable stringify : Egress.JsError -> string.
Variable Number : string -> Egress.number.
Variable dial : Egress.Attempt -> Egress.Outcome.
Variable cfg : Egress.Config.

(** The text frame an event of the egress session puts on the WebSocket. *)
Definition frameOf (e : Egress.Event) : option string :=
  match e with
  | Egress.WsSend t => Some t
  | Egress.WsSendError err =>
      match EgressFacts.errorFrame (stringify err) with
      | Egress.WsText t => Some t
      | Egress.WsBinary _ => None
      end
  | _ => None
  end.

(** The first frame of the session's answer. *)
Definition firstFrameSent (evs : list Egress.Event) : option string :=
  head (omap frameOf evs).

Lemma frames_closeRemote r : omap frameOf (Egress.closeRemote r) = [].
Proof. destruct r; reflexivity. Qed.

Lemma tryAttempts_frames remote attempts fp :
  let r := Egress.tryAttempts dial remote attempts fp in
  match Egress.thrown r with
  | Some _ => omap frameOf (Egress.events r) = []
  | None =>
      (Egress.remoteAfter r <> None /\
       omap frameOf (Egress.events r) = ["CONNECTED"%string]) \/
      (Egress.events r = [] /\ Egress.remoteAfter r = remote /\ attempts = [])
  end.
Proof.
  revert remote. induction attempts as [|a rest IH]; intros remote; simpl.
  - right. auto.
  - destruct (dial a) as [|e]; simpl.
    + left. split; [discriminate|]. destruct (Egress.truthy fp); reflexivity.
    + destruct (negb (Egress.isCFError e) || Nat.eqb (length rest) 0) eqn:Hstop; simpl.
      * apply frames_closeRemote.
      * specialize (IH None). simpl in IH.
        destruct (Egress.thrown (Egress.tryAttempts dial None rest fp)).
        -- rewrite omap_app, frames_closeRemote. exact IH.
        -- destruct IH as [[Hrem Hfr]|(_ & _ & Hnil)].
           ++ left. split; [exact Hrem|].
              rewrite omap_app, frames_closeRemote. exact Hfr.
           ++ subst rest. rewrite orb_true_r in Hstop. discriminate.
Qed.

End EndToEnd.


Lemma connectRemote_frames stringify Number dial cfg target fp :
  let r := Egress.connectRemote Number dial cfg None target fp in
  match Egress.thrown r with
  | Some _ => omap (frameOf stringify) (Egress.events r) = []
  | None =>
      Egress.remoteAfter r <> None /\
      omap (frameOf stringify) (Egress.events r) = ["CONNECTED"%string]
  end.
Proof.
  unfold Egress.connectRemote.
  destruct (Egress.checkTarget Number cfg target) as [[rawHost port]|e]; [|reflexivity].
  destruct (Egress.buildAttempts cfg rawHost port) as [attempts|e] eqn:Hb; [|reflexivity].
  assert (Hne : attempts <> []).
  { unfold Egress.buildAttempts in Hb. destruct (Egress.isIpAddress rawHost).
    - injection Hb as <-. discriminate.
    - destruct (Egress.fallbackAttempts (Egress.FALLBACK_IPS cfg) port); simpl in Hb;
        [injection Hb as <-|]; discriminate. }
  pose proof (tryAttempts_frames stringify dial None attempts fp) as H. simpl in H.
  destruct (Egress.thrown (Egress.tryAttempts dial None attempts fp)); [exact H|].
  destruct H as [H|(_ & _ & H)]; [exact H|contradiction].
Qed.

(** X7: the ingress client and the egress session agree on the outcome
    of the handshake.  When the server runs, the target is routed through
    the proxy, the WebSocket is dialed and writes succeed, [handleTunnel]
    sends exactly one frame, [CONNECT:target|first]; if the first frame the
    egress session answers with is what the client reads, the client starts
    relaying exactly when the egress session holds an open upstream
    connection, and it writes the success reply of its mode to the local
    client in that case and the error reply of its mode otherwise. *)
Theorem handshake_end_to_end
    (stringify : Egress.JsError -> string) (Number : string -> Egress.number)
    (dial : Egress.Attempt -> Egress.Outcome) (cfg : Egress.Config)
    (env : Env) (target : string) (mode : Z) (firstFrame : string) :
  let first :=
    if isEmpty firstFrame && (mode =? modeSOCKS5) then firstRead env else firstFrame in
  let egress := Egress.onWsMessage Number dial cfg Egress.INIT
                  (Egress.WsText (connectMsg target first)) in
  let client := handleTunnel env target mode firstFrame in
  asciiText (connectMsg target first) = true ->
  isRunning env = true -> bypass env = false -> dialed env = true ->
  wsWriteOk env = true -> clientWriteOk env = true ->
  response env = firstFrameSent stringify (snd egress) ->
  framesSent (fst client) = [(TextMessage, connectMsg target first)] /\
  (snd client = Relaying <-> Egress.remote (fst egress) <> None) /\
  clientWrites (fst client) =
    match Egress.remote (fst egress) with
    | Some _ => sendSuccessResponse mode
    | None => sendErrorResponse mode
    end.
Proof.
  intros first egress client _ Hrun Hby Hdial Hws Hcw Hresp.
  assert (Hcl : forall l, clientWrites (map ClientWrite l) = l).
  { induction l as [|x l IH]; [reflexivity|].
    change (clientWrites (map ClientWrite (x :: l)))
      with (x :: clientWrites (map ClientWrite l)).
    now rewrite IH. }
  assert (Hfr : forall l, framesSent (map ClientWrite l) = []).
  { induction l as [|x l IH]; [reflexivity|]. exact IH. }
  assert (Hcl' : forall l, clientWrites (map ClientWrite l ++ [WsClosed]) = l).
  { intros l. unfold clientWrites. rewrite omap_app. simpl. rewrite app_nil_r.
    apply Hcl. }
  assert (Hfr' : forall l, framesSent (map ClientWrite l ++ [WsClosed]) = []).
  { intros l. unfold framesSent. rewrite omap_app. simpl. rewrite app_nil_r.
    apply Hfr. }
  unfold client, handleTunnel. rewrite Hrun, Hby, Hdial, Hws. simpl negb. cbv iota.
  fold first. rewrite Hresp, Hcw. clear Hresp.
  unfold egress, Egress.onWsMessage. simpl Egress.closed. cbv iota.
  unfold connectMsg. rewrite EgressFacts.parse_connect.
  simpl Egress.type. simpl Egress.payload. cbv iota. simpl Egress.remote.
  set (text := target +:+ "|" +:+ first).
  pose proof (connectRemote_frames stringify Number dial cfg
                (Egress.connectTarget text) (Egress.connectFirstPayload text)) as H.
  simpl in H.
  set (c := Egress.connectRemote Number dial cfg None (Egress.connectTarget text)
              (Egress.connectFirstPayload text)) in *.
  assert (Hsent : forall x l, framesSent (WsWrite TextMessage x :: l)
                              = (TextMessage, x) :: framesSent l) by reflexivity.
  assert (Hsent' : forall x l, clientWrites (WsWrite TextMessage x :: l)
                               = clientWrites l) by reflexivity.
  destruct (Egress.thrown c) as [e|].
  - unfold Egress.dispose. simpl Egress.closed. cbv iota. simpl fst. simpl snd.
    unfold firstFrameSent. rewrite omap_app, H.
    change (omap (frameOf stringify) (Egress.sendError e :: ?l))
      with (("ERROR:" +:+ stringify e) :: omap (frameOf stringify) l).
    rewrite app_nil_l.
    change (head (("ERROR:" +:+ stringify e) :: ?l)) with (Some ("ERROR:" +:+ stringify e)).
    cbv iota. rewrite startsWith_append. simpl orb. cbv iota.
    simpl fst. simpl snd. rewrite Hsent, Hsent', Hfr', Hcl'.
    repeat split; try discriminate. intros Hn. now contradiction Hn.
  - destruct H as [Hrem Hframes].
    simpl fst. simpl snd. unfold firstFrameSent. rewrite Hframes.
    change (head ["CONNECTED"%string]) with (Some "CONNECTED"%string). cbv iota.
    change (startsWith "CONNECTED" "ERROR:") with false.
    change (String.eqb "CONNECTED" "CONNECTED") with true.
    simpl orb. simpl negb. rewrite andb_false_r. cbv iota.
    simpl fst. simpl snd. rewrite Hsent, Hsent', Hfr, Hcl.
    destruct (Egress.remoteAfter c); [|contradiction].
    repeat split; auto; discriminate.
Qed.


Definition sampleEnv : Env := mkEnv true false true "" true (Some "CONNECTED"%string) true.

Lemma handshake_end_to_end_witness :
  snd (handleTunnel sampleEnv "example.com:443" modeSOCKS5 "") = Relaying /\
  clientWrites (fst (handleTunnel sampleEnv "example.com:443" modeSOCKS5 ""))
    = [[5; 0; 0; 1; 0; 0; 0; 0; 0; 0]].
Proof.
  destruct (handshake_end_to_end Egress.message Egress.decimalNumber Egress.onlyFallback
              Egress.sampleConfig sampleEnv "example.com:443" modeSOCKS5 "")
    as (_ & H2 & H3); try reflexivity.
  split.
  - apply H2. vm_compute. discriminate.
  - exact H3.
Defined.


(** ** The CONNECT frame as the egress implementations cut it *)

Lemma append_assoc (a b c : string) : (a +:+ b) +:+ c = a +:+ (b +:+ c).
Proof.
  induction a as [|x a IH]; [reflexivity|]. rewrite !append_cons. now rewrite IH.
Qed.

(** [s.substring(len a, len a + len b)] of [a + b + c] is [b]. *)
Lemma substring_middle (a b c : string) :
  substring (a +:+ b +:+ c) (len a) (len a + len b) = b.
Proof.
  unfold substring. rewrite !len_append.
  pose proof (len_nonneg a). pose proof (len_nonneg b). pose proof (len_nonneg c).
  rewrite (Z.max_l (len a) 0) by lia. rewrite (Z.max_l (len a + len b) 0) by lia.
  rewrite (Z.min_l (len a)) by lia. rewrite (Z.min_l (len a + len b)) by lia.
  rewrite Z.min_l by lia. rewrite Z.max_r by lia.
  replace (Z.to_nat (len a)) with (String.length a) by (unfold len; lia).
  replace (Z.to_nat (len a + len b - len a)) with (String.length b)
    by (unfold len; lia).
  rewrite substring_skip. apply substring_prefix.
Qed.

Lemma substringFrom_suffix (a b : string) : substringFrom (a +:+ b) (len a) = b.
Proof.
  unfold substringFrom, substring. rewrite !len_append.
  pose proof (len_nonneg a). pose proof (len_nonneg b).
  rewrite (Z.max_l (len a) 0) by lia. rewrite (Z.max_l (len a + len b) 0) by lia.
  rewrite (Z.min_l (len a)) by lia. rewrite (Z.min_l (len a + len b)) by lia.
  rewrite Z.min_l by lia. rewrite Z.max_r by lia.
  replace (Z.to_nat (len a)) with (String.length a) by (unfold len; lia).
  replace (Z.to_nat (len a + len b - len a)) with (String.length b)
    by (unfold len; lia).
  rewrite substring_skip. apply substring_all.
Qed.

Lemma indexOfFrom_seam (a b c : string) (ch : ascii) :
  includes b ch = false ->
  indexOfFrom (a +:+ b +:+ String ch c) ch (len a) = len a + len b.
Proof.
  intros Hb. unfold indexOfFrom.
  pose proof (len_nonneg a). pose proof (len_nonneg (b +:+ String ch c)).
  rewrite (len_append a). rewrite (Z.max_l (len a) 0) by lia.
  rewrite Z.min_l by lia.
  rewrite substringFrom_suffix. rewrite indexOf_seam by exact Hb.
  pose proof (len_nonneg b). destruct (Z.ltb_spec (len b) 0); [lia|reflexivity].
Qed.

(** X8: both egress implementations cut the client's CONNECT frame back
    into the parts [handleTunnel] formatted it from.  For a target without
    the separator [|], [TcpWsSession] takes [target] as the address to
    parse and [first] as the first payload, and [worker.js] parses
    [target] and keeps [first] as the first frame; the first frame may hold
    the separator itself. *)
Theorem connect_frame_round_trip (target first : string) :
  includes target "|" = false ->
  let frame := connectMsg target first in
  Egress.parse (Egress.WsText frame) =
    Egress.mkParsed Egress.CONNECT (Egress.TextPayload (target +:+ "|" +:+ first)) /\
  Egress.connectTarget (target +:+ "|" +:+ first) = target /\
  Egress.connectFirstPayload (target +:+ "|" +:+ first) = Egress.TextPayload first /\
  Worker.handleConnect frame =
    match Worker.parseAddress target with
    | Some (host, port) => Some (Worker.mkDial host port first)
    | None => None
    end.
Proof.
  intros Htarget frame.
  change (target +:+ "|" +:+ first) with (target +:+ String "|" first).
  assert (Hidx : indexOf (target +:+ String "|" first) "|" = len target)
    by (apply indexOf_seam; exact Htarget).
  pose proof (len_nonneg target) as Hlen.
  repeat split.
  - apply EgressFacts.parse_connect.
  - unfold Egress.connectTarget. rewrite Hidx.
    destruct (Z.leb_spec 0 (len target)); [|lia]. apply slice_prefix.
  - unfold Egress.connectFirstPayload. rewrite Hidx.
    destruct (Z.leb_spec 0 (len target)); [|lia]. f_equal.
    change (target +:+ String "|" first) with (target +:+ ("|" +:+ first)).
    rewrite <- append_assoc.
    replace (len target + 1) with (len (target +:+ "|"))
      by (rewrite len_append; reflexivity).
    apply sliceFrom_suffix.
  - unfold Worker.handleConnect, frame, connectMsg.
    change 8 with (len "CONNECT:").
    change (target +:+ "|" +:+ first) with (target +:+ String "|" first).
    rewrite (indexOfFrom_seam "CONNECT:" target first "|" Htarget).
    change (target +:+ String "|" first) with (target +:+ ("|" +:+ first)).
    rewrite substring_middle.
    replace ("CONNECT:" +:+ target +:+ ("|" +:+ first))
      with (("CONNECT:" +:+ target +:+ "|") +:+ first).
    2:{ rewrite !append_assoc. reflexivity. }
    replace (len "CONNECT:" + len target + 1) with (len ("CONNECT:" +:+ target +:+ "|"))
      by (rewrite !len_append; change (len "|") with 1; lia).
    rewrite substringFrom_suffix. reflexivity.
Qed.

Lemma connect_frame_round_trip_witness :
  Worker.handleConnect (connectMsg "example.com:8443" "GET / HTTP/1.1|x")
  = Some (Worker.mkDial "example.com" 8443 "GET / HTTP/1.1|x").
Proof.
  apply (connect_frame_round_trip "example.com:8443" "GET / HTTP/1.1|x"). reflexivity.
Defined.

End Handshake.

(* ===================================================================== *)
(** * Decimal text                                                         *)
(* ===================================================================== *)

Module Fmt.

Import Js JsFacts.

Definition digitChar (d : Z) : ascii := ascii_of_nat (48 + Z.to_nat d).

(** The decimal digits of [n], most significant first, put before [acc]. *)
Fixpoint digits (fuel : nat) (n : Z) (acc : string) : string :=
  let acc' := String (digitChar (n mod 10)) acc in
  match fuel with
  | O => acc'
  | S f => if n / 10 =? 0 then acc' else digits f (n / 10) acc'
  end.

(** [fmt.Sprintf("%d", n)] *)
Definition decimal (n : Z) : string :=
  if n <? 0 then String "-" (digits (Z.to_nat (Z.log2 (- n))) (- n) EmptyString)
  else digits (Z.to_nat (Z.log2 n)) n EmptyString.

Example decimal_ex :
  decimal 0 = "0"%string /\ decimal 443 = "443"%string /\
  decimal 65535 = "65535"%string /\ decimal (-17) = "-17"%string.
Proof. vm_compute. repeat split. Qed.

Lemma digitChar_digit d :
  0 <= d < 10 -> isDigit (digitChar d) = true /\ digitValue (digitChar d) = d.
Proof.
  intros H.
  assert (Hd : d = 0 \/ d = 1 \/ d = 2 \/ d = 3 \/ d = 4 \/ d = 5 \/ d = 6 \/
               d = 7 \/ d = 8 \/ d = 9) by lia.
  repeat (destruct Hd as [->|Hd]; [split; reflexivity|]). subst d. split; reflexivity.
Qed.

Lemma digitsPrefix_cons c s acc :
  digitsPrefix (String c s) acc =
  if isDigit c
  then digitsPrefix s (Some (10 * (match acc with Some v => v | None => 0 end)
                             + digitValue c))
  else acc.
Proof. reflexivity. Qed.

Lemma all_cons (f : ascii -> bool) c s : all f (String c s) = f c && all f s.
Proof. reflexivity. Qed.

Lemma digits_parse fuel : forall n acc,
  0 <= n < 2 ^ (Z.of_nat fuel + 1) ->
  digitsPrefix (digits fuel n acc) None = digitsPrefix acc (Some n).
Proof.
  assert (Hlast : forall n acc, 0 <= n < 10 ->
            digitsPrefix (String (digitChar (n mod 10)) acc) None
            = digitsPrefix acc (Some n)).
  { intros n acc Hn. rewrite Z.mod_small by lia. rewrite digitsPrefix_cons.
    destruct (digitChar_digit n Hn) as [Hd Hv]. rewrite Hd, Hv.
    reflexivity. }
  induction fuel as [|f IH]; intros n acc Hn.
  - cbn [digits]. apply Hlast. change (2 ^ (Z.of_nat 0 + 1)) with 2 in Hn. lia.
  - cbn [digits]. destruct (Z.eqb_spec (n / 10) 0) as [Hz|Hz].
    + apply Hlast. split; [lia|].
      destruct (Z.lt_ge_cases n 10) as [|Hge]; [assumption|].
      assert (1 <= n / 10) by (apply Z.div_le_lower_bound; lia). lia.
    + rewrite IH.
      * rewrite digitsPrefix_cons.
        assert (Hm : 0 <= n mod 10 < 10) by (apply Z.mod_pos_bound; lia).
        destruct (digitChar_digit _ Hm) as [Hd Hv]. rewrite Hd, Hv.
        f_equal. f_equal. pose proof (Z.div_mod n 10). lia.
      * split; [apply Z.div_pos; lia|].
        replace (Z.of_nat (S f) + 1) with (Z.succ (Z.of_nat f + 1)) in Hn by lia.
        rewrite Z.pow_succ_r in Hn by lia.
        apply Z.div_lt_upper_bound; lia.
Qed.

Lemma digits_head fuel : forall n acc,
  0 <= n -> exists c rest, digits fuel n acc = String c rest /\ isDigit c = true.
Proof.
  induction fuel as [|f IH]; intros n acc Hn; cbn [digits].
  - eexists _, _. split; [reflexivity|].
    apply digitChar_digit, Z.mod_pos_bound. lia.
  - destruct (n / 10 =? 0).
    + eexists _, _. split; [reflexivity|].
      apply digitChar_digit, Z.mod_pos_bound. lia.
    + apply IH. apply Z.div_pos; lia.
Qed.

Lemma digits_all fuel : forall n acc,
  0 <= n -> all isDigit acc = true -> all isDigit (digits fuel n acc) = true.
Proof.
  assert (Hd : forall n acc, all isDigit acc = true ->
            all isDigit (String (digitChar (n mod 10)) acc) = true).
  { intros n acc Hacc. rewrite all_cons, Hacc.
    now rewrite (proj1 (digitChar_digit (n mod 10) (Z.mod_pos_bound n 10 eq_refl))). }
  induction fuel as [|f IH]; intros n acc Hn Hacc; cbn [digits].
  - now apply Hd.
  - destruct (n / 10 =? 0); [now apply Hd|].
    apply IH; [apply Z.div_pos; lia|now apply Hd].
Qed.

Lemma log2_fuel n : 0 <= n -> 0 <= n < 2 ^ (Z.of_nat (Z.to_nat (Z.log2 n)) + 1).
Proof.
  intros Hn. split; [exact Hn|].
  rewrite Z2Nat.id by apply Z.log2_nonneg.
  destruct (Z.eq_dec n 0) as [->|Hnz]; [reflexivity|].
  replace (Z.log2 n + 1) with (Z.succ (Z.log2 n)) by lia.
  apply Z.log2_spec. lia.
Qed.

Lemma parseInt_digit_head c rest :
  isDigit c = true -> parseInt (String c rest) = digitsPrefix (String c rest) None.
Proof.
  destruct c as [b0 b1 b2 b3 b4 b5 b6 b7].
  destruct b0, b1, b2, b3, b4, b5, b6, b7; intros H;
    first [discriminate H | reflexivity].
Qed.

(** Reading back what [%d] printed. *)
Lemma parseInt_decimal n : 0 <= n -> parseInt (decimal n) = Some n.
Proof.
  intros Hn. unfold decimal. destruct (Z.ltb_spec n 0); [lia|].
  pose proof (digits_parse (Z.to_nat (Z.log2 n)) n EmptyString (log2_fuel n Hn)) as Hp.
  destruct (digits_head (Z.to_nat (Z.log2 n)) n EmptyString Hn) as (c & rest & Heq & Hc).
  rewrite Heq in *. rewrite (parseInt_digit_head c rest Hc). exact Hp.
Qed.

Lemma decimal_digits n : 0 <= n -> all isDigit (decimal n) = true.
Proof.
  intros Hn. unfold decimal. destruct (Z.ltb_spec n 0); [lia|].
  now apply digits_all.
Qed.

End Fmt.

(* ===================================================================== *)
(** * Ingress: the SOCKS5 request handler                                  *)
(* ===================================================================== *)

Module Socks5.

Import Js JsFacts Fmt.

(** [io.ReadFull(conn, buf)] for a buffer of [n] bytes, on the bytes the
    client sends before it stops: the buffer and the bytes left, or an error
    when fewer than [n] arrive. *)
Definition ReadFull (n : nat) (input : list Z) : option (list Z * list Z) :=
  if (n <=? length input)%nat then Some (take n input, drop n input) else None.

Definition reading {A} (n : nat) (input : list Z) (fail : A)
    (k : list Z -> list Z -> A) : A :=
  match ReadFull n input with
  | Some (buf, rest) => k buf rest
  | None => fail
  end.

(** [buf[i]] *)
Definition at_ (buf : list Z) (i : nat) : Z := nth i buf 0.

(** [string(bytes)] *)
Definition stringOf (bytes : list Z) : string :=
  fold_right (fun b s => String (ascii_of_nat (Z.to_nat b)) s) EmptyString bytes.

(** [net.IP(buf).String()] for four bytes. *)
Definition ipv4String (buf : list Z) : string :=
  decimal (at_ buf 0) +:+ "." +:+ decimal (at_ buf 1) +:+ "." +:+
  decimal (at_ buf 2) +:+ "." +:+ decimal (at_ buf 3).

(** How [handleSOCKS5] ends: it returns, calls
    [handleTunnel(conn, target, clientAddr, modeSOCKS5, "")], or calls
    [handleUDPAssociate]. *)
Inductive Action :=
| Done
| Tunnel (target : string)
| UDPAssociate.

Definition noAuth : list Z := [5; 0].
Definition addressTypeNotSupported : list Z := [5; 8; 0; 1; 0; 0; 0; 0; 0; 0].
Definition commandNotSupported : list Z := [5; 7; 0; 1; 0; 0; 0; 0; 0; 0].

Section Handler.

(** [net.IP(buf).String()] for sixteen bytes. *)
Variable ip6String : list Z -> string.

(** [handleSOCKS5]: the [conn.Write] calls it makes, in order, and how it
    ends.  [writeOk] tells whether the write of the method reply succeeds. *)
Definition handleSOCKS5 (isRunning writeOk : bool) (firstByte : Z) (input : list Z)
  : list (list Z) * Action :=
  if negb isRunning then ([], Done)
  else if negb (firstByte =? 5) then ([], Done)
  else
    reading 1 input ([], Done) (fun buf input =>
    let nmethods := at_ buf 0 in
    reading (Z.to_nat nmethods) input ([], Done) (fun methods input =>
    if negb writeOk then ([noAuth], Done)
    else
      reading 4 input ([noAuth], Done) (fun buf input =>
      if negb (at_ buf 0 =? 5) then ([noAuth], Done)
      else
        let command := at_ buf 1 in
        let atyp := at_ buf 3 in
        let request (host : string) (input : list Z) :=
          reading 2 input ([noAuth], Done) (fun buf _ =>
            let port := Z.lor (Z.shiftl (at_ buf 0) 8) (at_ buf 1) in
            if command =? 1 then
              ([noAuth],
               Tunnel (if atyp =? 4
                       then "[" +:+ host +:+ "]:" +:+ decimal port
                       else host +:+ ":" +:+ decimal port))
            else if command =? 3 then ([noAuth], UDPAssociate)
            else ([noAuth; commandNotSupported], Done)) in
        if atyp =? 1 then
          reading 4 input ([noAuth], Done) (fun buf input =>
            request (ipv4String buf) input)
        else if atyp =? 3 then
          reading 1 input ([noAuth], Done) (fun buf input =>
            reading (Z.to_nat (at_ buf 0)) input ([noAuth], Done)
              (fun domainBuf input => request (stringOf domainBuf) input))
        else if atyp =? 4 then
          reading 16 input ([noAuth], Done) (fun buf input =>
            request ("[" +:+ ip6String buf +:+ "]") input)
        else ([noAuth; addressTypeNotSupported], Done)))).

End Handler.

(** A destination address as a client puts it into a request. *)
Inductive Addr :=
| IPv4 (a b c d : Z)
| Domain (name : list Z)
| IPv6 (bytes : list Z).

Definition atypOf (addr : Addr) : Z :=
  match addr with
  | IPv4 _ _ _ _ => 1
  | Domain _ => 3
  | IPv6 _ => 4
  end.

Definition addrBytes (addr : Addr) : list Z :=
  match addr with
  | IPv4 a b c d => [a; b; c; d]
  | Domain name => Z.of_nat (length name) :: name
  | IPv6 bytes => bytes
  end.

(** What a client sends after the version byte: the method list, then the
    request with its command, address and port. *)
Definition clientBytes (methods : list Z) (cmd : Z) (addr : Addr) (port : Z) : list Z :=
  Z.of_nat (length methods) :: methods
  ++ [5; cmd; 0; atypOf addr] ++ addrBytes addr ++ [port / 256; port mod 256].

Definition wellFormedAddr (addr : Addr) : Prop :=
  match addr with
  | IPv4 _ _ _ _ => True
  | Domain name => (length name < 256)%nat
  | IPv6 bytes => length bytes = 16%nat
  end.

(** The target text [handleSOCKS5] hands to [handleTunnel]. *)
Definition targetOf (ip6String : list Z -> string) (addr : Addr) (port : Z) : string :=
  match addr with
  | IPv4 a b c d =>
      decimal a +:+ "." +:+ decimal b +:+ "." +:+ decimal c +:+ "." +:+ decimal d
      +:+ ":" +:+ decimal port
  | Domain name => stringOf name +:+ ":" +:+ decimal port
  | IPv6 bytes => "[[" +:+ ip6String bytes +:+ "]]:" +:+ decimal port
  end.


Lemma ReadFull_app (a b : list Z) : ReadFull (length a) (a ++ b) = Some (a, b).
Proof.
  unfold ReadFull. rewrite length_app.
  destruct (Nat.leb_spec (length a) (length a + length b)); [|lia].
  now rewrite take_app_length, drop_app_length.
Qed.

Lemma reading_app {A} (n : nat) (a b : list Z) (fail : A) k :
  n = length a -> reading n (a ++ b) fail k = k a b.
Proof. intros ->. unfold reading. now rewrite ReadFull_app. Qed.

Lemma port_bytes (port : Z) :
  0 <= port < 65536 -> Z.lor (Z.shiftl (port / 256) 8) (port mod 256) = port.
Proof.
  intros H. rewrite UdpRelay.lor_port by (apply Z.mod_pos_bound; lia).
  pose proof (Z.div_mod port 256). lia.
Qed.

Lemma target_text ip6String (addr : Addr) (port : Z) :
  (if atypOf addr =? 4
   then "[" +:+ match addr with
                | IPv4 a b c d => ipv4String [a; b; c; d]
                | Domain name => stringOf name
                | IPv6 bytes => "[" +:+ ip6String bytes +:+ "]"
                end +:+ "]:" +:+ decimal port
   else match addr with
        | IPv4 a b c d => ipv4String [a; b; c; d]
        | Domain name => stringOf name
        | IPv6 bytes => "[" +:+ ip6String bytes +:+ "]"
        end +:+ ":" +:+ decimal port)
  = targetOf ip6String addr port.
Proof.
  destruct addr as [a b c d|name|bytes]; simpl atypOf; cbv iota; simpl Z.eqb; cbv iota.
  - unfold ipv4String, targetOf, at_. simpl nth.
    now rewrite !Handshake.append_assoc.
  - reflexivity.
  - unfold targetOf. rewrite !append_cons, !append_nil.
    rewrite !Handshake.append_assoc. reflexivity.
Qed.

(** X9: a well-formed SOCKS5 request is answered with the method reply
    05 00 and dispatched on its command alone: CONNECT calls [handleTunnel]
    with the target text [a.b.c.d:port] for an IPv4 address, [name:port] for
    a domain name and [[[ip]]:port], with doubled brackets, for an IPv6
    address, the port being the big-endian number of the two port bytes; UDP
    ASSOCIATE calls [handleUDPAssociate]; any other command is answered with
    reply 07 (command not supported), after address and port were read. *)
Theorem handleSOCKS5_request (ip6String : list Z -> string)
    (methods : list Z) (cmd : Z) (addr : Addr) (port : Z) (rest : list Z) :
  (length methods < 256)%nat -> wellFormedAddr addr -> 0 <= port < 65536 ->
  handleSOCKS5 ip6String true true 5 (clientBytes methods cmd addr port ++ rest) =
    if cmd =? 1 then ([noAuth], Tunnel (targetOf ip6String addr port))
    else if cmd =? 3 then ([noAuth], UDPAssociate)
    else ([noAuth; commandNotSupported], Done).
Proof.
  intros Hm Ha Hp. unfold handleSOCKS5, clientBytes. simpl negb. cbv iota.
  change (5 =? 5) with true. simpl negb. cbv iota.
  change (Z.of_nat (length methods) :: ?l) with ([Z.of_nat (length methods)] ++ l).
  rewrite <- !app_assoc.
  rewrite reading_app by reflexivity.
  change (at_ [Z.of_nat (length methods)] 0) with (Z.of_nat (length methods)).
  rewrite Nat2Z.id. rewrite reading_app by reflexivity.
  rewrite reading_app by reflexivity.
  change (at_ [5; cmd; 0; atypOf addr] 0) with 5.
  change (at_ [5; cmd; 0; atypOf addr] 1) with cmd.
  change (at_ [5; cmd; 0; atypOf addr] 3) with (atypOf addr).
  change (5 =? 5) with true. simpl negb. cbv iota.
  rewrite <- (target_text ip6String addr port).
  assert (Hport : forall (host : string),
    reading 2 ([port / 256; port mod 256] ++ rest) ([noAuth], Done)
      (fun buf _ =>
         let port := Z.lor (Z.shiftl (at_ buf 0) 8) (at_ buf 1) in
         if cmd =? 1 then
           ([noAuth],
            Tunnel (if atypOf addr =? 4
                    then "[" +:+ host +:+ "]:" +:+ decimal port
                    else host +:+ ":" +:+ decimal port))
         else if cmd =? 3 then ([noAuth], UDPAssociate)
         else ([noAuth; commandNotSupported], Done))
    = if cmd =? 1 then
        ([noAuth],
         Tunnel (if atypOf addr =? 4
                 then "[" +:+ host +:+ "]:" +:+ decimal port
                 else host +:+ ":" +:+ decimal port))
      else if cmd =? 3 then ([noAuth], UDPAssociate)
      else ([noAuth; commandNotSupported], Done)).
  { intros host. rewrite reading_app by reflexivity.
    change (at_ [port / 256; port mod 256] 0) with (port / 256).
    change (at_ [port / 256; port mod 256] 1) with (port mod 256).
    cbv zeta. now rewrite port_bytes. }
  destruct addr as [a b c d|name|bytes]; simpl atypOf; simpl addrBytes.
  - simpl Z.eqb. cbv iota. rewrite reading_app by reflexivity. apply Hport.
  - simpl Z.eqb. cbv iota.
    change (Z.of_nat (length name) :: name) with ([Z.of_nat (length name)] ++ name).
    rewrite <- !app_assoc. rewrite reading_app by reflexivity.
    change (at_ [Z.of_nat (length name)] 0) with (Z.of_nat (length name)).
    rewrite Nat2Z.id. rewrite reading_app by reflexivity. apply Hport.
  - simpl Z.eqb. cbv iota. simpl in Ha.
    rewrite reading_app by (symmetry; exact Ha). apply Hport.
Qed.


Definition sampleIp6String (bytes : list Z) : string := "2001:db8::1".

Lemma handleSOCKS5_request_witness :
  handleSOCKS5 sampleIp6String true true 5
    (clientBytes [0] 1 (Domain (Tunnel.bytesOf "example.com")) 443 ++ [22; 3; 1])
  = ([noAuth], Tunnel "example.com:443").
Proof.
  apply (handleSOCKS5_request sampleIp6String [0] 1
           (Domain (Tunnel.bytesOf "example.com")) 443 [22; 3; 1]).
  - simpl. lia.
  - simpl. lia.
  - lia.
Defined.

(** Closes a case in which the handler's result is known. *)
Ltac returns :=
  cbv zeta; cbn [fst snd];
  split; [auto 6 | intros Hgo; try (contradiction Hgo; reflexivity); auto 6].

(** Whatever bytes the client sends: the writes are the method reply, at
    most one failure reply after it, or nothing; and the handler goes on only
    after the method reply alone. *)
Lemma handleSOCKS5_writes (ip6String : list Z -> string)
    (isRunning writeOk : bool) (firstByte : Z) (input : list Z) :
  let r := handleSOCKS5 ip6String isRunning writeOk firstByte input in
  (fst r = [] \/ fst r = [noAuth] \/
   fst r = [noAuth; commandNotSupported] \/ fst r = [noAuth; addressTypeNotSupported]) /\
  (snd r <> Done ->
   isRunning = true /\ writeOk = true /\ firstByte = 5 /\ fst r = [noAuth]).
Proof.
  unfold handleSOCKS5, reading.
  destruct isRunning; simpl negb; cbv iota; [|returns].
  destruct (Z.eqb_spec firstByte 5) as [->|Hne]; simpl negb; cbv iota; [|returns].
  destruct (ReadFull 1 input) as [[buf1 in1]|]; [|returns].
  destruct (ReadFull (Z.to_nat (at_ buf1 0)) in1) as [[methods in2]|]; [|returns].
  destruct writeOk; simpl negb; cbv iota; [|returns].
  destruct (ReadFull 4 in2) as [[req in3]|]; [|returns].
  destruct (at_ req 0 =? 5); simpl negb; cbv iota; [|returns].
  assert (Hreq : forall host inp,
    let r := match ReadFull 2 inp with
             | Some (buf, _) =>
                 if at_ req 1 =? 1 then
                   ([noAuth],
                    Tunnel (if at_ req 3 =? 4
                            then "[" +:+ host +:+ "]:" +:+
                                 decimal (Z.lor (Z.shiftl (at_ buf 0) 8) (at_ buf 1))
                            else host +:+ ":" +:+
                                 decimal (Z.lor (Z.shiftl (at_ buf 0) 8) (at_ buf 1))))
                 else if at_ req 1 =? 3 then ([noAuth], UDPAssociate)
                 else ([noAuth; commandNotSupported], Done)
             | None => ([noAuth], Done)
             end in
    (fst r = [] \/ fst r = [noAuth] \/
     fst r = [noAuth; commandNotSupported] \/
     fst r = [noAuth; addressTypeNotSupported]) /\
    (snd r <> Done -> true = true /\ true = true /\ 5 = 5 /\ fst r = [noAuth])).
  { intros host inp. destruct (ReadFull 2 inp) as [[buf rest]|]; [|returns].
    destruct (at_ req 1 =? 1); [|destruct (at_ req 1 =? 3)]; returns. }
  destruct (at_ req 3 =? 1).
  { destruct (ReadFull 4 in3) as [[b i]|]; [apply Hreq|returns]. }
  destruct (at_ req 3 =? 3).
  { destruct (ReadFull 1 in3) as [[b i]|]; [|returns].
    destruct (ReadFull (Z.to_nat (at_ b 0)) i) as [[d j]|]; [apply Hreq|returns]. }
  destruct (at_ req 3 =? 4).
  { destruct (ReadFull 16 in3) as [[b i]|]; [apply Hreq|returns]. }
  returns.
Qed.

Lemma reading_take {A} (n k : nat) (a b : list Z) (fail : A)
    (cont : list Z -> list Z -> A) :
  n = length a ->
  reading n (take k (a ++ b)) fail cont =
  if (n <=? k)%nat then cont a (take (k - n) b) else fail.
Proof.
  intros ->. unfold reading, ReadFull. rewrite length_take, length_app.
  destruct (Nat.leb_spec (length a) k) as [Hle|Hgt].
  - destruct (Nat.leb_spec (length a) (k `min` (length a + length b))); [|lia].
    rewrite take_take, Nat.min_l by lia. rewrite take_app_length.
    replace k with (length a + (k - length a))%nat at 1 by lia.
    rewrite <- take_drop_commute, drop_app_length. reflexivity.
  - destruct (Nat.leb_spec (length a) (k `min` (length a + length b))); [lia|].
    reflexivity.
Qed.

(** A request that stops before its last byte gets no failure reply. *)
Lemma handleSOCKS5_cut_short (ip6String : list Z -> string)
    (isRunning writeOk : bool) (firstByte : Z)
    (methods : list Z) (cmd : Z) (addr : Addr) (port : Z) (k : nat) :
  wellFormedAddr addr ->
  (k < length (clientBytes methods cmd addr port))%nat ->
  let c := handleSOCKS5 ip6String isRunning writeOk firstByte
             (take k (clientBytes methods cmd addr port)) in
  snd c = Done /\ (fst c = [] \/ fst c = [noAuth]).
Proof.
  intros Ha Hk. unfold handleSOCKS5.
  destruct isRunning; cbn [negb]; [|cbn; auto].
  destruct (firstByte =? 5); cbn [negb]; [|cbn; auto].
  unfold clientBytes in *.
  change (Z.of_nat (length methods) :: methods
          ++ [5; cmd; 0; atypOf addr] ++ addrBytes addr ++ [port / 256; port mod 256])
    with ([Z.of_nat (length methods)] ++ methods
          ++ [5; cmd; 0; atypOf addr] ++ addrBytes addr
          ++ [port / 256; port mod 256]) in *.
  rewrite !length_app in Hk. cbn [length] in Hk.
  rewrite reading_take by reflexivity.
  destruct (Nat.leb_spec 1 k); [|cbn; auto].
  change (at_ [Z.of_nat (length methods)] 0) with (Z.of_nat (length methods)).
  rewrite Nat2Z.id. rewrite reading_take by reflexivity.
  destruct (Nat.leb_spec (length methods) (k - 1)); [|cbn; auto].
  destruct writeOk; cbn [negb]; [|cbn; auto].
  rewrite reading_take by reflexivity.
  destruct (Nat.leb_spec 4 (k - 1 - length methods)); [|cbn; auto].
  change (at_ [5; cmd; 0; atypOf addr] 0) with 5.
  change (at_ [5; cmd; 0; atypOf addr] 1) with cmd.
  change (at_ [5; cmd; 0; atypOf addr] 3) with (atypOf addr).
  change (5 =? 5) with true. cbn [negb]. cbv zeta.
  set (j := (k - 1 - length methods - 4)%nat) in *.
  assert (Hport : forall (host : string) (i : nat),
    (i < 2)%nat ->
    let c := reading 2 (take i ([port / 256; port mod 256] ++ [])) ([noAuth], Done)
               (fun buf _ : list Z =>
                  if cmd =? 1 then
                    ([noAuth],
                     Tunnel (if atypOf addr =? 4
                             then "[" +:+ host +:+ "]:" +:+
                                  decimal (Z.lor (Z.shiftl (at_ buf 0) 8) (at_ buf 1))
                             else host +:+ ":" +:+
                                  decimal (Z.lor (Z.shiftl (at_ buf 0) 8) (at_ buf 1))))
                  else if cmd =? 3 then ([noAuth], UDPAssociate)
                  else ([noAuth; commandNotSupported], Done)) in
    snd c = Done /\ (fst c = [] \/ fst c = [noAuth])).
  { intros host i Hi. rewrite reading_take by reflexivity.
    destruct (Nat.leb_spec 2 i); [lia|]. cbn. auto. }
  rewrite <- (app_nil_r [port / 256; port mod 256]).
  destruct addr as [a b c d|name|bytes]; cbn [atypOf addrBytes] in *.
  - change (1 =? 1) with true. cbv iota.
    change [a; b; c; d] with ([a; b; c; d]) in *. cbn [length] in Hk.
    rewrite reading_take by reflexivity.
    destruct (Nat.leb_spec 4 j); [|cbn; auto].
    apply Hport. lia.
  - change (3 =? 1) with false. change (3 =? 3) with true. cbv iota.
    change (Z.of_nat (length name) :: name) with ([Z.of_nat (length name)] ++ name) in *.
    rewrite <- app_assoc. rewrite length_app in Hk. cbn [length] in Hk.
    rewrite reading_take by reflexivity.
    destruct (Nat.leb_spec 1 j); [|cbn; auto].
    change (at_ [Z.of_nat (length name)] 0) with (Z.of_nat (length name)).
    rewrite Nat2Z.id. rewrite reading_take by reflexivity.
    destruct (Nat.leb_spec (length name) (j - 1)); [|cbn; auto].
    apply Hport. lia.
  - change (4 =? 1) with false. change (4 =? 3) with false. change (4 =? 4) with true.
    cbv iota. cbn in Ha.
    rewrite reading_take by (symmetry; exact Ha).
    destruct (Nat.leb_spec 16 j); [|cbn; auto].
    apply Hport. lia.
Qed.

(** A request header with another version than 5 ends the handler. *)
Lemma handleSOCKS5_wrong_version (ip6String : list Z -> string)
    (methods : list Z) (version cmd rsv atyp : Z) (rest : list Z) :
  version <> 5 ->
  handleSOCKS5 ip6String true true 5
    (Z.of_nat (length methods) :: methods ++ [version; cmd; rsv; atyp] ++ rest)
  = ([noAuth], Done).
Proof.
  intros Hv. unfold handleSOCKS5. cbn [negb]. change (5 =? 5) with true. cbn [negb].
  change (Z.of_nat (length methods) :: methods ++ [version; cmd; rsv; atyp] ++ rest)
    with ([Z.of_nat (length methods)] ++ methods ++ [version; cmd; rsv; atyp] ++ rest).
  rewrite reading_app by reflexivity.
  change (at_ [Z.of_nat (length methods)] 0) with (Z.of_nat (length methods)).
  rewrite Nat2Z.id. rewrite reading_app by reflexivity.
  rewrite reading_app by reflexivity.
  change (at_ [version; cmd; rsv; atyp] 0) with version.
  destruct (Z.eqb_spec version 5); [contradiction|reflexivity].
Qed.

(** X10: whatever bytes the client sends, [handleSOCKS5] writes nothing,
    or the method reply alone, or the method reply followed by exactly one
    failure reply, 07 or 08; it never writes a success reply itself; and it
    goes on to [handleTunnel] or [handleUDPAssociate] only when the server
    runs, the version byte is 5, the method reply was written, and nothing
    but the method reply has been written.  A request that is cut short, that
    is any proper prefix of a request with an IPv4, domain or IPv6 address,
    is dropped without a failure reply and without going on; and a request
    whose header carries another version than 5 is dropped after the method
    reply, without a failure reply. *)
Theorem handleSOCKS5_replies (ip6String : list Z -> string)
    (isRunning writeOk : bool) (firstByte : Z) (input : list Z)
    (methods : list Z) (cmd : Z) (addr : Addr) (port : Z) (k : nat)
    (version rsv atyp : Z) (rest : list Z) :
  let r := handleSOCKS5 ip6String isRunning writeOk firstByte input in
  (fst r = [] \/ fst r = [noAuth] \/
   fst r = [noAuth; commandNotSupported] \/ fst r = [noAuth; addressTypeNotSupported]) /\
  (snd r <> Done ->
   isRunning = true /\ writeOk = true /\ firstByte = 5 /\ fst r = [noAuth]) /\
  (wellFormedAddr addr ->
   (k < length (clientBytes methods cmd addr port))%nat ->
   let c := handleSOCKS5 ip6String isRunning writeOk firstByte
              (take k (clientBytes methods cmd addr port)) in
   snd c = Done /\ (fst c = [] \/ fst c = [noAuth])) /\
  (version <> 5 ->
   handleSOCKS5 ip6String true true 5
     (Z.of_nat (length methods) :: methods ++ [version; cmd; rsv; atyp] ++ rest)
   = ([noAuth], Done)).
Proof.
  intros r.
  destruct (handleSOCKS5_writes ip6String isRunning writeOk firstByte input) as [Hw Hgo].
  split; [exact Hw|]. split; [exact Hgo|]. split.
  - apply handleSOCKS5_cut_short.
  - apply handleSOCKS5_wrong_version.
Qed.

Lemma handleSOCKS5_replies_witness :
  fst (handleSOCKS5 sampleIp6String true true 5
         (clientBytes [0] 1 (IPv4 1 2 3 4) 80)) = [noAuth] /\
  handleSOCKS5 sampleIp6String true true 5
    (take 10 (clientBytes [0] 1 (IPv4 1 2 3 4) 80)) = ([noAuth], Done) /\
  handleSOCKS5 sampleIp6String true true 5 [1; 0; 4; 1; 0; 1; 1; 2; 3; 4; 0; 80]
  = ([noAuth], Done).
Proof.
  destruct (handleSOCKS5_replies sampleIp6String true true 5
              (clientBytes [0] 1 (IPv4 1 2 3 4) 80)
              [0] 1 (IPv4 1 2 3 4) 80 10%nat 4 0 1 [1; 2; 3; 4; 0; 80])
    as (_ & Hgo & Hcut & Hver).
  split; [|split].
  - apply Hgo. vm_compute. discriminate.
  - destruct (Hcut I) as [Hd Hf]; [simpl; lia|].
    vm_compute. reflexivity.
  - apply Hver. discriminate.
Defined.


(** ** The target text at the egress *)

Lemma digits_noSpace s : all isDigit s = true -> noSpace s = true.
Proof.
  unfold noSpace. induction s as [|c s IH]; [reflexivity|].
  rewrite !all_cons. intros [Hc Hs]%andb_true_iff. rewrite (IH Hs), andb_true_r.
  destruct c as [b0 b1 b2 b3 b4 b5 b6 b7].
  destruct b0, b1, b2, b3, b4, b5, b6, b7; first [discriminate Hc | reflexivity].
Qed.

Lemma decimal_text port :
  0 <= port ->
  noSpace (decimal port) = true /\ includes (decimal port) ":" = false.
Proof.
  intros Hp. pose proof (decimal_digits port Hp) as Hd. split.
  - now apply digits_noSpace.
  - now apply (all_excludes isDigit).
Qed.

Lemma portOr443_decimal port : 0 < port -> Worker.portOr443 (decimal port) = port.
Proof.
  intros Hp. unfold Worker.portOr443. rewrite parseInt_decimal by lia.
  destruct port; [lia|reflexivity|lia].
Qed.

Lemma substring_head (a b : string) : substring (a +:+ b) 0 (len a) = a.
Proof.
  pose proof (Handshake.substring_middle EmptyString a b) as H.
  rewrite append_nil in H. exact H.
Qed.

Section AtEgress.

Variable ip6String : list Z -> string.
Variable Number : string -> Egress.number.
Variable cfg : Egress.Config.

(** [host:port] at both egress implementations. *)
Lemma host_port_at_egress (host : string) (port : Z) :
  noSpace host = true -> host <> EmptyString -> startsWith host "[" = false ->
  0 < port < 65536 ->
  Number (decimal port) = Egress.Integer port ->
  Egress.ALLOWED_HOSTS cfg = [] ->
  Egress.checkTarget Number cfg (host +:+ ":" +:+ decimal port) = Egress.Ok (host, port) /\
  Worker.parseAddress (host +:+ ":" +:+ decimal port) = Some (host, port).
Proof.
  intros Hns Hne Hbr Hport HNum Hallowed.
  destruct (decimal_text port ltac:(lia)) as [Hdns Hdcolon].
  split.
  - unfold Egress.checkTarget.
    destruct (EgressFacts.parseAddress_round_trip host (decimal port) Hns Hdns)
      as [Hparse _].
    rewrite (Hparse Hne Hbr Hdcolon). cbn [Egress.bind fst snd].
    rewrite HNum, Hallowed.
    destruct (Z.leb_spec port 0); [lia|].
    destruct (Z.ltb_spec 65535 port); [lia|]. reflexivity.
  - unfold Worker.parseAddress.
    change (host +:+ ":" +:+ decimal port) with (host +:+ String ":" (decimal port)).
    rewrite lastIndexOf_seam by exact Hdcolon.
    pose proof (len_nonneg host) as Hlen.
    destruct (Z.eqb_spec (len host) (-1)); [lia|].
    rewrite substring_head.
    replace (host +:+ String ":" (decimal port)) with ((host +:+ ":") +:+ decimal port)
      by (rewrite Handshake.append_assoc; reflexivity).
    replace (len host + 1) with (len (host +:+ ":"))
      by (rewrite len_append; change (len ":") with 1; lia).
    rewrite Handshake.substringFrom_suffix, (portOr443_decimal port) by lia.
    destruct host as [|c host]; [congruence|].
    rewrite !append_cons.
    change "["%string with (String "["%char EmptyString) in Hbr.
    rewrite EgressFacts.startsWith_cons, EgressFacts.startsWith_nil in Hbr.
    destruct (ascii_dec "[" c) as [|Hc]; [discriminate|].
    destruct c as [b0 b1 b2 b3 b4 b5 b6 b7].
    destruct b0, b1, b2, b3, b4, b5, b6, b7; first [reflexivity | congruence].
Qed.

End AtEgress.


(** The host text of an IPv4 or domain-name request. *)
Definition hostOf (addr : Addr) : string :=
  match addr with
  | IPv4 a b c d => ipv4String [a; b; c; d]
  | Domain name => stringOf name
  | IPv6 _ => EmptyString
  end.

(** An IPv4 address, or a domain name that is not empty, holds no white
    space and does not start with a bracket. *)
Definition plainHost (addr : Addr) : Prop :=
  match addr with
  | IPv4 a b c d => 0 <= a /\ 0 <= b /\ 0 <= c /\ 0 <= d
  | Domain name =>
      noSpace (stringOf name) = true /\ stringOf name <> EmptyString /\
      startsWith (stringOf name) "[" = false
  | IPv6 _ => False
  end.

Lemma decimal_head n :
  0 <= n -> exists c rest, decimal n = String c rest /\ isDigit c = true.
Proof.
  intros Hn. unfold decimal. destruct (Z.ltb_spec n 0); [lia|].
  now apply digits_head.
Qed.

Lemma ipv4String_text a b c d :
  0 <= a -> 0 <= b -> 0 <= c -> 0 <= d ->
  let host := ipv4String [a; b; c; d] in
  noSpace host = true /\ host <> EmptyString /\ startsWith host "[" = false.
Proof.
  intros Ha Hb Hc Hd host. unfold host, ipv4String, at_. cbn [nth].
  split; [|split].
  - unfold noSpace. rewrite !all_append.
    pose proof (digits_noSpace _ (decimal_digits a Ha)) as H1.
    pose proof (digits_noSpace _ (decimal_digits b Hb)) as H2.
    pose proof (digits_noSpace _ (decimal_digits c Hc)) as H3.
    pose proof (digits_noSpace _ (decimal_digits d Hd)) as H4.
    unfold noSpace in *. rewrite H1, H2, H3, H4. reflexivity.
  - destruct (decimal_head a Ha) as (x & rest & -> & _). rewrite append_cons. discriminate.
  - destruct (decimal_head a Ha) as (x & rest & -> & Hx). rewrite append_cons.
    change "["%string with (String "["%char EmptyString).
    rewrite EgressFacts.startsWith_cons.
    destruct (ascii_dec "[" x) as [<-|]; [discriminate Hx|reflexivity].
Qed.

(** X11: the target text that [handleSOCKS5] forms for an IPv4 address or
    a plain domain name and a port from 1 to 65535 is read back by both
    egress implementations as the same host and port: [_connectRemote]
    accepts it with that host and port number (no allow-list configured,
    [Number] reading the decimal port text as its value), and
    [parseAddress] of [worker.js] returns that host and port. *)
Theorem socks5_target_at_egress (ip6String : list Z -> string)
    (Number : string -> Egress.number) (cfg : Egress.Config)
    (addr : Addr) (port : Z) :
  plainHost addr -> 0 < port < 65536 ->
  Number (decimal port) = Egress.Integer port ->
  Egress.ALLOWED_HOSTS cfg = [] ->
  Egress.checkTarget Number cfg (targetOf ip6String addr port)
    = Egress.Ok (hostOf addr, port) /\
  Worker.parseAddress (targetOf ip6String addr port) = Some (hostOf addr, port).
Proof.
  intros Hplain Hport HNum Hallowed.
  rewrite <- (target_text ip6String addr port).
  destruct addr as [a b c d|name|bytes]; cbn [atypOf hostOf plainHost] in *.
  - change (1 =? 4) with false. cbv iota.
    destruct Hplain as (Ha & Hb & Hc & Hd).
    destruct (ipv4String_text a b c d Ha Hb Hc Hd) as (H1 & H2 & H3).
    now apply host_port_at_egress.
  - change (3 =? 4) with false. cbv iota.
    destruct Hplain as (H1 & H2 & H3).
    now apply host_port_at_egress.
  - contradiction.
Qed.

Lemma socks5_target_at_egress_witness :
  Worker.parseAddress (targetOf sampleIp6String (IPv4 93 184 216 34) 8443)
  = Some ("93.184.216.34"%string, 8443).
Proof.
  apply (socks5_target_at_egress sampleIp6String Egress.decimalNumber
           Egress.sampleConfig (IPv4 93 184 216 34) 8443).
  - simpl. lia.
  - lia.
  - vm_compute. reflexivity.
  - reflexivity.
Defined.

(** X12: for an IPv6 address [handleSOCKS5] forms the target
    [[[ip]]:port] with doubled brackets, and neither egress implementation
    reads the address back from it: [_connectRemote] takes the host to be
    [[ip], with a bracket in front, and [parseAddress] of [worker.js]
    takes the same host and the default port 443 whatever the port of the
    request is. *)
Theorem socks5_ipv6_target_at_egress (ip6String : list Z -> string)
    (Number : string -> Egress.number) (cfg : Egress.Config)
    (bytes : list Z) (port : Z) :
  noSpace (ip6String bytes) = true -> includes (ip6String bytes) "]" = false ->
  0 < port < 65536 ->
  Number (decimal port) = Egress.Integer port ->
  Egress.ALLOWED_HOSTS cfg = [] ->
  Egress.checkTarget Number cfg (targetOf ip6String (IPv6 bytes) port)
    = Egress.Ok ("[" +:+ ip6String bytes, port) /\
  Worker.parseAddress (targetOf ip6String (IPv6 bytes) port)
    = Some ("[" +:+ ip6String bytes, 443).
Proof.
  intros Hns Hclose Hport HNum Hallowed.
  destruct (decimal_text port ltac:(lia)) as [Hdns Hdcolon].
  set (ip := ip6String bytes) in *.
  set (dec := decimal port) in *.
  cbn [targetOf]. fold ip. fold dec.
  split.
  - unfold Egress.checkTarget.
    change ("[[" +:+ ip +:+ "]]:" +:+ dec)
      with ("[" +:+ String "[" ip +:+ "]" +:+ String "]" (String ":" dec)).
    rewrite EgressFacts.parseAddress_bracketed.
    + change (indexOf (String "]" (String ":" dec)) ":") with 1.
      change (0 <=? 1) with true. cbv iota.
      change (String "]" (String ":" dec)) with ("]:" +:+ dec).
      change (1 + 1) with (len "]:"). rewrite sliceFrom_suffix.
      cbn [Egress.bind fst snd]. rewrite HNum, Hallowed.
      destruct (Z.leb_spec port 0); [lia|].
      destruct (Z.ltb_spec 65535 port); [lia|]. reflexivity.
    + unfold noSpace in *. rewrite all_cons, Hns. reflexivity.
    + unfold noSpace in *. rewrite !all_cons, Hdns. reflexivity.
    + rewrite includes_cons, Hclose. reflexivity.
  - unfold Worker.parseAddress.
    change ("[[" +:+ ip +:+ "]]:" +:+ dec)
      with (String "[" (String "[" (ip +:+ String "]" (String "]" (String ":" dec))))).
    cbv iota.
    set (addr := String "[" (String "[" (ip +:+ String "]" (String "]" (String ":" dec))))).
    assert (Hidx : indexOf addr "]" = 2 + len ip).
    { unfold addr, indexOf. cbn [indexOfAt].
      change (Ascii.eqb "[" "]") with false. cbv iota.
      rewrite (indexOfAt_skip "]" ip _ _ Hclose). cbn [indexOfAt].
      rewrite Ascii.eqb_refl. lia. }
    rewrite Hidx. pose proof (len_nonneg ip) as Hlen.
    destruct (Z.eqb_spec (2 + len ip) (-1)); [lia|].
    f_equal. f_equal.
    + change addr with ("[" +:+ String "[" ip +:+ String "]" (String "]" (String ":" dec))).
      replace (2 + len ip) with (len "[" + len (String "[" ip))
        by (rewrite (len_cons "[" ip); change (len "[") with 1; lia).
      change 1 with (len "[") at 1.
      apply Handshake.substring_middle.
    + replace addr with (("[[" +:+ ip +:+ "]]") +:+ String ":" dec).
      2:{ unfold addr. rewrite !append_cons, append_nil.
          rewrite Handshake.append_assoc. reflexivity. }
      replace (2 + len ip + 2) with (len ("[[" +:+ ip +:+ "]]"))
        by (rewrite !len_append; change (len "[[") with 2; change (len "]]") with 2; lia).
      rewrite Handshake.substringFrom_suffix. reflexivity.
Qed.

Lemma socks5_ipv6_target_at_egress_witness :
  Worker.parseAddress (targetOf sampleIp6String (IPv6 (replicate 16 0)) 8443)
  = Some ("[2001:db8::1"%string, 443).
Proof.
  apply (socks5_ipv6_target_at_egress sampleIp6String Egress.decimalNumber
           Egress.sampleConfig (replicate 16 0) 8443).
  - reflexivity.
  - reflexivity.
  - lia.
  - vm_compute. reflexivity.
  - reflexivity.
Defined.

End Socks5.

(* ===================================================================== *)
(** * The Durable Object egress: the session state machine                 *)
(* ===================================================================== *)

Module DurableObject.

Import Js JsFacts.

Inductive SessionState := INIT | CONNECTING | CONNECTED | CLOSED.

Definition stateEqb (a b : SessionState) : bool :=
  match a, b with
  | INIT, INIT | CONNECTING, CONNECTING | CONNECTED, CONNECTED | CLOSED, CLOSED => true
  | _, _ => false
  end.

(** [WebSocketSession]: its [state], and whether [remoteSocket],
    [remoteReader] and [remoteWriter] are set. *)
Record Session := mkSession { state : SessionState; remoteWriter : bool }.

(** What a session does, in order: a call of [connect] and whether the
    socket opened; a write to the upstream socket; the closing of the
    upstream socket; a frame sent on the WebSocket; the closing of the
    WebSocket. *)
Inductive Event :=
| Dial (host : string) (port : Z) (opened : bool)
| RemoteWrite (bytes : list Z)
| RemoteClose
| WsSend (text : string)
| WsClose.

(** [parseAddress]: the function of [worker.js], word for word. *)
Definition parseAddress (addr : string) : option (string * Z) := Worker.parseAddress addr.

(** [isCFError] *)
Definition isCFError (err : Egress.JsError) : bool :=
  testI "cloudflare" (Egress.message err) || testI "proxy request" (Egress.message err)
  || testI "cannot connect" (Egress.message err).

(** [const [h, p] = fb.split(":")]: the text before the first colon, and
    the text between the first and the second colon, if there is a colon. *)
Definition splitColon (fb : string) : string * option string :=
  let i := indexOf fb ":" in
  if i <? 0 then (fb, None)
  else
    let rest := sliceFrom fb (i + 1) in
    let j := indexOf rest ":" in
    (slice fb 0 i, Some (if j <? 0 then rest else slice rest 0 j)).

(** [sendError(err)] *)
Definition sendError (err : Egress.JsError) : Event := WsSend ("ERROR:" +:+ Egress.message err).

(** [close()] *)
Definition close (s : Session) : Session * list Event :=
  match state s with
  | CLOSED => (s, [])
  | _ => (mkSession CLOSED false,
          (if remoteWriter s then [RemoteClose] else []) ++ [WsClose])
  end.

Section Session.

(** [Number(p)] of a fallback's port text, and the outcome of
    [connect({hostname, port})] followed by [await socket.opened]. *)
Variable Number : string -> Egress.number.
Variable dial : string -> Z -> Egress.Outcome.

(** The loop of [TcpConnector.connectWithFallback] over [targets]: the
    dials made, and the error thrown, if any. *)
Fixpoint tryTargets (host : string) (port : Z) (targets : list (string * Egress.number))
  : list Event * option Egress.JsError :=
  match targets with
  | [] => ([], Some (Egress.Error "TCP connect failed"))
  | (h, p) :: rest =>
      let tryHost := if isEmpty h then host else h in
      let tryPort := match p with Egress.Integer z => z | Egress.NotInteger => port end in
      if isEmpty tryHost then tryTargets host port rest
      else
        match dial tryHost tryPort with
        | Egress.Opened => ([Dial tryHost tryPort true], None)
        | Egress.Failed err =>
            if isCFError err
            then let (evs, r) := tryTargets host port rest in
                 (Dial tryHost tryPort false :: evs, r)
            else ([Dial tryHost tryPort false], Some err)
        end
  end.

(** [TcpConnector.connectWithFallback(host, port, fallbacks)] *)
Definition connectWithFallback (host : string) (port : Z) (fallbacks : list string)
  : list Event * option Egress.JsError :=
  tryTargets host port
    ((host, Egress.Integer port)
     :: map (fun fb =>
               let (h, p) := splitColon fb in
               (h, match p with
                   | Some p => Number p
                   | None => Egress.NotInteger
                   end)) fallbacks).

(** [handleConnect(text)]: the session afterwards, what it did, and the
    error it threw, if any. *)
Definition handleConnect (fallbacks : list string) (s : Session) (text : string)
  : Session * list Event * option Egress.JsError :=
  if negb (stateEqb (state s) INIT)
  then (s, [], Some (Egress.Error "Already connected or connecting"))
  else
    let s := mkSession CONNECTING (remoteWriter s) in
    let sep := indexOfFrom text "|" 8 in
    if sep <? 0 then (s, [], Some (Egress.Error "Invalid CONNECT format"))
    else
      let target := slice text 8 sep in
      let firstData := sliceFrom text (sep + 1) in
      match parseAddress target with
      | None =>
          (s, [], Some (Egress.Error (match target with
                                      | String "["%char _ => "Invalid IPv6 address"
                                      | _ => "Invalid address format"
                                      end)))
      | Some (host, port) =>
          match connectWithFallback host port fallbacks with
          | (evs, Some err) => (s, evs, Some err)
          | (evs, None) =>
              (mkSession CONNECTED true,
               evs ++ (if isEmpty firstData then []
                       else [RemoteWrite (EgressFacts.textEncoder_encode firstData)])
                   ++ [WsSend "CONNECTED"],
               None)
          end
      end.

(** [onMessage(event)], each message handled to its end; writes to the
    upstream socket succeed. *)
Definition onMessage (fallbacks : list string) (s : Session) (data : Egress.WsData)
  : Session * list Event :=
  if stateEqb (state s) CLOSED then (s, [])
  else
    match data with
    | Egress.WsText text =>
        if startsWith text "CONNECT:" then
          match handleConnect fallbacks s text with
          | (s', evs, None) => (s', evs)
          | (s', evs, Some err) =>
              let (s'', evs') := close s' in (s'', evs ++ sendError err :: evs')
          end
        else if startsWith text "DATA:" then
          if stateEqb (state s) CONNECTED
          then (s, if remoteWriter s
                   then [RemoteWrite (EgressFacts.textEncoder_encode (sliceFrom text 5))]
                   else [])
          else (s, [sendError (Egress.Error "Not connected yet")])
        else if String.eqb text "CLOSE" then close s
        else (s, [])
    | Egress.WsBinary buf =>
        (s, if remoteWriter s then [RemoteWrite buf] else [])
    end.

Fixpoint runSession (fallbacks : list string) (s : Session) (msgs : list Egress.WsData)
  : Session * list Event :=
  match msgs with
  | [] => (s, [])
  | m :: rest =>
      let (s1, e1) := onMessage fallbacks s m in
      let (s2, e2) := runSession fallbacks s1 rest in
      (s2, e1 ++ e2)
  end.

End Session.

(** A session as the constructor leaves it. *)
Definition fresh : Session := mkSession INIT false.

Definition isOpened (e : Event) : bool :=
  match e with
  | Dial _ _ true => true
  | _ => false
  end.

Definition isRemoteWrite (e : Event) : bool :=
  match e with
  | RemoteWrite _ => true
  | _ => false
  end.


Definition opened (evs : list Event) : nat := length (filter isOpened evs).
Definition writes (evs : list Event) : nat := length (filter isRemoteWrite evs).

(** How many upstream connections a session may still open. *)
Definition budget (s : Session) : nat :=
  match state s with
  | INIT => 1
  | _ => 0
  end.

(** Between two messages a session is fresh, connected or closed. *)
Definition settled (s : Session) : Prop :=
  (state s = INIT /\ remoteWriter s = false) \/
  (state s = CONNECTED /\ remoteWriter s = true) \/
  (state s = CLOSED /\ remoteWriter s = false).

Section Facts.

Variable Number : string -> Egress.number.
Variable dial : string -> Z -> Egress.Outcome.
Variable fallbacks : list string.

Lemma opened_app a b : opened (a ++ b) = (opened a + opened b)%nat.
Proof. unfold opened. now rewrite filter_app, length_app. Qed.

Lemma writes_app a b : writes (a ++ b) = (writes a + writes b)%nat.
Proof. unfold writes. now rewrite filter_app, length_app. Qed.

Lemma tryTargets_events host port targets :
  let r := tryTargets dial host port targets in
  writes (fst r) = 0%nat /\
  opened (fst r) = match snd r with None => 1%nat | Some _ => 0%nat end.
Proof.
  induction targets as [|[h p] rest IH]; cbn [tryTargets].
  - split; reflexivity.
  - destruct (isEmpty (if isEmpty h then host else h)); [exact IH|].
    destruct (dial _ _) as [|err]; [split; reflexivity|].
    destruct (isCFError err); [|split; reflexivity].
    destruct (tryTargets dial host port rest) as [evs r]. exact IH.
Qed.

Lemma close_events s :
  let r := close s in
  state (fst r) = CLOSED /\ opened (snd r) = 0%nat /\ writes (snd r) = 0%nat /\
  (remoteWriter s = false -> remoteWriter (fst r) = false).
Proof.
  unfold close. destruct s as [st w]. destruct st; destruct w; cbn; auto.
Qed.

End Facts.


Ltac settle :=
  unfold settled; cbn; repeat split; intros; auto; try lia; try congruence.

Section Machine.

Variable Number : string -> Egress.number.
Variable dial : string -> Z -> Egress.Outcome.
Variable fallbacks : list string.

Lemma handleConnect_events (text : string) :
  let r := handleConnect Number dial fallbacks fresh text in
  match snd r with
  | None => fst (fst r) = mkSession CONNECTED true /\ opened (snd (fst r)) = 1%nat
  | Some _ =>
      fst (fst r) = mkSession CONNECTING false /\
      opened (snd (fst r)) = 0%nat /\ writes (snd (fst r)) = 0%nat
  end.
Proof.
  unfold handleConnect. cbn [fresh state remoteWriter stateEqb negb].
  destruct (indexOfFrom text "|" 8 <? 0); [cbn; auto|].
  destruct (parseAddress _) as [[host port]|]; [|cbn; auto].
  unfold connectWithFallback.
  pose proof (tryTargets_events dial host port
    ((host, Egress.Integer port)
     :: map (fun fb =>
               let (h, p) := splitColon fb in
               (h, match p with
                   | Some p => Number p
                   | None => Egress.NotInteger
                   end)) fallbacks)) as H.
  cbv zeta in H. destruct (tryTargets _ _ _ _) as [evs [err|]]; cbn [fst snd] in *.
  - destruct H as [Hw Ho]. auto.
  - destruct H as [Hw Ho]. split; [reflexivity|].
    rewrite !opened_app, Ho.
    destruct (isEmpty _); reflexivity.
Qed.

(** One message, on a session that is fresh, connected or closed. *)
Lemma onMessage_step (s : Session) (m : Egress.WsData) :
  settled s ->
  let r := onMessage Number dial fallbacks s m in
  settled (fst r) /\
  (opened (snd r) + budget (fst r) <= budget s)%nat /\
  (state s <> CONNECTED -> opened (snd r) = 0%nat -> writes (snd r) = 0%nat) /\
  (state s <> CONNECTED -> state (fst r) = CONNECTED -> opened (snd r) = 1%nat).
Proof.
  intros Hs. destruct s as [st w].
  destruct Hs as [[Hst Hw]|[[Hst Hw]|[Hst Hw]]]; cbn in Hst, Hw; subst st w.
  - (* fresh *)
    change (mkSession INIT false) with fresh.
    unfold onMessage. cbn [fresh state remoteWriter stateEqb].
    destruct m as [text|buf].
    + destruct (startsWith text "CONNECT:").
      * fold fresh. pose proof (handleConnect_events text) as H. cbv zeta in H.
        destruct (handleConnect Number dial fallbacks fresh text) as [[s' evs] [err|]];
          cbn [fst snd] in H.
        -- destruct H as (-> & Ho & Hw). cbn -[opened writes].
           rewrite opened_app, writes_app, Ho, Hw. settle.
        -- destruct H as (-> & Ho). cbn -[opened writes]. rewrite Ho. settle.
      * destruct (startsWith text "DATA:");
          [|destruct (String.eqb text "CLOSE")]; settle.
    + settle.
  - (* connected *)
    unfold onMessage. cbn [state remoteWriter stateEqb].
    destruct m as [text|buf].
    + destruct (startsWith text "CONNECT:"); [settle|].
      destruct (startsWith text "DATA:");
        [|destruct (String.eqb text "CLOSE")]; settle.
    + settle.
  - (* closed *)
    unfold onMessage. settle.
Qed.

Lemma runSession_steps (msgs : list Egress.WsData) : forall s,
  settled s ->
  let r := runSession Number dial fallbacks s msgs in
  settled (fst r) /\
  (opened (snd r) + budget (fst r) <= budget s)%nat /\
  (state s <> CONNECTED -> opened (snd r) = 0%nat -> writes (snd r) = 0%nat).
Proof.
  induction msgs as [|m rest IH]; intros s Hs.
  - cbn. repeat split; auto.
  - cbn [runSession].
    pose proof (onMessage_step s m Hs) as H1. cbv zeta in H1.
    destruct (onMessage Number dial fallbacks s m) as [s1 e1]. cbn [fst snd] in H1.
    destruct H1 as (Hs1 & Hb1 & Hw1 & Hc1).
    specialize (IH s1 Hs1). cbv zeta in IH.
    destruct (runSession Number dial fallbacks s1 rest) as [s2 e2]. cbn [fst snd] in *.
    destruct IH as (Hs2 & Hb2 & Hw2).
    rewrite opened_app, writes_app. repeat split; auto; try lia.
    intros Hne Ho.
    assert (Ho1 : opened e1 = 0%nat) by lia.
    assert (Ho2 : opened e2 = 0%nat) by lia.
    rewrite (Hw1 Hne Ho1). cbn. apply Hw2; [|exact Ho2].
    intros Hc. specialize (Hc1 Hne Hc). lia.
Qed.

End Machine.


(** X13: the Durable Object session answers by its state.  Before any
    CONNECT, a [DATA:] text frame is answered with
    [ERROR:Not connected yet] and the session stays as it was, while a
    binary frame is dropped without an answer; a CONNECT frame on a connected
    session is answered with [ERROR:Already connected or connecting], after
    which the upstream socket and the WebSocket are closed; a closed session
    ignores every message. *)
Theorem do_session_responses (Number : string -> Egress.number)
    (dial : string -> Z -> Egress.Outcome) (fallbacks : list string)
    (text : string) (buf : list Z) (m : Egress.WsData) :
  onMessage Number dial fallbacks fresh (Egress.WsText ("DATA:" +:+ text))
    = (fresh, [WsSend "ERROR:Not connected yet"]) /\
  onMessage Number dial fallbacks fresh (Egress.WsBinary buf) = (fresh, []) /\
  onMessage Number dial fallbacks (mkSession CONNECTED true)
            (Egress.WsText ("CONNECT:" +:+ text))
    = (mkSession CLOSED false,
       [WsSend "ERROR:Already connected or connecting"; RemoteClose; WsClose]) /\
  onMessage Number dial fallbacks (mkSession CLOSED false) m
    = (mkSession CLOSED false, []).
Proof.
  split; [|split; [|split]].
  - unfold onMessage. cbn [fresh state stateEqb]. cbv iota.
    change (startsWith ("DATA:" +:+ text) "CONNECT:") with false. cbv iota.
    rewrite startsWith_append. reflexivity.
  - reflexivity.
  - unfold onMessage. cbn [state stateEqb]. cbv iota.
    rewrite startsWith_append. reflexivity.
  - reflexivity.
Qed.

(** X14: over any sequence of messages handled one after the other, a
    Durable Object session opens at most one upstream connection; nothing
    is written upstream unless a connection was opened; between messages the
    session is never left in the connecting state, and it holds an upstream
    writer exactly when it is in the connected state; a session that is
    still in its initial state has opened no connection. *)
Theorem do_session_single_upstream (Number : string -> Egress.number)
    (dial : string -> Z -> Egress.Outcome) (fallbacks : list string)
    (msgs : list Egress.WsData) :
  let r := runSession Number dial fallbacks fresh msgs in
  (opened (snd r) <= 1)%nat /\
  (opened (snd r) = 0%nat -> writes (snd r) = 0%nat) /\
  state (fst r) <> CONNECTING /\
  (remoteWriter (fst r) = true <-> state (fst r) = CONNECTED) /\
  (state (fst r) = INIT -> opened (snd r) = 0%nat).
Proof.
  assert (Hfresh : settled fresh) by (left; split; reflexivity).
  pose proof (runSession_steps Number dial fallbacks msgs fresh Hfresh) as H.
  cbv zeta in *. destruct (runSession Number dial fallbacks fresh msgs) as [s evs].
  cbn [fst snd] in *. destruct H as (Hs & Hb & Hw).
  change (budget fresh) with 1%nat in Hb.
  repeat split.
  - lia.
  - apply Hw. discriminate.
  - destruct Hs as [[H _]|[[H _]|[H _]]]; rewrite H; discriminate.
  - destruct Hs as [[H1 H2]|[[H1 H2]|[H1 H2]]]; congruence.
  - destruct Hs as [[H1 H2]|[[H1 H2]|[H1 H2]]]; congruence.
  - intros Hi. unfold budget in Hb. rewrite Hi in Hb. lia.
Qed.

End DurableObject.

(* ===================================================================== *)
(** * Ingress: DNS messages of the ECH lookup                              *)
(* ===================================================================== *)

Module Dns.

Definition typeHTTPS : Z := 65.

(** [data[i]] for an index in range. *)
Definition at_ (data : list Z) (i : nat) : Z := nth i data 0.

(** [binary.BigEndian.Uint16(data[i : i+2])] *)
Definition Uint16 (data : list Z) (i : nat) : Z :=
  Z.lor (Z.shiftl (at_ data i) 8) (at_ data (i + 1)).

(** [data[a : b]] *)
Definition sub (data : list Z) (a b : nat) : list Z := take (b - a) (drop a data).

(** The loop
    [for offset < len(data) && data[offset] != 0 { offset += int(data[offset]) + 1 }]:
    the offset it ends with. *)
Equations? skipLabels (data : list Z) (offset : nat) : nat
  by wf (length data - offset)%nat lt :=
  skipLabels data offset with lt_dec offset (length data) => {
    | right _ => offset
    | left _ with Z.eq_dec (at_ data offset) 0 => {
        | left _ => offset
        | right _ => skipLabels data (offset + Z.to_nat (at_ data offset) + 1) } }.
Proof. lia. Qed.

Section Https.

(** [base64.StdEncoding.EncodeToString] *)
Variable EncodeToString : list Z -> string.

(** The loop [for offset+4 <= len(data)] of [parseHTTPSRecord] over the
    service parameters. *)
Equations? svcParams (data : list Z) (offset : nat) : string
  by wf (length data - offset)%nat lt :=
  svcParams data offset with le_dec (offset + 4) (length data) => {
    | right _ => EmptyString
    | left _ with le_dec (offset + 4 + Z.to_nat (Uint16 data (offset + 2))) (length data) => {
        | right _ => EmptyString
        | left _ with Z.eq_dec (Uint16 data offset) 5 => {
            | left _ =>
                EncodeToString
                  (sub data (offset + 4) (offset + 4 + Z.to_nat (Uint16 data (offset + 2))))
            | right _ =>
                svcParams data (offset + 4 + Z.to_nat (Uint16 data (offset + 2))) } } }.
Proof. lia. Qed.

(** [parseHTTPSRecord] *)
Definition parseHTTPSRecord (data : list Z) : string :=
  if (length data <? 2)%nat then EmptyString
  else
    let offset := 2%nat in
    let offset :=
      if (offset <? length data)%nat && (at_ data offset =? 0)
      then (offset + 1)%nat
      else (skipLabels data offset + 1)%nat in
    svcParams data offset.

(** The loop [for i := 0; i < int(ancount); i++] of [parseDNSResponse],
    with [n] records still to read. *)
Fixpoint records (response : list Z) (n : nat) (offset : nat) : string :=
  match n with
  | O => EmptyString
  | S n' =>
      if (length response <=? offset)%nat then EmptyString
      else
        let offset :=
          if Z.land (at_ response offset) 192 =? 192
          then (offset + 2)%nat
          else (skipLabels response offset + 1)%nat in
        if (length response <? offset + 10)%nat then EmptyString
        else
          let rrType := Uint16 response offset in
          let offset := (offset + 8)%nat in
          let dataLen := Z.to_nat (Uint16 response offset) in
          let offset := (offset + 2)%nat in
          if (length response <? offset + dataLen)%nat then EmptyString
          else
            let data := sub response offset (offset + dataLen) in
            let offset := (offset + dataLen)%nat in
            if rrType =? typeHTTPS then
              let ech := parseHTTPSRecord data in
              if negb (Js.isEmpty ech) then ech else records response n' offset
            else records response n' offset
  end.

Inductive DnsError := ResponseTooShort | NoAnswerRecord.

(** [parseDNSResponse]: the ECH text (empty when no record holds one), or
    the error. *)
Definition parseDNSResponse (response : list Z) : DnsError + string :=
  if (length response <? 12)%nat then inl ResponseTooShort
  else
    let ancount := Uint16 response 6 in
    if ancount =? 0 then inl NoAnswerRecord
    else
      let offset := (skipLabels response 12 + 5)%nat in
      inr (records response (Z.to_nat ancount) offset).

End Https.

(** [strings.Split(s, ".")] *)
Fixpoint splitDots (s : string) : list string :=
  match s with
  | EmptyString => [EmptyString]
  | String c s' =>
      match splitDots s' with
      | first :: rest =>
          if Ascii.eqb c "." then EmptyString :: first :: rest
          else String c first :: rest
      | [] => []
      end
  end.

(** [byte(n)] *)
Definition byte (n : Z) : Z := n mod 256.

(** The loop over the labels in [buildDNSQuery]. *)
Definition encodeLabel (label : string) : list Z :=
  byte (Js.len label) :: Tunnel.bytesOf label.

(** [buildDNSQuery] *)
Definition buildDNSQuery (domain : string) (qtype : Z) : list Z :=
  [0; 1; 1; 0; 0; 1; 0; 0; 0; 0; 0; 0]
  ++ concat (map encodeLabel (splitDots domain))
  ++ [0; byte (Z.shiftr qtype 8); byte qtype; 0; 1].

Example buildDNSQuery_ex :
  buildDNSQuery "a.bc" typeHTTPS
  = [0; 1; 1; 0; 0; 1; 0; 0; 0; 0; 0; 0; 1; 97; 2; 98; 99; 0; 0; 65; 0; 1].
Proof. vm_compute. reflexivity. Qed.


Lemma skipLabels_eq (data : list Z) (offset : nat) :
  skipLabels data offset =
  if (offset <? length data)%nat
  then if at_ data offset =? 0 then offset
       else skipLabels data (offset + Z.to_nat (at_ data offset) + 1)
  else offset.
Proof.
  funelim (skipLabels data offset);
    destruct (Nat.ltb_spec offset (length data)); try lia;
    destruct (Z.eqb_spec (at_ data offset) 0); try congruence; reflexivity.
Qed.


Lemma svcParams_eq (enc : list Z -> string) (data : list Z) (offset : nat) :
  svcParams enc data offset =
  if (offset + 4 <=? length data)%nat then
    if (offset + 4 + Z.to_nat (Uint16 data (offset + 2)) <=? length data)%nat then
      if Uint16 data offset =? 5
      then enc (sub data (offset + 4) (offset + 4 + Z.to_nat (Uint16 data (offset + 2))))
      else svcParams enc data (offset + 4 + Z.to_nat (Uint16 data (offset + 2)))
    else EmptyString
  else EmptyString.
Proof.
  funelim (svcParams enc data offset);
    destruct (Nat.leb_spec (offset + 4) (length data)); try lia;
    destruct (Nat.leb_spec (offset + 4 + Z.to_nat (Uint16 data (offset + 2)))
                (length data)); try lia;
    destruct (Z.eqb_spec (Uint16 data offset) 5); try congruence; reflexivity.
Qed.

(** A 16-bit number as two bytes, and a service parameter, a record's
    data and a resource record as they stand in a DNS message. *)
Definition be16 (n : Z) : list Z := [n / 256; n mod 256].

Definition param (key : Z) (value : list Z) : list Z :=
  be16 key ++ be16 (Z.of_nat (length value)) ++ value.

Definition encodeParams (ps : list (Z * list Z)) : list Z :=
  concat (map (fun kv => param (fst kv) (snd kv)) ps).

Definition isUint16 (n : Z) : Prop := 0 <= n < 65536.

Lemma at_app (pre rest : list Z) (i : nat) :
  at_ (pre ++ rest) (length pre + i) = at_ rest i.
Proof.
  unfold at_. rewrite app_nth2 by lia. f_equal. lia.
Qed.

Lemma Uint16_app (pre : list Z) (n : Z) (rest : list Z) :
  isUint16 n -> Uint16 (pre ++ be16 n ++ rest) (length pre) = n.
Proof.
  intros Hn. unfold Uint16.
  replace (length pre) with (length pre + 0)%nat at 1 by lia.
  replace (length pre + 1)%nat with (length pre + 1)%nat by lia.
  rewrite !at_app. cbn.
  rewrite UdpRelay.lor_port by (apply Z.mod_pos_bound; lia).
  pose proof (Z.div_mod n 256). lia.
Qed.

Lemma sub_between (pre mid post : list Z) :
  sub (pre ++ mid ++ post) (length pre) (length pre + length mid) = mid.
Proof.
  unfold sub. rewrite drop_app_length.
  replace (length pre + length mid - length pre)%nat with (length mid) by lia.
  apply take_app_length.
Qed.


Lemma param_length key value : length (param key value) = (4 + length value)%nat.
Proof. unfold param, be16. rewrite !length_app. reflexivity. Qed.

(** One round of the parameter loop on a well-formed parameter. *)
Lemma svcParams_step (enc : list Z -> string) (pre : list Z) (key : Z)
    (value rest : list Z) :
  isUint16 key -> Z.of_nat (length value) < 65536 ->
  svcParams enc (pre ++ param key value ++ rest) (length pre) =
  if key =? 5 then enc value
  else svcParams enc ((pre ++ param key value) ++ rest) (length (pre ++ param key value)).
Proof.
  intros Hk Hv. rewrite svcParams_eq.
  set (data := pre ++ param key value ++ rest).
  assert (Hlen : length data = (length pre + 4 + length value + length rest)%nat).
  { unfold data. rewrite !length_app, param_length. lia. }
  assert (Hkey : Uint16 data (length pre) = key).
  { unfold data, param. rewrite <- !app_assoc. now apply Uint16_app. }
  assert (Hvl : Uint16 data (length pre + 2) = Z.of_nat (length value)).
  { unfold data, param.
    replace (pre ++ (be16 key ++ be16 (Z.of_nat (length value)) ++ value) ++ rest)
      with ((pre ++ be16 key) ++ be16 (Z.of_nat (length value)) ++ (value ++ rest))
      by (rewrite <- !app_assoc; reflexivity).
    replace (length pre + 2)%nat with (length (pre ++ be16 key))
      by (rewrite length_app; reflexivity).
    apply Uint16_app. unfold isUint16. lia. }
  rewrite Hkey, Hvl, Nat2Z.id.
  destruct (Nat.leb_spec (length pre + 4) (length data)); [|lia].
  destruct (Nat.leb_spec (length pre + 4 + length value) (length data)); [|lia].
  destruct (Z.eqb_spec key 5) as [->|Hne].
  - f_equal. unfold data, param.
    replace (pre ++ (be16 5 ++ be16 (Z.of_nat (length value)) ++ value) ++ rest)
      with ((pre ++ be16 5 ++ be16 (Z.of_nat (length value))) ++ value ++ rest)
      by (rewrite <- !app_assoc; reflexivity).
    replace (length pre + 4)%nat
      with (length (pre ++ be16 5 ++ be16 (Z.of_nat (length value))))
      by (rewrite !length_app; simpl; lia).
    apply sub_between.
  - unfold data. rewrite <- app_assoc. f_equal.
    rewrite length_app, param_length. lia.
Qed.

Definition wellFormedParam (kv : Z * list Z) : Prop :=
  isUint16 (fst kv) /\ Z.of_nat (length (snd kv)) < 65536.

Lemma svcParams_first_ech (enc : list Z -> string) (before : list (Z * list Z))
    (value after : list Z) : forall pre,
  Forall (fun kv => wellFormedParam kv /\ fst kv <> 5) before ->
  Z.of_nat (length value) < 65536 ->
  svcParams enc (pre ++ encodeParams before ++ param 5 value ++ after) (length pre)
  = enc value.
Proof.
  induction before as [|[k val] before IH]; intros pre Hb Hv.
  - cbn [encodeParams map concat app]. rewrite svcParams_step; [reflexivity|unfold isUint16; lia|exact Hv].
  - inversion Hb as [|? ? [[Hk Hl] Hne] Hb']; subst. cbn [fst snd] in *.
    change (encodeParams ((k, val) :: before)) with (param k val ++ encodeParams before).
    rewrite <- app_assoc. rewrite svcParams_step by assumption.
    destruct (Z.eqb_spec k 5); [contradiction|].
    now apply IH.
Qed.


(** A domain name as it stands in a DNS message: each label after its
    length, then the zero byte of the root. *)
Definition encodeLabels (labels : list (list Z)) : list Z :=
  concat (map (fun l => Z.of_nat (length l) :: l) labels).

Definition encodeName (labels : list (list Z)) : list Z := encodeLabels labels ++ [0].

Definition wellFormedLabel (l : list Z) : Prop := (0 < length l)%nat.

Lemma encodeName_length labels : (0 < length (encodeName labels))%nat.
Proof. unfold encodeName. rewrite length_app. simpl. lia. Qed.

Lemma encodeLabels_cons l labels :
  encodeLabels (l :: labels) = (Z.of_nat (length l) :: l) ++ encodeLabels labels.
Proof. reflexivity. Qed.

Lemma encodeName_cons l labels :
  encodeName (l :: labels) = (Z.of_nat (length l) :: l) ++ encodeName labels.
Proof. unfold encodeName. rewrite encodeLabels_cons. now rewrite <- app_assoc. Qed.

Lemma at_head (pre : list Z) (x : Z) (rest : list Z) :
  at_ (pre ++ x :: rest) (length pre) = x.
Proof. unfold at_. rewrite app_nth2 by lia. now rewrite Nat.sub_diag. Qed.

(** The label loop stops on the zero byte that ends a name. *)
Lemma skipLabels_name (labels : list (list Z)) (rest : list Z) : forall pre,
  Forall wellFormedLabel labels ->
  skipLabels (pre ++ encodeName labels ++ rest) (length pre)
  = (length pre + length (encodeLabels labels))%nat.
Proof.
  induction labels as [|l labels IH]; intros pre Hl.
  - rewrite skipLabels_eq.
    change (encodeName [] ++ rest) with (0 :: rest).
    rewrite at_head, length_app. cbn [length encodeLabels map concat].
    destruct (Nat.ltb_spec (length pre) (length pre + S (length rest))); [|lia].
    cbn. lia.
  - inversion Hl as [|? ? Hl1 Hl']; subst. unfold wellFormedLabel in Hl1.
    rewrite skipLabels_eq.
    rewrite encodeName_cons, encodeLabels_cons.
    replace (pre ++ ((Z.of_nat (length l) :: l) ++ encodeName labels) ++ rest)
      with (pre ++ Z.of_nat (length l) :: (l ++ encodeName labels ++ rest))
      by (rewrite <- !app_assoc; reflexivity).
    rewrite at_head, Nat2Z.id.
    destruct (Z.eqb_spec (Z.of_nat (length l)) 0); [lia|].
    rewrite !length_app. cbn [length]. rewrite !length_app.
    destruct (Nat.ltb_spec (length pre)
                (length pre + S (length l + (length (encodeName labels) + length rest))));
      [|lia].
    replace (pre ++ Z.of_nat (length l) :: (l ++ encodeName labels ++ rest))
      with ((pre ++ Z.of_nat (length l) :: l) ++ encodeName labels ++ rest)
      by (rewrite <- app_assoc; reflexivity).
    replace (length pre + length l + 1)%nat
      with (length (pre ++ Z.of_nat (length l) :: l))
      by (rewrite length_app; cbn [length]; lia).
    rewrite IH by exact Hl'. rewrite length_app. cbn [length]. lia.
Qed.

(** The data of an HTTPS record: priority, target name, parameters. *)
Definition httpsData (priority : Z) (target : list (list Z)) (params : list Z) : list Z :=
  be16 priority ++ encodeName target ++ params.

Lemma parseHTTPSRecord_params (enc : list Z -> string) (priority : Z)
    (target : list (list Z)) (params : list Z) :
  Forall wellFormedLabel target ->
  parseHTTPSRecord enc (httpsData priority target params)
  = svcParams enc (httpsData priority target params)
      (length (be16 priority ++ encodeName target)).
Proof.
  intros Ht. unfold parseHTTPSRecord, httpsData.
  set (data := be16 priority ++ encodeName target ++ params).
  assert (Hlen : length data = (2 + length (encodeName target) + length params)%nat).
  { unfold data. rewrite !length_app. reflexivity. }
  pose proof (encodeName_length target) as Hn.
  destruct (Nat.ltb_spec (length data) 2); [lia|].
  destruct (Nat.ltb_spec 2 (length data)); [|lia]. cbn [andb].
  assert (Hskip : skipLabels data 2 = (2 + length (encodeLabels target))%nat).
  { unfold data. change 2%nat with (length (be16 priority)) at 1.
    now rewrite skipLabels_name. }
  assert (Hoff : (if at_ data 2 =? 0 then (2 + 1)%nat else (skipLabels data 2 + 1)%nat)
                 = length (be16 priority ++ encodeName target)).
  { rewrite length_app. unfold encodeName. rewrite length_app. cbn [length be16].
    destruct (Z.eqb_spec (at_ data 2) 0) as [Hz|Hz]; [|rewrite Hskip; lia].
    destruct target as [|l target]; [reflexivity|].
    exfalso. inversion Ht as [|? ? Hl1 _]; subst. unfold wellFormedLabel in Hl1.
    unfold data in Hz. rewrite encodeName_cons in Hz.
    change 2%nat with (length (be16 priority)) in Hz.
    replace (be16 priority ++ ((Z.of_nat (length l) :: l) ++ encodeName target) ++ params)
      with (be16 priority ++ Z.of_nat (length l) :: (l ++ encodeName target ++ params))
      in Hz by (rewrite <- !app_assoc; reflexivity).
    rewrite at_head in Hz. lia. }
  cbv zeta. rewrite Hoff. reflexivity.
Qed.

(** X15: [parseHTTPSRecord] returns the value of the first parameter with
    key 5 (the ECH configuration), base64-encoded, from the data of an HTTPS
    record that is laid out as priority, target name and well-formed
    parameters, whatever parameters with other keys precede it and whatever
    bytes follow it; it returns the empty text when no parameter has key
    5. *)
Theorem parseHTTPSRecord_ech (enc : list Z -> string) (priority : Z)
    (target : list (list Z)) (before : list (Z * list Z)) (value after : list Z) :
  Forall wellFormedLabel target ->
  Forall (fun kv => wellFormedParam kv /\ fst kv <> 5) before ->
  Z.of_nat (length value) < 65536 ->
  parseHTTPSRecord enc
    (httpsData priority target (encodeParams before ++ param 5 value ++ after))
  = enc value /\
  parseHTTPSRecord enc (httpsData priority target (encodeParams before)) = EmptyString.
Proof.
  intros Ht Hb Hv. split.
  - rewrite parseHTTPSRecord_params by exact Ht. unfold httpsData.
    rewrite (app_assoc (be16 priority)). now apply svcParams_first_ech.
  - rewrite parseHTTPSRecord_params by exact Ht. unfold httpsData.
    rewrite (app_assoc (be16 priority)).
    generalize (be16 priority ++ encodeName target) as pre.
    clear Ht. induction before as [|[k val] before IH]; intros pre.
    + cbn [encodeParams map concat]. rewrite app_nil_r, svcParams_eq.
      destruct (Nat.leb_spec (length pre + 4) (length pre)); [lia|reflexivity].
    + inversion Hb as [|? ? [[Hk Hl] Hne] Hb']; subst. cbn [fst snd] in *.
      change (encodeParams ((k, val) :: before)) with (param k val ++ encodeParams before).
      rewrite svcParams_step by assumption.
      destruct (Z.eqb_spec k 5); [contradiction|]. now apply IH.
Qed.


Lemma parseHTTPSRecord_ech_witness :
  parseHTTPSRecord (fun value => Socks5.stringOf value)
    (httpsData 1 [] (encodeParams [(1, [2; 104; 50])] ++ param 5 [69; 67; 72] ++ []))
  = "ECH"%string.
Proof.
  apply (parseHTTPSRecord_ech (fun value => Socks5.stringOf value) 1 []
           [(1, [2; 104; 50])] [69; 67; 72] []).
  - constructor.
  - constructor; [|constructor]. unfold wellFormedParam, isUint16. simpl. lia.
  - simpl. lia.
Defined.

(** ** Resource records *)

(** The owner name of a record: a compression pointer or a sequence of
    labels. *)
Inductive Name :=
| Pointer (hi lo : Z)
| Labels (labels : list (list Z)).

Definition nameBytes (nm : Name) : list Z :=
  match nm with
  | Pointer hi lo => [hi; lo]
  | Labels labels => encodeName labels
  end.

Definition wellFormedName (nm : Name) : Prop :=
  match nm with
  | Pointer hi lo => Z.land hi 192 = 192
  | Labels labels => Forall (fun l => (0 < length l < 64)%nat) labels
  end.

Record RR := mkRR {
  name : Name;
  rrType : Z;
  class : Z;
  ttl : list Z;
  rdata : list Z
}.

Definition rrBytes (r : RR) : list Z :=
  nameBytes (name r) ++ be16 (rrType r) ++ be16 (class r) ++ ttl r
  ++ be16 (Z.of_nat (length (rdata r))) ++ rdata r.

Definition wellFormedRR (r : RR) : Prop :=
  wellFormedName (name r) /\ isUint16 (rrType r) /\ length (ttl r) = 4%nat /\
  Z.of_nat (length (rdata r)) < 65536.

Lemma label_length_bits (n : nat) : (n < 64)%nat -> Z.land (Z.of_nat n) 192 = 0.
Proof.
  intros Hn.
  assert (Hall : forallb (fun k => Z.land (Z.of_nat k) 192 =? 0) (seq 0 64) = true)
    by (vm_compute; reflexivity).
  rewrite forallb_forall in Hall.
  apply Z.eqb_eq, Hall, in_seq. lia.
Qed.

(** The name at the head of a record is stepped over as a whole. *)
Lemma skip_name (pre : list Z) (nm : Name) (rest : list Z) :
  wellFormedName nm ->
  let data := pre ++ nameBytes nm ++ rest in
  (if Z.land (at_ data (length pre)) 192 =? 192
   then (length pre + 2)%nat
   else (skipLabels data (length pre) + 1)%nat)
  = (length pre + length (nameBytes nm))%nat.
Proof.
  intros Hn data. unfold data. destruct nm as [hi lo|labels]; cbn [nameBytes wellFormedName] in *.
  - change ([hi; lo] ++ rest) with (hi :: lo :: rest). rewrite at_head, Hn. reflexivity.
  - assert (Hwf : Forall wellFormedLabel labels).
    { eapply Forall_impl; [exact Hn|]. intros l Hl. unfold wellFormedLabel.
      cbn beta in Hl. lia. }
    rewrite skipLabels_name by exact Hwf.
    assert (Hbits : Z.land (at_ (pre ++ encodeName labels ++ rest) (length pre)) 192 = 0).
    { destruct labels as [|l labels].
      - change (encodeName [] ++ rest) with (0 :: rest). now rewrite at_head.
      - rewrite encodeName_cons.
        replace (pre ++ ((Z.of_nat (length l) :: l) ++ encodeName labels) ++ rest)
          with (pre ++ Z.of_nat (length l) :: (l ++ encodeName labels ++ rest))
          by (rewrite <- !app_assoc; reflexivity).
        rewrite at_head. apply label_length_bits.
        inversion Hn as [|? ? Hl _]; subst. lia. }
    rewrite Hbits. cbn [Z.eqb]. unfold encodeName. rewrite length_app. cbn [length]. lia.
Qed.


Lemma rrBytes_length (r : RR) :
  length (ttl r) = 4%nat ->
  length (rrBytes r) = (length (nameBytes (name r)) + 10 + length (rdata r))%nat.
Proof.
  intros Ht. unfold rrBytes, be16. rewrite !length_app, Ht. cbn [length]. lia.
Qed.

(** One round of the record loop on a well-formed record. *)
Lemma records_step (enc : list Z -> string) (pre : list Z) (r : RR) (rest : list Z)
    (n : nat) :
  wellFormedRR r ->
  records enc (pre ++ rrBytes r ++ rest) (S n) (length pre) =
  if rrType r =? typeHTTPS then
    if negb (Js.isEmpty (parseHTTPSRecord enc (rdata r)))
    then parseHTTPSRecord enc (rdata r)
    else records enc ((pre ++ rrBytes r) ++ rest) n (length (pre ++ rrBytes r))
  else records enc ((pre ++ rrBytes r) ++ rest) n (length (pre ++ rrBytes r)).
Proof.
  intros (Hname & Htype & Httl & Hlen).
  set (data := pre ++ rrBytes r ++ rest).
  set (ln := length (nameBytes (name r))).
  set (lr := length (rdata r)).
  assert (Hdata : length data = (length pre + (ln + 10 + lr) + length rest)%nat).
  { unfold data. rewrite !length_app, rrBytes_length by exact Httl. fold ln lr. lia. }
  assert (Hskip : (if Z.land (at_ data (length pre)) 192 =? 192
                   then (length pre + 2)%nat
                   else (skipLabels data (length pre) + 1)%nat)
                  = (length pre + ln)%nat).
  { unfold data, rrBytes. rewrite <- !app_assoc. now apply skip_name. }
  assert (Hty : Uint16 data (length pre + ln) = rrType r).
  { unfold data, rrBytes.
    replace (pre ++ (nameBytes (name r) ++ be16 (rrType r) ++ be16 (class r) ++ ttl r
                     ++ be16 (Z.of_nat (length (rdata r))) ++ rdata r) ++ rest)
      with ((pre ++ nameBytes (name r)) ++ be16 (rrType r)
            ++ (be16 (class r) ++ ttl r ++ be16 (Z.of_nat (length (rdata r)))
                ++ rdata r ++ rest))
      by (rewrite <- !app_assoc; reflexivity).
    replace (length pre + ln)%nat with (length (pre ++ nameBytes (name r)))
      by (rewrite length_app; reflexivity).
    now apply Uint16_app. }
  assert (Hdl : Uint16 data (length pre + ln + 8) = Z.of_nat lr).
  { unfold data, rrBytes.
    replace (pre ++ (nameBytes (name r) ++ be16 (rrType r) ++ be16 (class r) ++ ttl r
                     ++ be16 (Z.of_nat (length (rdata r))) ++ rdata r) ++ rest)
      with ((pre ++ nameBytes (name r) ++ be16 (rrType r) ++ be16 (class r) ++ ttl r)
            ++ be16 (Z.of_nat (length (rdata r))) ++ (rdata r ++ rest))
      by (rewrite <- !app_assoc; reflexivity).
    replace (length pre + ln + 8)%nat
      with (length (pre ++ nameBytes (name r) ++ be16 (rrType r) ++ be16 (class r)
                    ++ ttl r))
      by (rewrite !length_app, Httl; cbn [length be16]; fold ln; lia).
    apply Uint16_app. unfold isUint16. lia. }
  assert (Hsub : sub data (length pre + ln + 8 + 2) (length pre + ln + 8 + 2 + lr)
                 = rdata r).
  { unfold data, rrBytes.
    replace (pre ++ (nameBytes (name r) ++ be16 (rrType r) ++ be16 (class r) ++ ttl r
                     ++ be16 (Z.of_nat (length (rdata r))) ++ rdata r) ++ rest)
      with ((pre ++ nameBytes (name r) ++ be16 (rrType r) ++ be16 (class r) ++ ttl r
             ++ be16 (Z.of_nat (length (rdata r)))) ++ rdata r ++ rest)
      by (rewrite <- !app_assoc; reflexivity).
    replace (length pre + ln + 8 + 2)%nat
      with (length (pre ++ nameBytes (name r) ++ be16 (rrType r) ++ be16 (class r)
                    ++ ttl r ++ be16 (Z.of_nat (length (rdata r)))))
      by (rewrite !length_app, Httl; cbn [length be16]; fold ln; lia).
    apply sub_between. }
  cbn [records]. cbv zeta. rewrite Hskip, Hty, Hdl, Nat2Z.id, Hsub.
  destruct (Nat.leb_spec (length data) (length pre)); [lia|].
  destruct (Nat.ltb_spec (length data) (length pre + ln + 10)); [lia|].
  destruct (Nat.ltb_spec (length data) (length pre + ln + 8 + 2 + lr)); [lia|].
  replace (length pre + ln + 8 + 2 + lr)%nat with (length (pre ++ rrBytes r))
    by (rewrite length_app, rrBytes_length by exact Httl; fold ln lr; lia).
  unfold data. rewrite <- app_assoc. reflexivity.
Qed.


(** A record the loop passes over: any record that is not an HTTPS record
    with an ECH parameter. *)
Definition passedOver (enc : list Z -> string) (r : RR) : Prop :=
  wellFormedRR r /\
  (rrType r = typeHTTPS -> parseHTTPSRecord enc (rdata r) = EmptyString).

Lemma records_first (enc : list Z -> string) (before : list RR) (r : RR)
    (tail : list Z) : forall (pre : list Z) (n : nat),
  (length before < n)%nat ->
  Forall (passedOver enc) before ->
  wellFormedRR r -> rrType r = typeHTTPS ->
  parseHTTPSRecord enc (rdata r) <> EmptyString ->
  records enc (pre ++ concat (map rrBytes before) ++ rrBytes r ++ tail) n (length pre)
  = parseHTTPSRecord enc (rdata r).
Proof.
  induction before as [|b before IH]; intros pre n Hn Hb Hr Hty Hech.
  - destruct n as [|n]; [cbn in Hn; lia|].
    cbn [map concat app]. rewrite records_step by exact Hr.
    rewrite Hty. change (typeHTTPS =? typeHTTPS) with true. cbv iota.
    destruct (parseHTTPSRecord enc (rdata r)); [congruence|reflexivity].
  - destruct n as [|n]; [cbn in Hn; lia|]. cbn [length] in Hn.
    inversion Hb as [|? ? [Hwf Hpass] Hb']; subst.
    cbn [map concat]. rewrite <- !app_assoc.
    rewrite records_step by exact Hwf.
    destruct (Z.eqb_spec (rrType b) typeHTTPS) as [He|_].
    + rewrite (Hpass He). cbn [Js.isEmpty negb]. apply IH; auto; lia.
    + apply IH; auto; lia.
Qed.

(** The header of a DNS message and a response with its question and
    answer records. *)
Definition header (id flags qdcount ancount nscount arcount : Z) : list Z :=
  be16 id ++ be16 flags ++ be16 qdcount ++ be16 ancount ++ be16 nscount ++ be16 arcount.

Definition question (qname : list (list Z)) (qtype qclass : Z) : list Z :=
  encodeName qname ++ be16 qtype ++ be16 qclass.

(** X16: [parseDNSResponse] finds the ECH configuration of a
    well-formed response: for a message of header, one question and answer
    records, whose answer count covers the first HTTPS record that holds an
    ECH parameter, it returns what [parseHTTPSRecord] reads from that
    record, stepping over every record before it (records of other types,
    and HTTPS records without ECH), whether their names are compression
    pointers or label sequences. *)
Theorem parseDNSResponse_ech (enc : list Z -> string)
    (id flags nscount arcount ancount qtype qclass : Z) (qname : list (list Z))
    (before : list RR) (r : RR) (tail : list Z) :
  Forall wellFormedLabel qname ->
  isUint16 ancount -> Z.of_nat (length before) < ancount ->
  Forall (passedOver enc) before ->
  wellFormedRR r -> rrType r = typeHTTPS ->
  parseHTTPSRecord enc (rdata r) <> EmptyString ->
  parseDNSResponse enc
    (header id flags 1 ancount nscount arcount ++ question qname qtype qclass
     ++ concat (map rrBytes before) ++ rrBytes r ++ tail)
  = inr (parseHTTPSRecord enc (rdata r)).
Proof.
  intros Hq Han Hcount Hb Hr Hty Hech. unfold parseDNSResponse.
  set (hdr := header id flags 1 ancount nscount arcount).
  set (answers := concat (map rrBytes before) ++ rrBytes r ++ tail).
  set (response := hdr ++ question qname qtype qclass ++ answers).
  assert (Hhdr : length hdr = 12%nat) by reflexivity.
  assert (Hlen : (12 <= length response)%nat).
  { unfold response. rewrite length_app, Hhdr. lia. }
  destruct (Nat.ltb_spec (length response) 12); [lia|].
  assert (Han' : Uint16 response 6 = ancount).
  { unfold response, hdr, header.
    replace ((be16 id ++ be16 flags ++ be16 1 ++ be16 ancount ++ be16 nscount
              ++ be16 arcount) ++ question qname qtype qclass ++ answers)
      with ((be16 id ++ be16 flags ++ be16 1) ++ be16 ancount
            ++ (be16 nscount ++ be16 arcount ++ question qname qtype qclass ++ answers))
      by (rewrite <- !app_assoc; reflexivity).
    change 6%nat with (length (be16 id ++ be16 flags ++ be16 1)).
    now apply Uint16_app. }
  rewrite Han'. destruct (Z.eqb_spec ancount 0); [lia|].
  f_equal.
  assert (Hskip : (skipLabels response 12 + 5)%nat
                  = length (hdr ++ question qname qtype qclass)).
  { unfold response, question. rewrite <- !app_assoc.
    rewrite <- Hhdr at 1. rewrite skipLabels_name by exact Hq.
    rewrite !length_app. unfold encodeName. rewrite length_app. cbn [length be16]. lia. }
  rewrite Hskip. unfold response. rewrite app_assoc. unfold answers.
  apply records_first; auto. lia.
Qed.


Definition sampleEnc (value : list Z) : string := Socks5.stringOf value.

Definition sampleAlias : RR := mkRR (Pointer 192 12) 5 1 [0; 0; 1; 44] [192; 12].

Definition sampleHttps : RR :=
  mkRR (Labels [[97]]) typeHTTPS 1 [0; 0; 1; 44]
       (httpsData 1 [] (encodeParams [(1, [2; 104; 50])] ++ param 5 [69; 67; 72])).

Lemma parseDNSResponse_ech_witness :
  parseDNSResponse sampleEnc
    (header 7 33152 1 2 0 0 ++ question [[97]] typeHTTPS 1
     ++ concat (map rrBytes [sampleAlias]) ++ rrBytes sampleHttps ++ [])
  = inr "ECH"%string.
Proof.
  assert (Hech : parseHTTPSRecord sampleEnc (rdata sampleHttps) = "ECH"%string)
    by (vm_compute; reflexivity).
  rewrite <- Hech.
  apply (parseDNSResponse_ech sampleEnc 7 33152 0 0 2 typeHTTPS 1 [[97]]
           [sampleAlias] sampleHttps []).
  - repeat constructor.
  - unfold isUint16. lia.
  - simpl. lia.
  - constructor; [|constructor]. split.
    + unfold wellFormedRR, isUint16. simpl. repeat split; lia.
    + intros H. discriminate H.
  - unfold wellFormedRR, isUint16. simpl. unfold typeHTTPS. repeat split; try lia.
    repeat constructor; simpl; lia.
  - reflexivity.
  - rewrite Hech. discriminate.
Defined.


(** ** The query *)

Lemma bytesOf_length (s : string) : length (Tunnel.bytesOf s) = String.length s.
Proof. induction s as [|c s IH]; [reflexivity|]. cbn. now rewrite IH. Qed.

Lemma splitDots_length (s : string) :
  length (concat (map encodeLabel (splitDots s))) = S (String.length s).
Proof.
  induction s as [|c s IH]; [reflexivity|].
  cbn [splitDots]. destruct (splitDots s) as [|first rest]; [discriminate IH|].
  destruct (Ascii.eqb c ".").
  - cbn [map concat] in *. rewrite length_app. cbn [String.length].
    rewrite <- IH. reflexivity.
  - cbn [map concat] in *. rewrite length_app in *. unfold encodeLabel in *.
    cbn [length Tunnel.bytesOf String.length] in *. lia.
Qed.

Lemma encodeLabel_bytes (labels : list string) :
  Forall (fun l => (String.length l < 256)%nat) labels ->
  concat (map encodeLabel labels) = encodeLabels (map Tunnel.bytesOf labels).
Proof.
  induction 1 as [|l labels Hl _ IH]; [reflexivity|].
  cbn [map concat]. rewrite IH, encodeLabels_cons. f_equal.
  unfold encodeLabel, byte, Js.len. rewrite bytesOf_length.
  rewrite Z.mod_small by lia. reflexivity.
Qed.

(** X17: [buildDNSQuery] writes a message of 18 bytes plus the length of
    the domain; when no label of the domain is empty or longer than 255
    bytes it is the header with one question followed by the name of the
    domain, the query type and class 1, and the loop with which
    [parseDNSResponse] steps over the question ends exactly at the end of
    the query, that is where the answer records of a response start. *)
Theorem buildDNSQuery_question (domain : string) (qtype : Z) :
  isUint16 qtype ->
  Forall (fun l => (0 < String.length l < 256)%nat) (splitDots domain) ->
  length (buildDNSQuery domain qtype) = (18 + String.length domain)%nat /\
  buildDNSQuery domain qtype =
    header 1 256 1 0 0 0 ++ question (map Tunnel.bytesOf (splitDots domain)) qtype 1 /\
  (skipLabels (buildDNSQuery domain qtype) 12 + 5)%nat
    = length (buildDNSQuery domain qtype).
Proof.
  intros Hq Hl.
  assert (Hlen : length (buildDNSQuery domain qtype) = (18 + String.length domain)%nat).
  { unfold buildDNSQuery. rewrite !length_app, splitDots_length. cbn [length]. lia. }
  assert (Hshape : buildDNSQuery domain qtype =
            header 1 256 1 0 0 0
            ++ question (map Tunnel.bytesOf (splitDots domain)) qtype 1).
  { unfold buildDNSQuery, question, encodeName.
    rewrite encodeLabel_bytes.
    2:{ eapply Forall_impl; [exact Hl|]. intros l H. cbn beta in H. lia. }
    change (header 1 256 1 0 0 0) with [0; 1; 1; 0; 0; 1; 0; 0; 0; 0; 0; 0].
    f_equal. rewrite <- app_assoc. f_equal. unfold be16, byte.
    rewrite Z.shiftr_div_pow2 by lia. change (2 ^ 8) with 256.
    unfold isUint16 in Hq.
    rewrite (Z.mod_small (qtype / 256)).
    2:{ split; [apply Z.div_pos; lia|apply Z.div_lt_upper_bound; lia]. }
    reflexivity. }
  split; [exact Hlen|]. split; [exact Hshape|].
  rewrite Hlen. rewrite Hshape. unfold question.
  change 12%nat with (length (header 1 256 1 0 0 0)) at 1.
  rewrite skipLabels_name.
  2:{ apply Forall_map. eapply Forall_impl; [exact Hl|]. intros l H. cbn beta in H.
      unfold wellFormedLabel. cbn. rewrite bytesOf_length. lia. }
  rewrite <- encodeLabel_bytes.
  2:{ eapply Forall_impl; [exact Hl|]. intros l H. cbn beta in H. lia. }
  rewrite splitDots_length. cbn [length header be16 app]. lia.
Qed.

Lemma buildDNSQuery_question_witness :
  length (buildDNSQuery "example.com" typeHTTPS) = 29%nat.
Proof.
  apply (buildDNSQuery_question "example.com" typeHTTPS).
  - unfold isUint16, typeHTTPS. lia.
  - repeat constructor; simpl; lia.
Defined.

End Dns.

(* ===================================================================== *)
(** * Ingress: dialing the egress with retries                             *)
(* ===================================================================== *)

Module EchDial.

Import Js.

(** What attempt number [attempt] of [dialWebSocketWithECH] meets:
    whether [getECHList] fails, the error of [buildTLSConfigWithECH], if
    any, and the error text of [dialer.Dial], if any. *)
Record Env := mkEnv {
  echErr : Z -> bool;
  tlsErr : Z -> option string;
  dialErr : Z -> option string
}.

Inductive Event :=
| Dial (attempt : Z) (withECH : bool)   (* [dialer.Dial(wsURL, nil)] *)
| RefreshECH (attempt : Z).              (* [ps.refreshECH()], then a second of sleep *)

Inductive Result :=
| Connected (attempt : Z)
| InvalidAddress                          (* [parseServerAddr] failed *)
| TlsError (e : string)
| DialError (e : string)
| RetriesExhausted.                       (* the error after the loop *)

(** The loop [for attempt := 1; attempt <= maxRetries; attempt++], entered
    at [attempt] with [remaining] rounds to go. *)
Fixpoint attempts (env : Env) (maxRetries : Z) (remaining : nat) (attempt : Z)
  : list Event * Result :=
  match remaining with
  | O => ([], RetriesExhausted)
  | S rest =>
      let dialing (withECH : bool) :=
        match dialErr env attempt with
        | None => ([Dial attempt withECH], Connected attempt)
        | Some e =>
            if contains "ECH" e && (attempt <? maxRetries)
            then let (evs, r) := attempts env maxRetries rest (attempt + 1) in
                 (Dial attempt withECH :: RefreshECH attempt :: evs, r)
            else ([Dial attempt withECH], DialError e)
        end in
      if echErr env attempt then dialing false
      else
        match tlsErr env attempt with
        | Some e => ([], TlsError e)
        | None => dialing true
        end
  end.

(** [dialWebSocketWithECH(maxRetries)]; [addrOk] tells whether
    [parseServerAddr] accepts the configured server address. *)
Definition dialWebSocketWithECH (env : Env) (addrOk : bool) (maxRetries : Z)
  : list Event * Result :=
  if negb addrOk then ([], InvalidAddress)
  else attempts env maxRetries (Z.to_nat maxRetries) 1.

Definition isDial (e : Event) : bool :=
  match e with
  | Dial _ _ => true
  | _ => false
  end.

Fixpoint count (f : Event -> bool) (evs : list Event) : nat :=
  match evs with
  | [] => 0
  | e :: rest => ((if f e then 1 else 0) + count f rest)%nat
  end.

Definition dials (evs : list Event) : nat := count isDial evs.
Definition refreshes (evs : list Event) : nat := count (fun e => negb (isDial e)) evs.

Lemma attempts_bounds (env : Env) (maxRetries : Z) (remaining : nat) : forall attempt,
  attempt + Z.of_nat remaining = maxRetries + 1 ->
  let r := attempts env maxRetries remaining attempt in
  (dials (fst r) <= remaining)%nat /\
  (refreshes (fst r) <= dials (fst r))%nat /\
  (dials (fst r) <= refreshes (fst r) + 1)%nat /\
  (snd r = RetriesExhausted -> remaining = 0%nat) /\
  (forall e, snd r = DialError e ->
     dialErr env (attempt + Z.of_nat (refreshes (fst r))) = Some e /\
     (contains "ECH" e = false \/ attempt + Z.of_nat (refreshes (fst r)) = maxRetries)).
Proof.
  induction remaining as [|rest IH]; intros attempt Hsum.
  - cbn. refine (conj _ (conj _ (conj _ (conj _ _)))); auto.
    intros e H. discriminate H.
  - cbn [attempts].
    assert (Hdial : forall withECH,
      let r := match dialErr env attempt with
               | None => ([Dial attempt withECH], Connected attempt)
               | Some e =>
                   if contains "ECH" e && (attempt <? maxRetries)
                   then let (evs, r) := attempts env maxRetries rest (attempt + 1) in
                        (Dial attempt withECH :: RefreshECH attempt :: evs, r)
                   else ([Dial attempt withECH], DialError e)
               end in
      (dials (fst r) <= S rest)%nat /\
      (refreshes (fst r) <= dials (fst r))%nat /\
      (dials (fst r) <= refreshes (fst r) + 1)%nat /\
      (snd r = RetriesExhausted -> S rest = 0%nat) /\
      (forall e, snd r = DialError e ->
         dialErr env (attempt + Z.of_nat (refreshes (fst r))) = Some e /\
         (contains "ECH" e = false \/
          attempt + Z.of_nat (refreshes (fst r)) = maxRetries))).
    { intros withECH.
      assert (Hstop : forall e, dialErr env attempt = Some e ->
                (contains "ECH" e = false \/ attempt = maxRetries) ->
                let r := ([Dial attempt withECH], DialError e) in
                (dials (fst r) <= S rest)%nat /\
                (refreshes (fst r) <= dials (fst r))%nat /\
                (dials (fst r) <= refreshes (fst r) + 1)%nat /\
                (snd r = RetriesExhausted -> S rest = 0%nat) /\
                (forall e', snd r = DialError e' ->
                   dialErr env (attempt + Z.of_nat (refreshes (fst r))) = Some e' /\
                   (contains "ECH" e' = false \/
                    attempt + Z.of_nat (refreshes (fst r)) = maxRetries))).
      { intros e He Hwhy. cbn. rewrite Z.add_0_r.
        refine (conj _ (conj _ (conj _ (conj _ _)))); try lia; try discriminate.
        intros e' [= <-]. split; assumption. }
      destruct (dialErr env attempt) as [e|] eqn:He.
      - destruct (contains "ECH" e) eqn:Hc; cbn [andb].
        + destruct (Z.ltb_spec attempt maxRetries) as [Hlt|Hge].
          * specialize (IH (attempt + 1) ltac:(lia)). cbv zeta in IH.
            destruct (attempts env maxRetries rest (attempt + 1)) as [evs r].
            cbn [fst snd] in *. destruct IH as (H1 & H2 & H3 & H4 & H5).
            change (dials (Dial attempt withECH :: RefreshECH attempt :: evs))
              with (S (dials evs)).
            change (refreshes (Dial attempt withECH :: RefreshECH attempt :: evs))
              with (S (refreshes evs)).
            refine (conj _ (conj _ (conj _ (conj _ _)))); try lia.
            -- intros Hr. specialize (H4 Hr). lia.
            -- intros e' He'. destruct (H5 e' He') as [Ha Hb].
               replace (attempt + Z.of_nat (S (refreshes evs)))
                 with (attempt + 1 + Z.of_nat (refreshes evs)) by lia.
               split; assumption.
          * apply Hstop; [reflexivity|right; lia].
        + apply Hstop; [reflexivity|now left].
      - cbn. refine (conj _ (conj _ (conj _ (conj _ _)))); try lia; discriminate. }
    destruct (echErr env attempt); [apply Hdial|].
    destruct (tlsErr env attempt) as [e|]; [|apply Hdial].
    cbn. refine (conj _ (conj _ (conj _ (conj _ _)))); try lia; discriminate.
Qed.


(** X18: [dialWebSocketWithECH(maxRetries)] dials at most [maxRetries]
    times and refreshes the ECH configuration only between two attempts; it
    gives up with a dial error either when that error does not mention ECH
    or when it came from attempt number [maxRetries]; and the error
    "maximum number of retries reached" after the loop is returned only when
    [maxRetries] is zero or negative, in which case nothing is dialed. *)
Theorem dialWebSocketWithECH_retries (env : Env) (addrOk : bool) (maxRetries : Z) :
  let r := dialWebSocketWithECH env addrOk maxRetries in
  Z.of_nat (dials (fst r)) <= Z.max 0 maxRetries /\
  (refreshes (fst r) <= dials (fst r) <= refreshes (fst r) + 1)%nat /\
  (snd r = RetriesExhausted <-> addrOk = true /\ maxRetries <= 0) /\
  (forall e, snd r = DialError e ->
     dialErr env (1 + Z.of_nat (refreshes (fst r))) = Some e /\
     (contains "ECH" e = false \/ 1 + Z.of_nat (refreshes (fst r)) = maxRetries)).
Proof.
  unfold dialWebSocketWithECH. destruct addrOk; cbn [negb].
  - destruct (Z.le_gt_cases maxRetries 0) as [Hle|Hgt].
    + replace (Z.to_nat maxRetries) with 0%nat by lia. cbn.
      repeat split; auto; try lia; discriminate.
    + pose proof (attempts_bounds env maxRetries (Z.to_nat maxRetries) 1 ltac:(lia)) as H.
      cbv zeta in *.
      destruct (attempts env maxRetries (Z.to_nat maxRetries) 1) as [evs r].
      cbn [fst snd] in *. destruct H as (H1 & H2 & H3 & H4 & H5).
      split; [lia|]. split; [lia|]. split; [|exact H5].
      split.
      * intros Hr. specialize (H4 Hr). lia.
      * intros [_ Hle]. lia.
  - cbn. repeat split; auto; try lia; try discriminate.
Qed.

Definition sampleEnv : Env :=
  mkEnv (fun _ => false) (fun _ => None)
        (fun attempt => if attempt =? 1 then Some "tls: ECH rejected"%string else None).

Example dialWebSocketWithECH_ex :
  dialWebSocketWithECH sampleEnv true 2
  = ([Dial 1 true; RefreshECH 1; Dial 2 true], Connected 2) /\
  dialWebSocketWithECH sampleEnv true 1 = ([Dial 1 true], DialError "tls: ECH rejected").
Proof. split; reflexivity. Qed.

End EchDial.

(* ===================================================================== *)
(** * Ingress: routing of an HTTP proxy request                            *)
(* ===================================================================== *)

Module HttpRequest.

Import Js JsFacts.

(** [strings.ToLower] on ASCII text. *)
Definition lower (c : ascii) : ascii :=
  let n := nat_of_ascii c in
  if (65 <=? n)%nat && (n <=? 90)%nat then ascii_of_nat (n + 32) else c.

Fixpoint ToLower (s : string) : string :=
  match s with
  | EmptyString => EmptyString
  | String c s' => String (lower c) (ToLower s')
  end.

(** [strings.Split(line, ":")[0]] *)
Definition beforeColon (line : string) : string :=
  let i := indexOf line ":" in
  if i <? 0 then line else slice line 0 i.

(** The test of the loop that writes the headers: the line is kept unless
    its name is Proxy-Connection or Proxy-Authorization. *)
Definition kept (line : string) : bool :=
  let keyLower := ToLower (trim (beforeColon line)) in
  negb (String.eqb keyLower "proxy-connection")
  && negb (String.eqb keyLower "proxy-authorization").

(** The target and the path of a request of the forward proxy;
    [hostHeader] is [headers["host"]], empty when there is no Host line. *)
Definition targetAndPath (requestURL hostHeader : string) : string * string :=
  if startsWith requestURL "http://" then
    let urlWithoutScheme := sliceFrom requestURL 7 in
    let idx := indexOf urlWithoutScheme "/" in
    if 0 <? idx
    then (slice urlWithoutScheme 0 idx, sliceFrom urlWithoutScheme idx)
    else (urlWithoutScheme, "/"%string)
  else (hostHeader, requestURL).

(** The rebuilt request line and header block. *)
Definition rebuild (method path httpVersion : string) (headerLines : list string)
  : string :=
  method +:+ " " +:+ path +:+ " " +:+ httpVersion +:+ Handshake.CRLF
  +:+ fold_right (fun line acc => line +:+ Handshake.CRLF +:+ acc)
                 Handshake.CRLF (filter (fun line => Is_true (kept line)) headerLines).

Definition proxyMethods : list string :=
  ["GET"; "POST"; "PUT"; "DELETE"; "HEAD"; "OPTIONS"; "PATCH"; "TRACE"]%string.

(** How [handleHTTP] ends once request line and headers are read: it calls
    [handleTunnel(conn, target, clientAddr, mode, firstFrame)], or answers
    with a status line and returns. *)
Inductive Outcome :=
| Tunnel (target : string) (mode : Z) (firstFrame : list Z)
| Respond (response : string).

(** [handleHTTP] after the header loop; [reader] holds the bytes that
    follow the header block. *)
Definition dispatch (method requestURL httpVersion : string)
    (headerLines : list string) (hostHeader contentLength : string)
    (reader : list Z) : Outcome :=
  if String.eqb method "CONNECT"
  then Tunnel requestURL Handshake.modeHTTPConnect []
  else if existsb (String.eqb method) proxyMethods then
    let (target, path) := targetAndPath requestURL hostHeader in
    if isEmpty target
    then Respond ("HTTP/1.1 400 Bad Request" +:+ Handshake.CRLF +:+ Handshake.CRLF)
    else
      let target := if includes target ":" then target else target +:+ ":80" in
      Tunnel target Handshake.modeHTTPProxy
             (Tunnel.bytesOf (rebuild method path httpVersion headerLines)
              ++ HttpProxy.readBody contentLength reader)
  else Respond ("HTTP/1.1 405 Method Not Allowed" +:+ Handshake.CRLF +:+ Handshake.CRLF).

Example dispatch_ex :
  dispatch "GET" "http://example.com/a?b" "HTTP/1.1"
           ["Host: example.com"; "Proxy-Connection: keep-alive"] "example.com" "" []
  = Tunnel "example.com:80" Handshake.modeHTTPProxy
      (Tunnel.bytesOf ("GET /a?b HTTP/1.1" +:+ Handshake.CRLF +:+ "Host: example.com"
                       +:+ Handshake.CRLF +:+ Handshake.CRLF)).
Proof. vm_compute. reflexivity. Qed.


(** [target] with the default port added. *)
Definition withDefaultPort (target : string) : string :=
  if includes target ":" then target else target +:+ ":80".

Lemma proxy_method (method : string) :
  In method proxyMethods ->
  String.eqb method "CONNECT" = false /\ existsb (String.eqb method) proxyMethods = true.
Proof.
  unfold proxyMethods. cbn [In]. intros H.
  repeat (destruct H as [<-|H]; [split; reflexivity|]). contradiction.
Qed.

Lemma targetAndPath_absolute (authority rest hostHeader : string) :
  authority <> EmptyString -> includes authority "/" = false ->
  targetAndPath ("http://" +:+ authority +:+ "/" +:+ rest) hostHeader
    = (authority, "/" +:+ rest) /\
  targetAndPath ("http://" +:+ authority) hostHeader = (authority, "/"%string).
Proof.
  intros Hne Hslash. unfold targetAndPath.
  pose proof (EgressFacts.len_pos_cons authority Hne) as Hlen.
  split.
  - rewrite startsWith_append.
    change 7 with (len "http://"). rewrite sliceFrom_suffix.
    change (authority +:+ "/" +:+ rest) with (authority +:+ String "/" rest).
    rewrite indexOf_seam by exact Hslash.
    destruct (Z.ltb_spec 0 (len authority)); [|lia].
    rewrite slice_prefix, sliceFrom_suffix. reflexivity.
  - rewrite startsWith_append.
    change 7 with (len "http://"). rewrite sliceFrom_suffix.
    unfold includes in Hslash. apply Z.leb_gt in Hslash.
    destruct (Z.ltb_spec 0 (indexOf authority "/")); [lia|reflexivity].
Qed.

(** X19: a request of the forward proxy with one of the methods GET,
    POST, PUT, DELETE, HEAD, OPTIONS, PATCH, TRACE and an absolute URL
    [http://authority/rest] is tunnelled in HTTP proxy mode to the
    authority, with port 80 added when the authority names no port, and its
    first frame is the request rebuilt with the path [/rest] in place of the
    URL, followed by the body; a URL [http://authority] without path is sent
    on with the path [/]; the Host header plays no part for an absolute
    URL. *)
Theorem forward_proxy_routing (method authority rest httpVersion : string)
    (headerLines : list string) (hostHeader contentLength : string) (reader : list Z) :
  In method proxyMethods ->
  authority <> EmptyString -> includes authority "/" = false ->
  dispatch method ("http://" +:+ authority +:+ "/" +:+ rest) httpVersion headerLines
           hostHeader contentLength reader
  = Tunnel (withDefaultPort authority) Handshake.modeHTTPProxy
      (Tunnel.bytesOf (rebuild method ("/" +:+ rest) httpVersion headerLines)
       ++ HttpProxy.readBody contentLength reader) /\
  dispatch method ("http://" +:+ authority) httpVersion headerLines
           hostHeader contentLength reader
  = Tunnel (withDefaultPort authority) Handshake.modeHTTPProxy
      (Tunnel.bytesOf (rebuild method "/" httpVersion headerLines)
       ++ HttpProxy.readBody contentLength reader).
Proof.
  intros Hm Hne Hslash.
  destruct (proxy_method method Hm) as [Hc Hp].
  destruct (targetAndPath_absolute authority rest hostHeader Hne Hslash) as [H1 H2].
  assert (Hnonempty : isEmpty authority = false)
    by (destruct authority; [congruence|reflexivity]).
  unfold dispatch. rewrite Hc, Hp, H1, H2, Hnonempty. split; reflexivity.
Qed.

Lemma forward_proxy_routing_witness :
  dispatch "POST" "http://example.com:8080/upload" "HTTP/1.1"
           ["Content-Length: 2"; "Proxy-Authorization: Basic eA=="] "" "2" [104; 105]
  = Tunnel "example.com:8080" Handshake.modeHTTPProxy
      (Tunnel.bytesOf (rebuild "POST" "/upload" "HTTP/1.1"
                         ["Content-Length: 2"; "Proxy-Authorization: Basic eA=="])
       ++ [104; 105]).
Proof.
  apply (forward_proxy_routing "POST" "example.com:8080" "upload" "HTTP/1.1"
           ["Content-Length: 2"; "Proxy-Authorization: Basic eA=="] "" "2" [104; 105]).
  - simpl. tauto.
  - discriminate.
  - reflexivity.
Defined.


Lemma beforeColon_name (name value : string) :
  includes name ":" = false -> beforeColon (name +:+ ":" +:+ value) = name.
Proof.
  intros Hn. unfold beforeColon.
  change (name +:+ ":" +:+ value) with (name +:+ String ":" value).
  rewrite indexOf_seam by exact Hn. pose proof (len_nonneg name).
  destruct (Z.ltb_spec (len name) 0); [lia|]. apply slice_prefix.
Qed.

Lemma filter_kept_cons (line : string) (lines : list string) :
  filter (fun l => Is_true (kept l)) (line :: lines)
  = if kept line then line :: filter (fun l => Is_true (kept l)) lines
    else filter (fun l => Is_true (kept l)) lines.
Proof.
  destruct (kept line) eqn:Hk.
  - rewrite filter_cons_True; [reflexivity|]. now rewrite Hk.
  - rewrite filter_cons_False; [reflexivity|]. now rewrite Hk.
Qed.

(** X20: the rebuilt request leaves out a header line exactly by its
    name: a line [name:value] whose name holds no colon and no white space is
    dropped if and only if the name, compared without regard to case, is
    Proxy-Connection or Proxy-Authorization, whatever its value; every other
    line is written back unchanged and in its place, followed by CRLF. *)
Theorem proxy_headers_filtered (method path httpVersion name value : string)
    (headerLines : list string) :
  includes name ":" = false -> noSpace name = true ->
  let line := name +:+ ":" +:+ value in
  let hop := String.eqb (ToLower name) "proxy-connection"
             || String.eqb (ToLower name) "proxy-authorization" in
  kept line = negb hop /\
  rebuild method path httpVersion (line :: headerLines)
  = method +:+ " " +:+ path +:+ " " +:+ httpVersion +:+ Handshake.CRLF
    +:+ (if hop then EmptyString else line +:+ Handshake.CRLF)
    +:+ fold_right (fun l acc => l +:+ Handshake.CRLF +:+ acc) Handshake.CRLF
          (filter (fun l => Is_true (kept l)) headerLines).
Proof.
  intros Hcolon Hspace line hop.
  assert (Hk : kept line = negb hop).
  { unfold kept, line, hop. rewrite beforeColon_name by exact Hcolon.
    rewrite trim_noSpace by exact Hspace. now rewrite negb_orb. }
  split; [exact Hk|].
  unfold rebuild. rewrite filter_kept_cons, Hk.
  destruct hop; cbn [negb fold_right].
  - reflexivity.
  - now rewrite !Handshake.append_assoc.
Qed.

Lemma proxy_headers_filtered_witness :
  kept "PROXY-Connection:keep-alive" = false.
Proof.
  apply (proxy_headers_filtered "GET" "/" "HTTP/1.1" "PROXY-Connection" "keep-alive" []).
  - reflexivity.
  - reflexivity.
Defined.

End HttpRequest.
